(** * Coupon-Backend: a shallow embedding of the auth, profile and coupon code

    The development follows the TypeScript sources:
    - [utils/otpUtils]        storeOTP, verifyOTP
    - [models/userModel]      findByEmail, findById, verifyPassword
    - [models/UserProfileModel] getCompleteUserProfile, updateProfilePicture
    - [controllers]           AuthController.login, UserProfileController
    - [middlewares/authMiddleware] checkVerification
    - [routes/couponRoutes]   calculateExpirationDate, deleteCloudinaryImage,
                              PUT /:id, DELETE /:id
    and, in the second part, the rest of the same files: the expiry
    sweep, the cleanup, the lists, the counts, create and read of
    [routes/couponRoutes]; signup, the verification handlers and the
    guards of [controllers], [middlewares/authMiddleware] and
    [routes/authRoutes]; createUser and findByPhone of [models/userModel];
    sendEmail and sendOTPEmail; create, find, update and delete of
    [models/UserProfileModel] with the save and delete handlers.

    JavaScript strings are sequences of UTF-16 code units ([jsstring]);
    dates are their time value, milliseconds since the epoch, in [Z];
    the relational store is a record of tables (lists of rows, in table
    order); every external call (a [pool.query], a Cloudinary call) can
    throw, which a schedule of faults in the world decides. *)

From Stdlib Require Import List ZArith NArith Bool String Ascii Lia.
From Stdlib Require DecimalString Permutation Sorted.
Import ListNotations.
Open Scope Z_scope.

(* ================================================================= *)
(** ** JavaScript strings *)

Module Js.

Definition jsstring := list N.

(** A literal of the source, as code units. *)
Definition js (s : string) : jsstring :=
  map N_of_ascii (list_ascii_of_string s).

Definition eqb (a b : jsstring) : bool :=
  if list_eq_dec N.eq_dec a b then true else false.

(** ToBoolean on a string: the empty string is falsy. *)
Definition truthy (s : jsstring) : bool :=
  match s with [] => false | _ :: _ => true end.

(** ToBoolean on [string | undefined | null]. *)
Definition truthy_opt (s : option jsstring) : bool :=
  match s with Some v => truthy v | None => false end.

(** [a || b] where [a] may be undefined. *)
Definition or_else (a : option jsstring) (b : jsstring) : jsstring :=
  match a with
  | Some v => if truthy v then v else b
  | None => b
  end.

(** [a || b] where both may be undefined or null. *)
Definition or_else_opt (a b : option jsstring) : option jsstring :=
  if truthy_opt a then a else b.

End Js.
Import Js.

(* ================================================================= *)
(** ** Regular expressions: the backtracking matcher of [String.prototype.match] *)

Module Regex.

(** Character classes of the source's pattern. *)
Definition is_digit (c : N) : bool := ((48 <=? c) && (c <=? 57))%N.

(** [\s]: WhiteSpace and LineTerminator code units. *)
Definition is_space (c : N) : bool :=
  (((9 <=? c) && (c <=? 13)) || (c =? 32) || (c =? 160) || (c =? 5760)
   || ((8192 <=? c) && (c <=? 8202)) || (c =? 8232) || (c =? 8233)
   || (c =? 8239) || (c =? 8287) || (c =? 12288) || (c =? 65279))%N.

(** A lower-case ASCII letter of the pattern under the [i] flag: without
    the [u] flag no code unit above 127 canonicalises to an ASCII one, so
    the letter matches itself and its upper-case form only. *)
Definition ci (l : ascii) (c : N) : bool :=
  ((c =? N_of_ascii l) || (c =? N_of_ascii l - 32))%N.

Inductive regex : Type :=
| Cls (p : N -> bool)            (* one code unit of a class *)
| Cat (r1 r2 : regex)            (* r1 r2 *)
| Alt (r1 r2 : regex)            (* r1 | r2 *)
| Opt (r : regex)                (* r?  greedy *)
| Star (p : N -> bool)           (* c*  greedy, c a class *)
| Plus (p : N -> bool)           (* c+  greedy, c a class *)
| Group (n : nat) (r : regex).   (* the n-th capturing group *)

(** Captures: group number to captured substring, [None] is undefined. *)
Definition captures := nat -> option jsstring.

Definition no_captures : captures := fun _ => None.

Definition set_capture (n : nat) (v : jsstring) (c : captures) : captures :=
  fun m => if Nat.eqb m n then Some v else c m.

Section Matcher.
Context {R : Type}.

(** Greedy repetition of a class: the longest run first, then shorter
    ones when the continuation fails. *)
Fixpoint star_match (p : N -> bool) (s : jsstring)
         (k : jsstring -> option R) : option R :=
  match s with
  | c :: s' =>
      if p c then
        match star_match p s' k with
        | Some x => Some x
        | None => k s
        end
      else k s
  | [] => k []
  end.

(** The matcher in continuation-passing style, as ECMAScript defines it:
    [k] is the rest of the pattern; alternatives are tried left to
    right. *)
Fixpoint rmatch (r : regex) (s : jsstring) (c : captures)
         (k : jsstring -> captures -> option R) : option R :=
  match r with
  | Cls p =>
      match s with
      | x :: s' => if p x then k s' c else None
      | [] => None
      end
  | Cat r1 r2 => rmatch r1 s c (fun s1 c1 => rmatch r2 s1 c1 k)
  | Alt r1 r2 =>
      match rmatch r1 s c k with
      | Some x => Some x
      | None => rmatch r2 s c k
      end
  | Opt r1 =>
      match rmatch r1 s c k with
      | Some x => Some x
      | None => k s c
      end
  | Star p => star_match p s (fun s' => k s' c)
  | Plus p =>
      match s with
      | x :: s' => if p x then star_match p s' (fun s'' => k s'' c) else None
      | [] => None
      end
  | Group n r1 =>
      rmatch r1 s c
        (fun s' c' =>
           k s' (set_capture n (firstn (List.length s - List.length s') s) c'))
  end.
End Matcher.

(** [str.match(re)] for a pattern without the [g] flag: the first start
    index, from the left, at which the pattern matches. *)
Fixpoint exec (r : regex) (s : jsstring) : option captures :=
  match rmatch r s no_captures (fun _ c => Some c) with
  | Some c => Some c
  | None =>
      match s with
      | [] => None
      | _ :: s' => exec r s'
      end
  end.

(** [m[n]] where the group took part in the match. *)
Definition group (m : captures) (n : nat) : jsstring :=
  match m n with Some v => v | None => [] end.

(** [parseInt] on a string that starts with decimal digits: the value of
    the longest digit prefix (exact below 2^53, where a double holds every
    integer). *)
Fixpoint parseInt_from (acc : Z) (s : jsstring) : Z :=
  match s with
  | c :: s' =>
      if is_digit c then parseInt_from (acc * 10 + Z.of_N (c - 48)) s' else acc
  | [] => acc
  end.

Definition parseInt (s : jsstring) : Z := parseInt_from 0 s.

End Regex.
Import Regex.

(* ================================================================= *)
(** ** Duration parsing *)

Definition digits (n : nat) : regex := Group n (Plus is_digit).

(** [hrs?] *)
Definition hrs : regex := Cat (Cls (ci "h"%char)) (Cat (Cls (ci "r"%char)) (Opt (Cls (ci "s"%char)))).

(** [min?] *)
Definition min_ : regex := Cat (Cls (ci "m"%char)) (Cat (Cls (ci "i"%char)) (Opt (Cls (ci "n"%char)))).

(** [/(\d+)hrs?\s*(\d+)min?|(\d+)hrs?|(\d+)min?/i] *)
Definition duration_re : regex :=
  Alt (Cat (digits 1) (Cat hrs (Cat (Star is_space) (Cat (digits 2) min_))))
      (Alt (Cat (digits 3) hrs)
           (Cat (digits 4) min_)).

Definition totalMinutes (duration : jsstring) : Z :=
  match exec duration_re duration with
  | Some durationMatch =>
      if truthy_opt (durationMatch 1%nat) && truthy_opt (durationMatch 2%nat) then
        parseInt (group durationMatch 1) * 60 + parseInt (group durationMatch 2)
      else if truthy_opt (durationMatch 3%nat) then
        parseInt (group durationMatch 3) * 60
      else if truthy_opt (durationMatch 4%nat) then
        parseInt (group durationMatch 4)
      else 0
  | None => 0
  end.

(** [calculateExpirationDate]: [now] is the value of [new Date()]. *)
Definition calculateExpirationDate (now : Z) (duration : jsstring) : Z :=
  now + totalMinutes duration * 60000.


(* ================================================================= *)
(** ** The relational store: rows as the code reads and writes them *)

(** [type: "email" | "phone"] *)
Inductive OtpType : Type := email_type | phone_type.

Definition OtpType_eqb (a b : OtpType) : bool :=
  match a, b with
  | email_type, email_type | phone_type, phone_type => true
  | _, _ => false
  end.

Module User.
Record t : Type := mk {
  id : Z;
  email : jsstring;
  phone : jsstring;
  password : jsstring;
  is_verified : bool;
  created_at : Z;
  updated_at : Z
}.
Definition set_verified (now : Z) (u : t) : t :=
  mk (id u) (email u) (phone u) (password u) true (created_at u) now.
End User.

Module Otp.
Record t : Type := mk {
  id : Z;
  user_id : Z;
  otp : jsstring;
  type : OtpType;
  expires_at : Z;
  created_at : Z
}.
End Otp.

Module Profile.
Record t : Type := mk {
  id : Z;
  user_id : Z;
  email : jsstring;
  phone_number : jsstring;
  first_name : jsstring;
  middle_name : option jsstring;
  last_name : jsstring;
  gender : jsstring;
  house_no : Z;
  city_town_village : jsstring;
  district : jsstring;
  state : jsstring;
  country : jsstring;
  profile_picture_url : option jsstring;
  created_at : Z;
  updated_at : Z
}.
Definition set_picture (url : jsstring) (now : Z) (p : t) : t :=
  mk (id p) (user_id p) (email p) (phone_number p) (first_name p)
     (middle_name p) (last_name p) (gender p) (house_no p)
     (city_town_village p) (district p) (state p) (country p)
     (Some url) (created_at p) now.
End Profile.

Module Coupon.
Record t : Type := mk {
  id : Z;
  brand_name : jsstring;
  coupon_id : jsstring;
  bogo : option jsstring;
  discount : option jsstring;
  audience : jsstring;
  duration : jsstring;
  image_url : option jsstring;
  image_public_id : option jsstring;
  expires_at : option Z;
  is_expired : option bool;
  expired_at : option Z;
  created_at : Z;
  updated_at : Z
}.
End Coupon.

(** The values bound to [$1 .. $9] of the coupon UPDATE statement. *)
Record CouponUpdate : Type := mkCouponUpdate {
  set_brand_name : jsstring;
  set_bogo : option jsstring;
  set_discount : option jsstring;
  set_audience : jsstring;
  set_duration : jsstring;
  set_image_url : option jsstring;
  set_image_public_id : option jsstring;
  set_expires_at : option Z;
  set_is_expired : option bool
}.

(** Every call that leaves the process, with its parameters. *)
Inductive Call : Type :=
| DeleteOtp (userId : Z) (type : OtpType)
| InsertOtp (userId : Z) (otp : jsstring) (type : OtpType) (expiresAt : Z)
| SelectOtp (userId : Z) (otp : jsstring) (type : OtpType)
| MarkUserVerified (userId : Z)
| SelectUserByEmail (email : jsstring)
| SelectUserById (id : Z)
| SelectCompleteProfile (userId : Z)
| UpdateProfilePicture (imageUrl : jsstring) (userId : Z)
| SelectCoupon (couponId : jsstring)
| UpdateCoupon (couponId : jsstring) (values : CouponUpdate)
| DeleteCoupon (couponId : jsstring)
| CloudinaryDestroy (publicId : jsstring).

Record World : Type := mkWorld {
  users : list User.t;
  otp_codes : list Otp.t;
  users_profiles : list Profile.t;
  coupons : list Coupon.t;
  assets : list jsstring;     (* public ids held by Cloudinary *)
  otp_seq : Z;                (* next SERIAL value of otp_codes.id *)
  clock : Z;                  (* NOW() and new Date() *)
  faults : list bool;         (* one entry per external call: does it throw? *)
  trace : list Call           (* the calls issued so far, oldest first *)
}.

Definition with_users (v : list User.t) (w : World) : World :=
  mkWorld v (otp_codes w) (users_profiles w) (coupons w) (assets w)
          (otp_seq w) (clock w) (faults w) (trace w).
Definition with_otp_codes (v : list Otp.t) (seq : Z) (w : World) : World :=
  mkWorld (users w) v (users_profiles w) (coupons w) (assets w)
          seq (clock w) (faults w) (trace w).
Definition with_users_profiles (v : list Profile.t) (w : World) : World :=
  mkWorld (users w) (otp_codes w) v (coupons w) (assets w)
          (otp_seq w) (clock w) (faults w) (trace w).
Definition with_coupons (v : list Coupon.t) (w : World) : World :=
  mkWorld (users w) (otp_codes w) (users_profiles w) v (assets w)
          (otp_seq w) (clock w) (faults w) (trace w).
Definition with_assets (v : list jsstring) (w : World) : World :=
  mkWorld (users w) (otp_codes w) (users_profiles w) (coupons w) v
          (otp_seq w) (clock w) (faults w) (trace w).
Definition with_faults (v : list bool) (w : World) : World :=
  mkWorld (users w) (otp_codes w) (users_profiles w) (coupons w) (assets w)
          (otp_seq w) (clock w) v (trace w).
Definition with_trace (v : list Call) (w : World) : World :=
  mkWorld (users w) (otp_codes w) (users_profiles w) (coupons w) (assets w)
          (otp_seq w) (clock w) (faults w) v.

(* ================================================================= *)
(** ** Effects: state and exceptions *)

Inductive outcome (A : Type) : Type :=
| Ok (a : A)
| Throw.
Arguments Ok {A} a.
Arguments Throw {A}.

(** A computation runs in a world and ends in a value or a thrown
    exception; what it did to the world before throwing stays done. *)
Definition M (A : Type) : Type := World -> outcome A * World.

Definition ret {A} (a : A) : M A := fun w => (Ok a, w).

Definition bind {A B} (m : M A) (f : A -> M B) : M B :=
  fun w =>
    match m w with
    | (Ok a, w') => f a w'
    | (Throw, w') => (Throw, w')
    end.

(** [try { m } catch (error) { h }] *)
Definition try_catch {A} (m : M A) (h : M A) : M A :=
  fun w =>
    match m w with
    | (Ok a, w') => (Ok a, w')
    | (Throw, w') => h w'
    end.

Declare Scope monad_scope.
Delimit Scope monad_scope with monad.
Notation "x <- m ;; k" := (bind m (fun x => k))
  (at level 61, m at next level, right associativity) : monad_scope.
Notation "m ;;; k" := (bind m (fun _ => k))
  (at level 61, right associativity) : monad_scope.
Open Scope monad_scope.

(** An external call: it is recorded, then the schedule says whether it
    throws (a lost connection, a violated constraint, a remote error);
    when it does not, [effect] is what it does to the world and returns. *)
Definition external {A} (c : Call) (effect : World -> A * World) : M A :=
  fun w =>
    let w1 := with_trace (trace w ++ [c]) w in
    match faults w1 with
    | true :: rest => (Throw, with_faults rest w1)
    | false :: rest =>
        let (a, w2) := effect (with_faults rest w1) in (Ok a, w2)
    | [] => let (a, w2) := effect w1 in (Ok a, w2)
    end.

(** The next external call does not throw. *)
Definition next_call_ok (w : World) : bool :=
  match faults w with
  | true :: _ => false
  | _ => true
  end.

(** [new Date()], and [NOW()] inside a statement: the clock of the world. *)
Definition new_Date : M Z := fun w => (Ok (clock w), w).

(** A query that only reads. *)
Definition reading {A} (f : World -> A) : World -> A * World :=
  fun w => (f w, w).

(** A statement that only writes. *)
Definition writing (f : World -> World) : World -> unit * World :=
  fun w => (tt, f w).

(* ================================================================= *)
(** ** Capabilities the code takes from outside *)

(** The value [loginSchema] validates a login body to. *)
Record LoginValue : Type := mkLoginValue {
  useremail : jsstring;
  userpassword : jsstring;
  RememberMe : option bool
}.

(** The hashing, token and validation libraries and the configuration:
    - [bcrypt_compare plain hashed] is [bcrypt.compare];
    - [jwt_sign id email expiresIn now] is [jwt.sign] with the configured
      secret, at issue time [now];
    - [loginSchema_validate body] is [loginSchema.validate(req.body)]:
      Joi's error message, or the validated value;
    - [otpExpiryMinutes] is [parseInt(process.env.OTP_EXPIRY || "10")];
    - [zoneLag] is what happens to a JS [Date] bound to a parameter of
      type [TIMESTAMP] (without time zone) that a statement later
      compares with [NOW()]: pg writes the date as the local time of the
      node process, the column drops the zone, and the comparison reads
      the column in the time zone of the database session. The instant
      the database compares is the date plus [zoneLag] milliseconds: the
      UTC offset of the node process minus that of the session, 0 when
      the two zones agree. *)
Class Capabilities : Type := {
  RawBody : Type;
  bcrypt_compare : jsstring -> jsstring -> bool;
  jwt_sign : Z -> jsstring -> jsstring -> Z -> jsstring;
  loginSchema_validate : RawBody -> jsstring + LoginValue;
  otpExpiryMinutes : Z;
  zoneLag : Z
}.

(* ================================================================= *)
(** ** HTTP responses *)

Record UserView : Type := mkUserView {
  view_id : Z;
  view_email : jsstring;
  view_phone : jsstring;
  view_is_verified : bool
}.

(** The [profile] object of the joined projection: every column of the
    outer-joined table may be null. *)
Record ProfileView : Type := mkProfileView {
  firstName : option jsstring;
  middleName : option jsstring;
  lastName : option jsstring;
  gender : option jsstring;
  houseNo : option Z;
  cityTownVillage : option jsstring;
  district : option jsstring;
  state : option jsstring;
  country : option jsstring;
  profilePictureUrl : option jsstring;
  profile_createdAt : option Z;
  profile_updatedAt : option Z
}.

Record CompleteProfile : Type := mkCompleteProfile {
  cp_id : Z;
  cp_email : jsstring;
  cp_phone : jsstring;
  cp_isVerified : bool;
  cp_profile : ProfileView;
  cp_createdAt : Z
}.

(** A coupon row as [RETURNING *, CASE ... as is_expired, EXTRACT(...) as
    seconds_remaining] yields it: the computed [is_expired] replaces the
    stored column of the same name in the row object; the remaining time
    is kept in milliseconds. *)
Record CouponJson : Type := mkCouponJson {
  row : Coupon.t;
  computed_is_expired : bool;
  ms_remaining : option Z
}.

Inductive Body : Type :=
| Message (message : jsstring)
| Error (error : jsstring)
| MessageStatus (message : jsstring) (status : Z)
| LoginOk (message : jsstring) (user : UserView) (token : jsstring)
| ProfileJson (profile : CompleteProfile)
| MessageProfile (message : jsstring) (profile : option CompleteProfile)
| CouponRow (coupon : option CouponJson)
| MessageCoupon (message : jsstring) (coupon : Coupon.t).

Record Response : Type := mkResponse {
  status : Z;
  body : Body
}.

Definition message_of (r : Response) : option jsstring :=
  match body r with
  | Message m | MessageStatus m _ | LoginOk m _ _
  | MessageProfile m _ | MessageCoupon m _ => Some m
  | Error _ | ProfileJson _ | CouponRow _ => None
  end.

Definition token_of (r : Response) : option jsstring :=
  match body r with
  | LoginOk _ _ t => Some t
  | _ => None
  end.

(** A middleware either answers or calls [next()]. *)
Inductive Passed : Type :=
| Responded (r : Response)
| Next.

(** [req.user] of an [AuthRequest]. *)
Record Identity : Type := mkIdentity {
  identity_id : Z;
  identity_email : jsstring
}.

(* ================================================================= *)
(** ** utils/otpUtils *)

Section WithCapabilities.
Context {caps : Capabilities}.

Definition otp_matches (userId : Z) (type : OtpType) (r : Otp.t) : bool :=
  (Otp.user_id r =? userId) && OtpType_eqb (Otp.type r) type.

(** The two statements of [storeOTP]. In a row, [expires_at] is the
    instant the database takes the column for when it compares it with
    [NOW()]: the date bound to [$4], moved by [zoneLag]. *)
Definition deleteOtpCodes (userId : Z) (type : OtpType) : M unit :=
  external (DeleteOtp userId type)
    (writing (fun w =>
       with_otp_codes
         (filter (fun r => negb (otp_matches userId type r)) (otp_codes w))
         (otp_seq w) w)).

Definition insertOtpCode (userId : Z) (otp : jsstring) (type : OtpType)
           (expiresAt : Z) : M unit :=
  external (InsertOtp userId otp type expiresAt)
    (writing (fun w =>
       with_otp_codes
         (otp_codes w
            ++ [Otp.mk (otp_seq w) userId otp type (expiresAt + zoneLag) (clock w)])
         (otp_seq w + 1) w)).

(** [storeOTP(userId, otp, type)], when nothing else runs between its
    two awaits. *)
Definition storeOTP (userId : Z) (otp : jsstring) (type : OtpType) : M bool :=
  try_catch
    (now <- new_Date ;;
     let expiresAt := now + otpExpiryMinutes * 60000 in
     deleteOtpCodes userId type ;;;
     insertOtpCode userId otp type expiresAt ;;;
     ret true)
    (ret false).

(** *** A call of [storeOTP] between its awaits

    The two statements are awaited one after the other, on the pool and
    outside any transaction, and the table has no constraint on the pair
    (user_id, type): between the DELETE and the INSERT of one call the
    statements of other requests run. An [Issuance] is a call of
    [storeOTP] suspended at one of its two awaits, or settled with its
    result. *)
Inductive Issuance : Type :=
| AtDelete (userId : Z) (otp : jsstring) (type : OtpType) (expiresAt : Z)
| AtInsert (userId : Z) (otp : jsstring) (type : OtpType) (expiresAt : Z)
| Settled (result : bool).

(** The call, up to its first await: [expiresAt] is computed, the DELETE
    is handed to the pool. *)
Definition storeOTP_called (userId : Z) (otp : jsstring) (type : OtpType)
  : M Issuance :=
  now <- new_Date ;;
  ret (AtDelete userId otp type (now + otpExpiryMinutes * 60000)).

(** The awaited statement runs and the call goes on to its next await, or
    to its [return true]; an exception takes it to the [catch]. *)
Definition resume (call : Issuance) : M Issuance :=
  match call with
  | AtDelete userId otp type expiresAt =>
      try_catch
        (deleteOtpCodes userId type ;;; ret (AtInsert userId otp type expiresAt))
        (ret (Settled false))
  | AtInsert userId otp type expiresAt =>
      try_catch
        (insertOtpCode userId otp type expiresAt ;;; ret (Settled true))
        (ret (Settled false))
  | Settled result => ret (Settled result)
  end.

Fixpoint set_nth {A} (n : nat) (a : A) (l : list A) : list A :=
  match n, l with
  | _, [] => []
  | O, _ :: l' => a :: l'
  | S n', x :: l' => x :: set_nth n' a l'
  end.

(** Several calls in flight: [schedule] names, statement by statement,
    the call whose awaited statement the database runs next. *)
Fixpoint interleave (schedule : list nat) (calls : list Issuance)
  : M (list Issuance) :=
  match schedule with
  | [] => ret calls
  | n :: schedule' =>
      match nth_error calls n with
      | Some call =>
          call' <- resume call ;; interleave schedule' (set_nth n call' calls)
      | None => interleave schedule' calls
      end
  end.

(** Two calls for the same pair made one after the other, their
    statements then run in the order DELETE, DELETE, INSERT, INSERT. *)
Definition overlapping_issuances (userId : Z) (otp1 otp2 : jsstring)
           (type : OtpType) : M (list Issuance) :=
  first <- storeOTP_called userId otp1 type ;;
  second <- storeOTP_called userId otp2 type ;;
  interleave [0; 1; 0; 1]%nat [first; second].

(** The calls a world has seen since an earlier one. *)
Definition calls_since (earlier later : World) : list Call :=
  skipn (List.length (trace earlier)) (trace later).

(** A call of [storeOTP] made in [called] has returned true in
    [returned], and between its DELETE and its INSERT, while statements
    of other calls ran in some order, no other call inserted a row for
    its pair. *)
Definition issued_undisturbed (userId : Z) (otp : jsstring) (type : OtpType)
           (called returned : World) : Prop :=
  exists called' call w call1 w1 schedule others others' w2,
    storeOTP_called userId otp type called = (Ok call, called')
    /\ resume call w = (Ok call1, w1)
    /\ interleave schedule others w1 = (Ok others', w2)
    /\ (forall o e, ~ In (InsertOtp userId o type e) (calls_since w1 w2))
    /\ resume call1 w2 = (Ok (Settled true), returned).

(** [verifyOTP(userId, otp, type)] *)
Definition verifyOTP (userId : Z) (otp : jsstring) (type : OtpType) : M bool :=
  try_catch
    (rows <- external (SelectOtp userId otp type)
       (reading (fun w =>
          filter (fun r => otp_matches userId type r
                           && Js.eqb (Otp.otp r) otp
                           && (clock w <? Otp.expires_at r))
                 (otp_codes w))) ;;
     match rows with
     | [] => ret false
     | _ :: _ =>
         external (DeleteOtp userId type)
           (writing (fun w =>
              with_otp_codes
                (filter (fun r => negb (otp_matches userId type r)) (otp_codes w))
                (otp_seq w) w)) ;;;
         external (MarkUserVerified userId)
           (writing (fun w =>
              with_users
                (map (fun u => if User.id u =? userId
                               then User.set_verified (clock w) u else u)
                     (users w))
                w)) ;;;
         ret true
     end)
    (ret false).

(* ================================================================= *)
(** ** models/userModel *)

(** [UserModel.findByEmail] *)
Definition findByEmail (email : jsstring) : M (option User.t) :=
  try_catch
    (rows <- external (SelectUserByEmail email)
       (reading (fun w => filter (fun u => Js.eqb (User.email u) email) (users w))) ;;
     ret (hd_error rows))
    (ret None).

(** [UserModel.findById] *)
Definition findById (id : Z) : M (option User.t) :=
  try_catch
    (rows <- external (SelectUserById id)
       (reading (fun w => filter (fun u => User.id u =? id) (users w))) ;;
     ret (hd_error rows))
    (ret None).

(** [UserModel.verifyPassword] *)
Definition verifyPassword (plainPassword hashedPassword : jsstring) : M bool :=
  ret (bcrypt_compare plainPassword hashedPassword).

(* ================================================================= *)
(** ** controllers/authController: login *)

Definition json (st : Z) (b : Body) : M Response := ret (mkResponse st b).

(** [AuthController.login] *)
Definition login (req_body : RawBody) : M Response :=
  try_catch
    (match loginSchema_validate req_body with
     | inl error_message => json 400 (Message error_message)
     | inr value =>
         user <- findByEmail (useremail value) ;;
         match user with
         | None => json 401 (Message (js "Invalid email or password"))
         | Some user =>
             isPasswordValid <- verifyPassword (userpassword value) (User.password user) ;;
             if negb isPasswordValid then
               json 401 (Message (js "Invalid email or password"))
             else if negb (User.is_verified user) then
               json 203 (Message (js "Please verify your account"))
             else
               now <- new_Date ;;
               let token :=
                 jwt_sign (User.id user) (User.email user)
                   (match RememberMe value with
                    | Some true => js "30d"
                    | _ => js "1d"
                    end)
                   now in
               json 200
                 (LoginOk (js "Login successful")
                    (mkUserView (User.id user) (User.email user)
                       (User.phone user) (User.is_verified user))
                    token)
         end
     end)
    (json 500 (Message (js "Internal server error"))).

(* ================================================================= *)
(** ** middlewares/authMiddleware: checkVerification *)

Definition checkVerification (req_user : option Identity) : M Passed :=
  try_catch
    (match req_user with
     | None => ret (Responded (mkResponse 401 (Message (js "Unauthorized"))))
     | Some req_user =>
         user <- findById (identity_id req_user) ;;
         match user with
         | None => ret (Responded (mkResponse 404 (Message (js "User not found"))))
         | Some user =>
             if negb (User.is_verified user) then
               ret (Responded
                      (mkResponse 403
                         (MessageStatus (js "Account not verified") 203)))
             else ret Next
         end
     end)
    (ret (Responded (mkResponse 500 (Message (js "Internal server error"))))).

(* ================================================================= *)
(** ** models/UserProfileModel *)

Definition joined (u : User.t) (p : option Profile.t) : CompleteProfile :=
  mkCompleteProfile (User.id u) (User.email u) (User.phone u) (User.is_verified u)
    (mkProfileView
       (option_map Profile.first_name p)
       (match p with Some p => Profile.middle_name p | None => None end)
       (option_map Profile.last_name p)
       (option_map Profile.gender p)
       (option_map Profile.house_no p)
       (option_map Profile.city_town_village p)
       (option_map Profile.district p)
       (option_map Profile.state p)
       (option_map Profile.country p)
       (match p with Some p => Profile.profile_picture_url p | None => None end)
       (option_map Profile.created_at p)
       (option_map Profile.updated_at p))
    (User.created_at u).

(** [FROM users u LEFT JOIN users_profiles p ON u.id = p.user_id
    WHERE u.id = $1]: a user without a profile still gives one row, its
    profile columns null. *)
Definition left_join_profiles (userId : Z) (w : World) : list CompleteProfile :=
  flat_map
    (fun u =>
       match filter (fun p => Profile.user_id p =? User.id u) (users_profiles w) with
       | [] => [joined u None]
       | ps => map (fun p => joined u (Some p)) ps
       end)
    (filter (fun u => User.id u =? userId) (users w)).

(** [UserProfileModel.getCompleteUserProfile] *)
Definition getCompleteUserProfile (userId : Z) : M (option CompleteProfile) :=
  try_catch
    (rows <- external (SelectCompleteProfile userId)
       (reading (left_join_profiles userId)) ;;
     ret (hd_error rows))
    (ret None).

(** [UserProfileModel.updateProfilePicture] *)
Definition model_updateProfilePicture (userId : Z) (imageUrl : jsstring) : M bool :=
  try_catch
    (external (UpdateProfilePicture imageUrl userId)
       (writing (fun w =>
          with_users_profiles
            (map (fun p => if Profile.user_id p =? userId
                           then Profile.set_picture imageUrl (clock w) p else p)
                 (users_profiles w))
            w)) ;;;
     ret true)
    (ret false).

(* ================================================================= *)
(** ** controllers/UserProfileController *)

(** [UserProfileController.getUserProfile] *)
Definition getUserProfile (req_user : option Identity) : M Response :=
  try_catch
    (match req_user with
     | None => json 401 (Message (js "Unauthorized"))
     | Some req_user =>
         completeProfile <- getCompleteUserProfile (identity_id req_user) ;;
         match completeProfile with
         | None => json 404 (Message (js "Profile not found"))
         | Some completeProfile => json 200 (ProfileJson completeProfile)
         end
     end)
    (json 500 (Message (js "Internal server error"))).

(** [UserProfileController.updateProfilePicture]; [imageUrl] is
    [req.body.imageUrl]. *)
Definition updateProfilePicture (req_user : option Identity)
           (imageUrl : option jsstring) : M Response :=
  try_catch
    (match req_user with
     | None => json 401 (Message (js "Unauthorized"))
     | Some req_user =>
         if negb (truthy_opt imageUrl) then
           json 400 (Message (js "Image URL is required"))
         else
           updated <- model_updateProfilePicture (identity_id req_user)
                        (or_else imageUrl []) ;;
           if negb updated then
             json 500 (Message (js "Failed to update profile picture"))
           else
             completeProfile <- getCompleteUserProfile (identity_id req_user) ;;
             json 200
               (MessageProfile (js "Profile picture updated successfully")
                  completeProfile)
     end)
    (json 500 (Message (js "Internal server error"))).

End WithCapabilities.

(* ================================================================= *)
(** ** routes/couponRoutes *)

(** [req.body] of the coupon routes: multipart text fields. *)
Record CreateCouponRequest : Type := mkCreateCouponRequest {
  brandName : option jsstring;
  couponId : option jsstring;
  bogo : option jsstring;
  discount : option jsstring;
  audience : option jsstring;
  duration : option jsstring
}.

(** [req.file] after the Cloudinary upload. *)
Record UploadedFile : Type := mkUploadedFile {
  path : jsstring;
  filename : jsstring
}.

(** [deleteCloudinaryImage]: the error of [destroy] is logged and
    swallowed. *)
Definition deleteCloudinaryImage (publicId : jsstring) : M unit :=
  try_catch
    (external (CloudinaryDestroy publicId)
       (writing (fun w =>
          with_assets (filter (fun a => negb (Js.eqb a publicId)) (assets w)) w)))
    (ret tt).

(** [if (uploadedFile && uploadedFile.filename) await deleteCloudinaryImage(...)] *)
Definition discard_upload (uploadedFile : option UploadedFile) : M unit :=
  match uploadedFile with
  | Some f => if truthy (filename f) then deleteCloudinaryImage (filename f) else ret tt
  | None => ret tt
  end.

Definition has_coupon_id (id : jsstring) (c : Coupon.t) : bool :=
  Js.eqb (Coupon.coupon_id c) id.

(** [CASE WHEN expires_at <= NOW() THEN true ELSE false END] and
    [expires_at - NOW()] on a row. *)
Definition returning (now : Z) (c : Coupon.t) : CouponJson :=
  mkCouponJson c
    (match Coupon.expires_at c with Some e => e <=? now | None => false end)
    (option_map (fun e => e - now) (Coupon.expires_at c)).

Definition apply_update (now : Z) (v : CouponUpdate) (c : Coupon.t) : Coupon.t :=
  Coupon.mk (Coupon.id c) (set_brand_name v) (Coupon.coupon_id c)
    (set_bogo v) (set_discount v) (set_audience v) (set_duration v)
    (set_image_url v) (set_image_public_id v) (set_expires_at v)
    (set_is_expired v) (Coupon.expired_at c) (Coupon.created_at c) now.

(** The values the PUT handler binds to its UPDATE statement, from the
    request, the upload and the row it read: [imageUrl], [imagePublicId],
    [expiresAt], [isExpired] and the [x || existingCoupon.x] fields. *)
Definition update_values (now : Z) (req_body : CreateCouponRequest)
           (uploadedFile : option UploadedFile) (existingCoupon : Coupon.t)
  : CouponUpdate :=
  let imageUrl :=
    match uploadedFile with
    | Some f => Some (path f)
    | None => Coupon.image_url existingCoupon
    end in
  let imagePublicId :=
    match uploadedFile with
    | Some f => Some (filename f)
    | None => Coupon.image_public_id existingCoupon
    end in
  (* if (duration && duration !== existingCoupon.duration) *)
  let rearm :=
    truthy_opt (duration req_body)
    && negb (Js.eqb (or_else (duration req_body) [])
                    (Coupon.duration existingCoupon)) in
  let expiresAt :=
    if rearm
    then Some (calculateExpirationDate now (or_else (duration req_body) []))
    else Coupon.expires_at existingCoupon in
  let isExpired :=
    if rearm then Some false else Coupon.is_expired existingCoupon in
  mkCouponUpdate
    (or_else (brandName req_body) (Coupon.brand_name existingCoupon))
    (or_else_opt (bogo req_body) (Coupon.bogo existingCoupon))
    (or_else_opt (discount req_body) (Coupon.discount existingCoupon))
    (or_else (audience req_body) (Coupon.audience existingCoupon))
    (or_else (duration req_body) (Coupon.duration existingCoupon))
    imageUrl imagePublicId expiresAt isExpired.

(** [router.put("/:id", upload.single("image"), ...)] of the routes with
    expiration. *)
Definition put_coupon (id : jsstring) (req_body : CreateCouponRequest)
           (uploadedFile : option UploadedFile) : M Response :=
  try_catch
    (existingRows <- external (SelectCoupon id)
       (reading (fun w => filter (has_coupon_id id) (coupons w))) ;;
     match existingRows with
     | [] =>
         discard_upload uploadedFile ;;;
         json 404 (Error (js "Coupon not found"))
     | existingCoupon :: _ =>
         (match uploadedFile with
          | Some _ =>
              if truthy_opt (Coupon.image_public_id existingCoupon) then
                deleteCloudinaryImage
                  (or_else (Coupon.image_public_id existingCoupon) [])
              else ret tt
          | None => ret tt
          end) ;;;
         now <- new_Date ;;
         let values := update_values now req_body uploadedFile existingCoupon in
         rows <- external (UpdateCoupon id values)
           (fun w =>
              let updated :=
                map (fun c => if has_coupon_id id c
                              then apply_update (clock w) values c else c)
                    (coupons w) in
              (map (returning (clock w)) (filter (has_coupon_id id) updated),
               with_coupons updated w)) ;;
         json 200 (CouponRow (hd_error rows))
     end)
    (discard_upload uploadedFile ;;;
     json 500 (Error (js "Failed to update coupon"))).

(** [router.delete("/:id", ...)] *)
Definition delete_coupon (id : jsstring) : M Response :=
  try_catch
    (rows <- external (DeleteCoupon id)
       (fun w =>
          (filter (has_coupon_id id) (coupons w),
           with_coupons (filter (fun c => negb (has_coupon_id id c)) (coupons w)) w)) ;;
     match rows with
     | [] => json 404 (Error (js "Coupon not found"))
     | deletedCoupon :: _ =>
         (if truthy_opt (Coupon.image_public_id deletedCoupon) then
            deleteCloudinaryImage (or_else (Coupon.image_public_id deletedCoupon) [])
          else ret tt) ;;;
         json 200 (MessageCoupon (js "Coupon deleted successfully") deletedCoupon)
     end)
    (json 500 (Error (js "Failed to delete coupon"))).

(* ================================================================= *)
(** ** The duration shapes as the specification words them *)

(** The specification lists three shapes, [<N>hrs <N>min], [<N>hrs] and
    [<N>min], case-insensitive, each unit with an optional trailing "s".
    Read as generously as the words allow (the shape may occur anywhere
    in the text, blanks between the two parts are optional), they are the
    pattern [(\d+)hrs?\s*(\d+)mins?|(\d+)hrs?|(\d+)mins?]. *)
Definition spec_min : regex :=
  Cat (Cls (ci "m"%char))
      (Cat (Cls (ci "i"%char)) (Cat (Cls (ci "n"%char)) (Opt (Cls (ci "s"%char))))).

Definition spec_duration_re : regex :=
  Alt (Cat (digits 1) (Cat hrs (Cat (Star is_space) (Cat (digits 2) spec_min))))
      (Alt (Cat (digits 3) hrs)
           (Cat (digits 4) spec_min)).

Definition matches_spec_shape (d : jsstring) : bool :=
  match exec spec_duration_re d with Some _ => true | None => false end.

(** What the source's pattern looks for: a decimal digit immediately
    followed by the two letters [l1 l2], in either case. *)
Fixpoint digit_before (l1 l2 : ascii) (d : jsstring) : bool :=
  match d with
  | c :: d' =>
      match d' with
      | x :: y :: _ => (is_digit c && ci l1 x && ci l2 y) || digit_before l1 l2 d'
      | _ => false
      end
  | [] => false
  end.

(* ================================================================= *)
(** ** Vocabulary of the statements *)

(** The row [findByEmail] returns when its query does not throw. *)
Definition stored_user (email : jsstring) (w : World) : option User.t :=
  hd_error (filter (fun u => Js.eqb (User.email u) email) (users w)).

(** The answer of [login] to both kinds of bad credentials. *)
Definition invalid_credentials : Response :=
  mkResponse 401 (Message (js "Invalid email or password")).

(** The answer of [checkVerification] to an unverified user. *)
Definition not_verified_response : Response :=
  mkResponse 403 (MessageStatus (js "Account not verified") 203).

(** No row of [users_profiles] belongs to the user. *)
Definition no_profile (userId : Z) (w : World) : Prop :=
  filter (fun p => Profile.user_id p =? userId) (users_profiles w) = [].

Definition empty_profile : ProfileView :=
  mkProfileView None None None None None None None None None None None None.

(** The ledger invariant: at most one row per (user, type). *)
Definition ledger_unique (l : list Otp.t) : Prop :=
  forall userId type,
    (List.length (filter (otp_matches userId type) l) <= 1)%nat.

(** In the trace [t], call [a] is issued no later than call [b]. *)
Definition issued_no_later (a b : Call) (t : list Call) : Prop :=
  exists i j, nth_error t i = Some a /\ nth_error t j = Some b /\ (i <= j)%nat.


(* ================================================================= *)
(** ** A small instance, for evaluating the code *)

(** Stand-ins for the libraries: the "hash" of a password is the password
    behind a tag, a token is the e-mail and the lifetime, every request
    body is already a validated value; the node process and the database
    session are in one time zone. *)
Definition demo_capabilities : Capabilities := {|
  RawBody := LoginValue;
  bcrypt_compare := fun plain hashed => Js.eqb hashed (js "$2b$" ++ plain);
  jwt_sign := fun _ email expiresIn _ => email ++ js "." ++ expiresIn;
  loginSchema_validate := fun b => inr b;
  otpExpiryMinutes := 10;
  zoneLag := 0
|}.

Definition alice : User.t :=
  User.mk 1 (js "alice@example.com") (js "5550001") (js "$2b$secret") false 1000 1000.

Definition bob : User.t :=
  User.mk 2 (js "bob@example.com") (js "5550002") (js "$2b$hunter2") true 2000 2500.

Definition summer_coupon : Coupon.t :=
  Coupon.mk 1 (js "Acme") (js "SUMMER") None (Some (js "10%")) (js "all")
    (js "1min") (Some (js "https://img/summer.png")) (Some (js "coupons/SUMMER_1"))
    (Some 60000) (Some true) (Some 61000) 0 0.

(** Two users, neither with a profile; one stale code of alice; one
    expired coupon with an image; the clock at 100 seconds. *)
Definition sample_world : World :=
  mkWorld [alice; bob]
          [Otp.mk 1 1 (js "111111") email_type 650000 50000]
          []
          [summer_coupon]
          [js "coupons/SUMMER_1"]
          2 100000 [] [].

Definition alice_login : LoginValue :=
  mkLoginValue (js "alice@example.com") (js "secret") None.

Definition alice_wrong_password : LoginValue :=
  mkLoginValue (js "alice@example.com") (js "guess") None.

Definition carol_login : LoginValue :=
  mkLoginValue (js "carol@example.com") (js "secret") None.

(** The same world, its second external call failing. *)
Definition sample_world_asset_store_down : World :=
  with_faults [false; true] sample_world.

Definition same_duration : CreateCouponRequest :=
  mkCreateCouponRequest None None None None None (Some (js "1min")).

Definition longer_duration : CreateCouponRequest :=
  mkCreateCouponRequest None None None None None (Some (js "2hrs 30min")).

(* ================================================================= *)
(** * Further code of the same files *)

(** ** Vocabulary of the further statements *)

(** None of the next [n] external calls throws. *)
Definition calls_ok (n : nat) (w : World) : bool :=
  forallb negb (firstn n (faults w)).

(** The tables of two worlds are the same (clock, schedule and trace
    aside). *)
Definition same_tables (w w' : World) : Prop :=
  users w' = users w /\ otp_codes w' = otp_codes w
  /\ users_profiles w' = users_profiles w /\ coupons w' = coupons w
  /\ assets w' = assets w.

(** A user row kept its identity and credentials, and was not
    un-verified. *)
Definition same_account (u u' : User.t) : Prop :=
  User.id u' = User.id u /\ User.email u' = User.email u
  /\ User.phone u' = User.phone u /\ User.password u' = User.password u
  /\ (User.is_verified u = true -> User.is_verified u' = true).

(* ================================================================= *)
(** ** The backend: the store and what the further code needs beside it *)

(** An e-mail handed to the transporter; the HTML body is the fixed
    template around [mail_otp]. *)
Record Mail : Type := mkMail {
  mail_to : jsstring;
  mail_subject : jsstring;
  mail_otp : jsstring
}.

(** [UserProfileInput] without its [userId]: the fields of a profile as
    a request gives them. *)
Module Input.
Record t : Type := mk {
  firstName : jsstring;
  middleName : option jsstring;
  lastName : jsstring;
  gender : jsstring;
  houseNo : Z;
  cityTownVillage : jsstring;
  district : jsstring;
  state : jsstring;
  country : jsstring;
  profilePictureUrl : option jsstring
}.
End Input.

(** [Partial<UserProfileInput>]: a field is [None] when the object does
    not have it, or has it [undefined]. *)
Module Patch.
Record t : Type := mk {
  firstName : option jsstring;
  middleName : option jsstring;
  lastName : option jsstring;
  gender : option jsstring;
  houseNo : option Z;
  cityTownVillage : option jsstring;
  district : option jsstring;
  state : option jsstring;
  country : option jsstring;
  profilePictureUrl : option jsstring
}.
End Patch.

(** The statements and calls that are not in [Call]. *)
Inductive Statement : Type :=
| MarkExpiredCoupons
| SelectOldExpiredCoupons (daysOld : Z)
| SelectActiveCoupons
| SelectAllCoupons
| SelectCouponCounts
| SelectCouponWithExpiry (couponId : jsstring)
| FlagCouponExpired (couponId : jsstring)
| InsertCoupon (couponId : jsstring) (values : CouponUpdate)
| SelectUserByPhone (phone : jsstring)
| InsertUser (email phone hashedPassword : jsstring)
| SendMail (mail : Mail)
| SelectProfile (userId : Z)
| InsertProfile (userId : Z) (email phone : jsstring) (profileData : Input.t)
| UpdateProfile (userId : Z) (profileData : Patch.t)
| DeleteProfile (userId : Z).

Record Backend : Type := mkBackend {
  store : World;
  users_id_seq : Z;           (* next SERIAL value of users.id *)
  coupons_id_seq : Z;         (* next SERIAL value of coupons.id *)
  profiles_id_seq : Z;        (* next SERIAL value of users_profiles.id *)
  salts : list jsstring;      (* the salts bcrypt will draw *)
  outbox : list Mail;         (* the e-mails accepted by the transporter *)
  statements : list Statement (* the further statements issued, oldest first *)
}.

Definition with_store (v : World) (b : Backend) : Backend :=
  mkBackend v (users_id_seq b) (coupons_id_seq b) (profiles_id_seq b)
            (salts b) (outbox b) (statements b).
Definition with_users_id_seq (v : Z) (b : Backend) : Backend :=
  mkBackend (store b) v (coupons_id_seq b) (profiles_id_seq b)
            (salts b) (outbox b) (statements b).
Definition with_coupons_id_seq (v : Z) (b : Backend) : Backend :=
  mkBackend (store b) (users_id_seq b) v (profiles_id_seq b)
            (salts b) (outbox b) (statements b).
Definition with_profiles_id_seq (v : Z) (b : Backend) : Backend :=
  mkBackend (store b) (users_id_seq b) (coupons_id_seq b) v
            (salts b) (outbox b) (statements b).
Definition with_salts (v : list jsstring) (b : Backend) : Backend :=
  mkBackend (store b) (users_id_seq b) (coupons_id_seq b) (profiles_id_seq b)
            v (outbox b) (statements b).
Definition with_outbox (v : list Mail) (b : Backend) : Backend :=
  mkBackend (store b) (users_id_seq b) (coupons_id_seq b) (profiles_id_seq b)
            (salts b) v (statements b).
Definition with_statements (v : list Statement) (b : Backend) : Backend :=
  mkBackend (store b) (users_id_seq b) (coupons_id_seq b) (profiles_id_seq b)
            (salts b) (outbox b) v.

Definition with_clock (v : Z) (w : World) : World :=
  mkWorld (users w) (otp_codes w) (users_profiles w) (coupons w) (assets w)
          (otp_seq w) v (faults w) (trace w).

(** What a [catch (err)] receives: a database error with its SQLSTATE
    code, or anything else. *)
Inductive Err : Type :=
| PgError (code : jsstring)
| OtherError.

Inductive result (A : Type) : Type :=
| Returned (a : A)
| Thrown (err : Err).
Arguments Returned {A} a.
Arguments Thrown {A} err.

(** Computations over the backend. *)
Definition P (A : Type) : Type := Backend -> result A * Backend.

Definition pret {A} (a : A) : P A := fun b => (Returned a, b).

Definition pbind {A B} (m : P A) (f : A -> P B) : P B :=
  fun b =>
    match m b with
    | (Returned a, b') => f a b'
    | (Thrown e, b') => (Thrown e, b')
    end.

(** [try { m } catch (err) { h err }] *)
Definition ptry {A} (m : P A) (h : Err -> P A) : P A :=
  fun b =>
    match m b with
    | (Returned a, b') => (Returned a, b')
    | (Thrown e, b') => h e b'
    end.

Notation "x <~ m ;; k" := (pbind m (fun x => k))
  (at level 61, m at next level, right associativity) : monad_scope.
Notation "m ~;; k" := (pbind m (fun _ => k))
  (at level 61, right associativity) : monad_scope.

(** The code modelled over the store alone, run inside the backend. *)
Definition lift {A} (m : M A) : P A :=
  fun b =>
    match m (store b) with
    | (Ok a, w) => (Returned a, with_store w b)
    | (Throw, w) => (Thrown OtherError, with_store w b)
    end.

(** A further external call: it is recorded, then the schedule of the
    store says whether it throws; when it does not, [effect] either
    violates a constraint (and throws the database error, the tables
    untouched) or does its work. *)
Definition perform {A} (s : Statement) (effect : Backend -> Err + A * Backend)
  : P A :=
  fun b =>
    let b1 := with_statements (statements b ++ [s]) b in
    let pass b2 :=
      match effect b2 with
      | inl e => (Thrown e, b2)
      | inr (a, b3) => (Returned a, b3)
      end in
    match faults (store b1) with
    | true :: rest => (Thrown OtherError, with_store (with_faults rest (store b1)) b1)
    | false :: rest => pass (with_store (with_faults rest (store b1)) b1)
    | [] => pass b1
    end.

(** A statement on the coupons table that cannot violate a constraint. *)
Definition on_coupons {A} (f : Z -> list Coupon.t -> A * list Coupon.t)
  : Backend -> Err + A * Backend :=
  fun b =>
    let (a, cs) := f (clock (store b)) (coupons (store b)) in
    inr (a, with_store (with_coupons cs (store b)) b).

(** [new Date()] in the backend. *)
Definition pnow : P Z := fun b => (Returned (clock (store b)), b).

(** Time passes between two steps of a handler. *)
Definition elapse (ms : Z) : P unit :=
  fun b => (Returned tt, with_store (with_clock (clock (store b) + ms) (store b)) b).

(* ================================================================= *)
(** ** SQL conditions: three-valued logic *)

Module Sql.

(** A condition is true, false or NULL ([None]). *)
Definition and (a b : option bool) : option bool :=
  match a, b with
  | Some false, _ | _, Some false => Some false
  | Some true, Some true => Some true
  | _, _ => None
  end.

Definition or (a b : option bool) : option bool :=
  match a, b with
  | Some true, _ | _, Some true => Some true
  | Some false, Some false => Some false
  | _, _ => None
  end.

Definition le (a b : option Z) : option bool :=
  match a, b with
  | Some x, Some y => Some (x <=? y)
  | _, _ => None
  end.

Definition gt (a b : option Z) : option bool :=
  match a, b with
  | Some x, Some y => Some (y <? x)
  | _, _ => None
  end.

Definition eq_bool (a b : option bool) : option bool :=
  match a, b with
  | Some x, Some y => Some (Bool.eqb x y)
  | _, _ => None
  end.

Definition is_null {A} (a : option A) : option bool :=
  match a with None => Some true | Some _ => Some false end.

(** A row passes a WHERE, and a CASE WHEN takes its branch, when the
    condition is true. *)
Definition holds (c : option bool) : bool :=
  match c with Some true => true | _ => false end.

End Sql.

(* ================================================================= *)
(** ** routes/couponRoutes: expiry sweep, cleanup, lists, counts, create, read *)

(** The JSON bodies of the further handlers. *)
Inductive Payload : Type :=
| Plain (b : Body)
| CouponList (rows : list CouponJson)
| Counts (total active expired : Z)
| UserJson (user : UserView) (created_at : Z)
| MessageToken (message : jsstring) (token : jsstring).

Record Reply : Type := mkReply {
  reply_status : Z;
  payload : Payload
}.

Definition reply (st : Z) (p : Payload) : P Reply := pret (mkReply st p).

(** [expires_at <= NOW() AND (is_expired = false OR is_expired IS NULL)] *)
Definition due (now : Z) (c : Coupon.t) : bool :=
  Sql.holds
    (Sql.and (Sql.le (Coupon.expires_at c) (Some now))
             (Sql.or (Sql.eq_bool (Coupon.is_expired c) (Some false))
                     (Sql.is_null (Coupon.is_expired c)))).

(** [SET is_expired = true, expired_at = NOW()] *)
Definition flag_expired (now : Z) (c : Coupon.t) : Coupon.t :=
  Coupon.mk (Coupon.id c) (Coupon.brand_name c) (Coupon.coupon_id c)
    (Coupon.bogo c) (Coupon.discount c) (Coupon.audience c) (Coupon.duration c)
    (Coupon.image_url c) (Coupon.image_public_id c) (Coupon.expires_at c)
    (Some true) (Some now) (Coupon.created_at c) (Coupon.updated_at c).

(** [markExpiredCoupons]: the flagged rows come back as
    [(coupon_id, brand_name)] and are only logged. *)
Definition markExpiredCoupons : P unit :=
  ptry
    (result <~ perform MarkExpiredCoupons
       (on_coupons (fun now cs =>
          (map (fun c => (Coupon.coupon_id c, Coupon.brand_name c))
               (filter (due now) cs),
           map (fun c => if due now c then flag_expired now c else c) cs))) ;;
     pret tt)
    (fun _ => pret tt).

(** [is_expired = true AND expired_at <= NOW() - INTERVAL 'daysOld days'],
    a day being 86400000 ms. *)
Definition old_expired (now daysOld : Z) (c : Coupon.t) : bool :=
  Sql.holds
    (Sql.and (Sql.eq_bool (Coupon.is_expired c) (Some true))
             (Sql.le (Coupon.expired_at c) (Some (now - daysOld * 86400000)))).

(** The body of the cleanup loop, with its own try and catch: the image
    first, then the row. *)
Definition purge (coupon : Coupon.t) : M unit :=
  try_catch
    ((if truthy_opt (Coupon.image_public_id coupon) then
        deleteCloudinaryImage (or_else (Coupon.image_public_id coupon) [])
      else ret tt) ;;;
     external (DeleteCoupon (Coupon.coupon_id coupon))
       (writing (fun w =>
          with_coupons
            (filter (fun c => negb (has_coupon_id (Coupon.coupon_id coupon) c))
                    (coupons w))
            w)))
    (ret tt).

(** [for (const coupon of expiredCoupons) { ... }] *)
Fixpoint purge_all (expiredCoupons : list Coupon.t) : M unit :=
  match expiredCoupons with
  | [] => ret tt
  | coupon :: rest => purge coupon ;;; purge_all rest
  end.

(** [cleanupOldExpiredCoupons(daysOld)] *)
Definition cleanupOldExpiredCoupons (daysOld : Z) : P unit :=
  ptry
    (expiredCoupons <~ perform (SelectOldExpiredCoupons daysOld)
       (on_coupons (fun now cs => (filter (old_expired now daysOld) cs, cs))) ;;
     match expiredCoupons with
     | [] => pret tt
     | _ :: _ => lift (purge_all expiredCoupons)
     end)
    (fun _ => pret tt).

(** [(is_expired = false OR is_expired IS NULL) AND expires_at > NOW()] *)
Definition active (now : Z) (c : Coupon.t) : bool :=
  Sql.holds
    (Sql.and (Sql.or (Sql.eq_bool (Coupon.is_expired c) (Some false))
                     (Sql.is_null (Coupon.is_expired c)))
             (Sql.gt (Coupon.expires_at c) (Some now))).

(** [is_expired = true OR expires_at <= NOW()] *)
Definition counted_expired (now : Z) (c : Coupon.t) : bool :=
  Sql.holds
    (Sql.or (Sql.eq_bool (Coupon.is_expired c) (Some true))
            (Sql.le (Coupon.expires_at c) (Some now))).

(** [ORDER BY created_at DESC], as an insertion sort; the order among
    rows of equal [created_at], which SQL leaves open, is the one this
    sort gives. *)
Fixpoint insert_by_recency (c : Coupon.t) (l : list Coupon.t) : list Coupon.t :=
  match l with
  | [] => [c]
  | x :: l' =>
      if Coupon.created_at x <? Coupon.created_at c
      then c :: l
      else x :: insert_by_recency c l'
  end.

Definition by_recency (l : list Coupon.t) : list Coupon.t :=
  fold_right insert_by_recency [] l.

(** [router.get("/")]: the active coupons. *)
Definition get_active_coupons : P Reply :=
  ptry
    (markExpiredCoupons ~;;
     rows <~ perform SelectActiveCoupons
       (on_coupons (fun now cs =>
          (map (returning now) (by_recency (filter (active now) cs)), cs))) ;;
     reply 200 (CouponList rows))
    (fun _ => reply 500 (Plain (Error (js "Failed to fetch coupons")))).

(** [router.get("/all")] *)
Definition get_all_coupons : P Reply :=
  ptry
    (markExpiredCoupons ~;;
     rows <~ perform SelectAllCoupons
       (on_coupons (fun now cs => (map (returning now) (by_recency cs), cs))) ;;
     reply 200 (CouponList rows))
    (fun _ => reply 500 (Plain (Error (js "Failed to fetch coupons")))).

(** [COUNT(expr)] counts the rows where [expr] is not NULL. *)
Definition count_where (f : Coupon.t -> bool) (cs : list Coupon.t) : Z :=
  Z.of_nat (List.length (filter f cs)).

(** [router.get("/stats/counts")] *)
Definition get_coupon_counts : P Reply :=
  ptry
    (markExpiredCoupons ~;;
     counts <~ perform SelectCouponCounts
       (on_coupons (fun now cs =>
          ((count_where (fun _ => true) cs,
            count_where (active now) cs,
            count_where (counted_expired now) cs), cs))) ;;
     let '(total_coupons, active_coupons, expired_coupons) := counts in
     reply 200 (Counts total_coupons active_coupons expired_coupons))
    (fun _ => reply 500 (Plain (Error (js "Failed to fetch coupon counts")))).

(** [x || null] *)
Definition or_null (a : option jsstring) : option jsstring :=
  or_else_opt a None.

(** The row an INSERT of the values makes: the columns it does not name
    take their defaults (the next id, the current time, no
    [expired_at]). *)
Definition inserted_coupon (id now : Z) (couponId : jsstring) (v : CouponUpdate)
  : Coupon.t :=
  Coupon.mk id (set_brand_name v) couponId (set_bogo v) (set_discount v)
    (set_audience v) (set_duration v) (set_image_url v) (set_image_public_id v)
    (set_expires_at v) (set_is_expired v) None now now.

(** [router.post("/", upload.single("image"), ...)] of the routes with
    expiration. The INSERT violates the UNIQUE constraint of [coupon_id]
    (SQLSTATE 23505) when the id is taken. *)
Definition post_coupon (req_body : CreateCouponRequest)
           (uploadedFile : option UploadedFile) : P Reply :=
  if negb (truthy_opt (brandName req_body)) || negb (truthy_opt (couponId req_body))
     || negb (truthy_opt (audience req_body)) || negb (truthy_opt (duration req_body))
  then
    lift (discard_upload uploadedFile) ~;;
    reply 400 (Plain (Error (js "Missing required fields")))
  else
    ptry
      (now <~ pnow ;;
       let expiresAt := calculateExpirationDate now (or_else (duration req_body) []) in
       let imageUrl := option_map path uploadedFile in
       let imagePublicId := option_map filename uploadedFile in
       let values :=
         mkCouponUpdate (or_else (brandName req_body) [])
           (or_null (bogo req_body)) (or_null (discount req_body))
           (or_else (audience req_body) []) (or_else (duration req_body) [])
           imageUrl imagePublicId (Some expiresAt) (Some false) in
       let id := or_else (couponId req_body) [] in
       rows <~ perform (InsertCoupon id values)
         (fun b =>
            if existsb (has_coupon_id id) (coupons (store b)) then
              inl (PgError (js "23505"))
            else
              let c := inserted_coupon (coupons_id_seq b) (clock (store b)) id values in
              inr ([returning (clock (store b)) c],
                   with_coupons_id_seq (coupons_id_seq b + 1)
                     (with_store
                        (with_coupons (coupons (store b) ++ [c]) (store b)) b))) ;;
       reply 201 (Plain (CouponRow (hd_error rows))))
      (fun err =>
         lift (discard_upload uploadedFile) ~;;
         match err with
         | PgError code =>
             if Js.eqb code (js "23505")
             then reply 400 (Plain (Error (js "Coupon ID already exists")))
             else reply 500 (Plain (Error (js "Failed to create coupon")))
         | OtherError => reply 500 (Plain (Error (js "Failed to create coupon")))
         end).

(** [router.get("/:id")] of the routes with expiration. The row object
    carries the computed [is_expired]; [elapsed] is the time that passes
    between the SELECT and the handler's [new Date()]. *)
Definition get_coupon (elapsed : Z) (id : jsstring) : P Reply :=
  ptry
    (rows <~ perform (SelectCouponWithExpiry id)
       (on_coupons (fun now cs =>
          (map (returning now) (filter (has_coupon_id id) cs), cs))) ;;
     match rows with
     | [] => reply 404 (Plain (Error (js "Coupon not found")))
     | coupon :: _ =>
         elapse elapsed ~;;
         now <~ pnow ;;
         if match Coupon.expires_at (row coupon) with
            | Some e => e <=? now
            | None => false
            end
            && negb (computed_is_expired coupon)
         then
           perform (FlagCouponExpired id)
             (on_coupons (fun now cs =>
                (tt, map (fun c => if has_coupon_id id c
                                   then flag_expired now c else c) cs))) ~;;
           reply 200
             (Plain (CouponRow
                       (Some (mkCouponJson (row coupon) true (ms_remaining coupon)))))
         else reply 200 (Plain (CouponRow (Some coupon)))
     end)
    (fun _ => reply 500 (Plain (Error (js "Failed to fetch coupon")))).

(** [router.post("/mark-expired")] *)
Definition post_mark_expired : P Reply :=
  ptry
    (markExpiredCoupons ~;;
     reply 200 (Plain (Message (js "Expired coupons marked successfully"))))
    (fun _ => reply 500 (Plain (Error (js "Failed to mark expired coupons")))).

(** [req.body.daysOld || 7] on a numeric field. *)
Definition days_or_default (daysOld : option Z) : Z :=
  match daysOld with
  | Some 0 | None => 7
  | Some d => d
  end.

(** The decimal text of an integer, as a template literal prints it. *)
Definition decimal (z : Z) : jsstring :=
  js (DecimalString.NilZero.string_of_int (Z.to_int z)).

(** [router.post("/cleanup-old-expired")]; [daysOld] is
    [req.body.daysOld], an integer when present. *)
Definition post_cleanup_old_expired (daysOld : option Z) : P Reply :=
  ptry
    (let daysOld := days_or_default daysOld in
     cleanupOldExpiredCoupons daysOld ~;;
     reply 200
       (Plain (Message
                 (js "Old expired coupons cleanup completed successfully ("
                  ++ decimal daysOld ++ js " days old)"))))
    (fun _ => reply 500 (Plain (Error (js "Failed to cleanup old expired coupons")))).

(* ================================================================= *)
(** ** The coupon router and its timers, as a machine *)

(** What can happen to the coupon store: a request to one of the routes,
    a tick of one of the two cron schedules, or time passing. *)
Inductive CouponEvent : Type :=
| GetActive
| GetAll
| GetCounts
| PostCoupon (req_body : CreateCouponRequest) (uploadedFile : option UploadedFile)
| PutCoupon (id : jsstring) (req_body : CreateCouponRequest)
            (uploadedFile : option UploadedFile)
| DeleteCouponById (id : jsstring)
| GetCoupon (elapsed : Z) (id : jsstring)
| PostMarkExpired
| PostCleanup (daysOld : option Z)
| CronEveryMinute          (* cron.schedule("* * * * *", markExpiredCoupons) *)
| CronDaily                (* cron.schedule("0 2 * * *", cleanup of 7 days) *)
| TimePasses (ms : Z).

(** The backend after an event. *)
Definition after (e : CouponEvent) (b : Backend) : Backend :=
  match e with
  | GetActive => snd (get_active_coupons b)
  | GetAll => snd (get_all_coupons b)
  | GetCounts => snd (get_coupon_counts b)
  | PostCoupon req_body uploadedFile => snd (post_coupon req_body uploadedFile b)
  | PutCoupon id req_body uploadedFile =>
      snd (lift (put_coupon id req_body uploadedFile) b)
  | DeleteCouponById id => snd (lift (delete_coupon id) b)
  | GetCoupon elapsed id => snd (get_coupon elapsed id b)
  | PostMarkExpired => snd (post_mark_expired b)
  | PostCleanup daysOld => snd (post_cleanup_old_expired daysOld b)
  | CronEveryMinute => snd (markExpiredCoupons b)
  | CronDaily => snd (cleanupOldExpiredCoupons 7 b)
  | TimePasses ms => snd (elapse ms b)
  end.

Definition after_all (events : list CouponEvent) (b : Backend) : Backend :=
  fold_left (fun b e => after e b) events b.

(** Time does not run backwards. *)
Definition forward (e : CouponEvent) : Prop :=
  match e with
  | GetCoupon elapsed _ => 0 <= elapsed
  | TimePasses ms => 0 <= ms
  | _ => True
  end.

(** No coupon id is stored twice. *)
Definition unique_coupon_ids (cs : list Coupon.t) : Prop :=
  NoDup (map Coupon.coupon_id cs).

(** Every coupon flagged as expired has passed its [expires_at]. *)
Definition flagged_are_past (now : Z) (cs : list Coupon.t) : Prop :=
  forall c, In c cs -> Coupon.is_expired c = Some true ->
            exists e, Coupon.expires_at c = Some e /\ e <= now.

(** The table after a sweep at [now]. *)
Definition swept (now : Z) (cs : list Coupon.t) : list Coupon.t :=
  map (fun c => if due now c then flag_expired now c else c) cs.

(** [created_at] does not increase from [a] to [b]. *)
Definition newer_first (a b : Coupon.t) : Prop :=
  Coupon.created_at b <= Coupon.created_at a.

(** The answer of the two lists when their SELECT fails. *)
Definition fetch_failed : Reply :=
  mkReply 500 (Plain (Error (js "Failed to fetch coupons"))).

(** [!brandName || !couponId || !audience || !duration] is false. *)
Definition has_required_fields (req : CreateCouponRequest) : bool :=
  truthy_opt (brandName req) && truthy_opt (couponId req)
  && truthy_opt (audience req) && truthy_opt (duration req).

(** The calls [discard_upload] issues. *)
Definition discard_calls (uploadedFile : option UploadedFile) : list Call :=
  match uploadedFile with
  | Some f => if truthy (filename f) then [CloudinaryDestroy (filename f)] else []
  | None => []
  end.

(** The calls one turn of the cleanup loop issues. *)
Definition purge_calls (c : Coupon.t) : list Call :=
  (if truthy_opt (Coupon.image_public_id c)
   then [CloudinaryDestroy (or_else (Coupon.image_public_id c) [])]
   else [])
  ++ [DeleteCoupon (Coupon.coupon_id c)].

(** How an event can change the coupons table. *)
Inductive step_shape (b b' : Backend) : Prop :=
| Unchanged :
    coupons (store b') = coupons (store b) ->
    step_shape b b'
| Swept :
    coupons (store b') = swept (clock (store b)) (coupons (store b)) ->
    step_shape b b'
| Removed (f : Coupon.t -> bool) :
    coupons (store b') = filter f (coupons (store b)) ->
    step_shape b b'
| Added (c : Coupon.t) :
    coupons (store b') = coupons (store b) ++ [c] ->
    ~ In (Coupon.coupon_id c) (map Coupon.coupon_id (coupons (store b))) ->
    Coupon.is_expired c = Some false ->
    step_shape b b'
| Rewritten (id : jsstring) (f : Coupon.t -> Coupon.t) (c : Coupon.t)
            (rest : list Coupon.t) :
    filter (has_coupon_id id) (coupons (store b)) = c :: rest ->
    coupons (store b')
    = map (fun x => if has_coupon_id id x then f x else x) (coupons (store b)) ->
    (forall x, Coupon.coupon_id (f x) = Coupon.coupon_id x) ->
    (forall x, In x (coupons (store b)) -> has_coupon_id id x = true ->
       Coupon.is_expired (f x) = Some true ->
       (Coupon.is_expired c = Some true
        /\ Coupon.expires_at (f x) = Coupon.expires_at c)
       \/ exists e, Coupon.expires_at (f x) = Some e /\ e <= clock (store b')) ->
    step_shape b b'.

(* ================================================================= *)
(** ** Further capabilities: hashing, token verification, validation *)

Module Signup.
(** The value [signupSchema] validates a signup body to. *)
Record value : Type := mk {
  useremail : jsstring;
  userphone : jsstring;
  password : jsstring;
  confirmPassword : jsstring
}.
End Signup.

Module Mode.
(** The value [verificationModeSchema] validates a body to. *)
Record value : Type := mk {
  emailcheck : option bool;
  phonecheck : option bool
}.
End Mode.

(** - [bcrypt_hash salt plain] is [bcrypt.hash(plain, 10)] with the salt
      it drew;
    - [jwt_verify token] is [jwt.verify] with the configured secret: the
      decoded [{id, email}], or [None] when it throws;
    - the four validators are Joi's [validate] on the four schemas: the
      first error message, or the validated value (for the OTP schema,
      the field [emailotpfield]; for the profile schema, which has no
      picture field, a value without [profilePictureUrl]). *)
Class Libraries : Type := {
  libraries_capabilities :: Capabilities;
  bcrypt_hash : jsstring -> jsstring -> jsstring;
  jwt_verify : jsstring -> option Identity;
  signupSchema_validate : RawBody -> jsstring + Signup.value;
  verificationModeSchema_validate : RawBody -> jsstring + Mode.value;
  otpVerificationSchema_validate : RawBody -> jsstring + jsstring;
  userProfileSchema_validate : RawBody -> jsstring + Input.t
}.

(* ================================================================= *)
(** ** The bearer token of a request *)

(** [s.split(sep)] for a one-unit separator; [cur] is the piece being
    read, reversed. *)
Fixpoint split_from (sep : N) (cur : jsstring) (s : jsstring) : list jsstring :=
  match s with
  | [] => [rev cur]
  | c :: s' =>
      if (c =? sep)%N then rev cur :: split_from sep [] s'
      else split_from sep (c :: cur) s'
  end.

Definition split (sep : N) (s : jsstring) : list jsstring := split_from sep [] s.

(** [req.headers.authorization?.split(" ")[1]] *)
Definition bearer_token (authorization : option jsstring) : option jsstring :=
  match authorization with
  | Some header => nth_error (split 32 header) 1
  | None => None
  end.

(** What a guard hands on: an answer, or the identity for the rest of
    the route. *)
Inductive Guarded : Type :=
| Rejected (r : Response)
| Allowed (user : Identity).

Definition throw {A} : M A := fun w => (Throw, w).

Definition pthrow {A} : P A := fun b => (Thrown OtherError, b).

(* ================================================================= *)
(** ** middlewares/authMiddleware: verifyToken; models/userModel: the rest *)

Section WithLibraries.
Context {libs : Libraries}.

(** [verifyToken]: what it puts in [req.user] comes from the stored row. *)
Definition verifyToken (authorization : option jsstring) : M Guarded :=
  try_catch
    (if negb (truthy_opt (bearer_token authorization)) then
       ret (Rejected (mkResponse 401 (Message (js "No token provided"))))
     else
       match jwt_verify (or_else (bearer_token authorization) []) with
       | None => throw
       | Some decoded =>
           user <- findById (identity_id decoded) ;;
           match user with
           | None => ret (Rejected (mkResponse 404 (Message (js "User not found"))))
           | Some user => ret (Allowed (mkIdentity (User.id user) (User.email user)))
           end
       end)
    (ret (Rejected (mkResponse 401 (Message (js "Invalid or expired token"))))).

(** [UserModel.findByPhone] *)
Definition findByPhone (phone : jsstring) : P (option User.t) :=
  ptry
    (rows <~ perform (SelectUserByPhone phone)
       (fun b => inr (filter (fun u => Js.eqb (User.phone u) phone)
                             (users (store b)), b)) ;;
     pret (hd_error rows))
    (fun _ => pret None).

(** The salt the next [bcrypt.hash] draws. *)
Definition draw_salt : P jsstring :=
  fun b =>
    match salts b with
    | salt :: rest => (Returned salt, with_salts rest b)
    | [] => (Returned [], b)
    end.

(** [UserModel.createUser]: the INSERT names three columns, the others
    take their defaults; it violates a UNIQUE constraint when the e-mail
    or the phone is stored already. *)
Definition createUser (email phone password : jsstring) : P (option User.t) :=
  ptry
    (salt <~ draw_salt ;;
     let hashedPassword := bcrypt_hash salt password in
     rows <~ perform (InsertUser email phone hashedPassword)
       (fun b =>
          if existsb (fun u => Js.eqb (User.email u) email) (users (store b))
             || existsb (fun u => Js.eqb (User.phone u) phone) (users (store b))
          then inl (PgError (js "23505"))
          else
            let now := clock (store b) in
            let u := User.mk (users_id_seq b) email phone hashedPassword
                       false now now in
            inr ([u],
                 with_users_id_seq (users_id_seq b + 1)
                   (with_store (with_users (users (store b) ++ [u]) (store b)) b))) ;;
     pret (hd_error rows))
    (fun _ => pret None).

(* ================================================================= *)
(** ** config/email and utils/otpUtils: sending the code *)

(** [sendEmail]: the transporter's error is logged and swallowed. *)
Definition sendEmail (mail : Mail) : P bool :=
  ptry
    (perform (SendMail mail)
       (fun b => inr (tt, with_outbox (outbox b ++ [mail]) b)) ~;;
     pret true)
    (fun _ => pret false).

(** [sendOTPEmail] *)
Definition sendOTPEmail (email otp : jsstring) : P bool :=
  sendEmail (mkMail email (js "Email Verification OTP") otp).

(* ================================================================= *)
(** ** controllers/authController: the other handlers *)

Definition plain (st : Z) (b : Body) : P Reply := reply st (Plain b).

Definition view (user : User.t) : UserView :=
  mkUserView (User.id user) (User.email user) (User.phone user)
             (User.is_verified user).

(** [AuthController.signup] *)
Definition signup (req_body : RawBody) : P Reply :=
  ptry
    (match signupSchema_validate req_body with
     | inl error_message => plain 400 (Message error_message)
     | inr value =>
         existingEmail <~ lift (findByEmail (Signup.useremail value)) ;;
         match existingEmail with
         | Some _ => plain 205 (Message (js "User with this email already exists"))
         | None =>
             existingPhone <~ findByPhone (Signup.userphone value) ;;
             match existingPhone with
             | Some _ =>
                 plain 205 (Message (js "User with this phone already exists"))
             | None =>
                 user <~ createUser (Signup.useremail value)
                           (Signup.userphone value) (Signup.password value) ;;
                 match user with
                 | None => plain 500 (Message (js "Failed to create user"))
                 | Some user =>
                     now <~ pnow ;;
                     let token :=
                       jwt_sign (User.id user) (User.email user) (js "1d") now in
                     plain 200 (LoginOk (js "Signup successful!") (view user) token)
                 end
             end
         end
     end)
    (fun _ => plain 500 (Message (js "Internal server error"))).

(** The issue of a code, shared by the two handlers below: [otp] is the
    value [generateOTP()] returned. *)
Definition issue_code (user : User.t) (otp : jsstring) (sent_message : jsstring)
  : P Reply :=
  stored <~ lift (storeOTP (User.id user) otp email_type) ;;
  if negb stored then plain 500 (Message (js "Failed to generate OTP"))
  else
    sent <~ sendOTPEmail (User.email user) otp ;;
    if negb sent then plain 500 (Message (js "Failed to send OTP"))
    else plain 200 (Message sent_message).

Definition is_true (b : option bool) : bool :=
  match b with Some true => true | _ => false end.

(** [AuthController.selectVerificationMode]; [otp] is the value
    [generateOTP()] returns when it is called. When neither branch of the
    final [if] is taken the handler sends no answer ([None]). *)
Definition selectVerificationMode (req_body : RawBody)
           (authorization : option jsstring) (otp : jsstring)
  : P (option Reply) :=
  ptry
    (match verificationModeSchema_validate req_body with
     | inl error_message =>
         r <~ plain 400 (Message error_message) ;; pret (Some r)
     | inr value =>
         if negb (is_true (Mode.emailcheck value))
            && negb (is_true (Mode.phonecheck value))
         then
           r <~ plain 400 (Message (js "Please select a verification method")) ;;
           pret (Some r)
         else if negb (truthy_opt (bearer_token authorization)) then
           r <~ plain 401 (Message (js "No token provided")) ;; pret (Some r)
         else
           match jwt_verify (or_else (bearer_token authorization) []) with
           | None => pthrow
           | Some decoded =>
               user <~ lift (findById (identity_id decoded)) ;;
               match user with
               | None =>
                   r <~ plain 404 (Message (js "User not found")) ;; pret (Some r)
               | Some user =>
                   if is_true (Mode.emailcheck value) then
                     r <~ issue_code user otp (js "OTP sent successfully") ;;
                     pret (Some r)
                   else if is_true (Mode.phonecheck value) then
                     r <~ plain 200 (Message (js "Phone verification selected")) ;;
                     pret (Some r)
                   else pret None
               end
           end
     end)
    (fun _ =>
       r <~ plain 500 (Message (js "Internal server error")) ;; pret (Some r)).

(** [AuthController.verifyOTP] *)
Definition AuthController_verifyOTP (req_body : RawBody)
           (authorization : option jsstring) : P Reply :=
  ptry
    (match otpVerificationSchema_validate req_body with
     | inl error_message => plain 400 (Message error_message)
     | inr emailotpfield =>
         if negb (truthy_opt (bearer_token authorization)) then
           plain 401 (Message (js "No token provided"))
         else
           match jwt_verify (or_else (bearer_token authorization) []) with
           | None => pthrow
           | Some decoded =>
               isVerified <~ lift (verifyOTP (identity_id decoded) emailotpfield
                                     email_type) ;;
               if negb isVerified then
                 plain 205 (Message (js "Please enter correct OTP"))
               else
                 now <~ pnow ;;
                 let newToken :=
                   jwt_sign (identity_id decoded) (identity_email decoded)
                            (js "1d") now in
                 reply 200 (MessageToken (js "OTP verified successfully") newToken)
           end
     end)
    (fun _ => plain 500 (Message (js "Internal server error"))).

(** [AuthController.getProfile] *)
Definition getProfile (req_user : option Identity) : P Reply :=
  ptry
    (match req_user with
     | None => plain 401 (Message (js "Unauthorized"))
     | Some req_user =>
         user <~ lift (findById (identity_id req_user)) ;;
         match user with
         | None => plain 404 (Message (js "User not found"))
         | Some user => reply 200 (UserJson (view user) (User.created_at user))
         end
     end)
    (fun _ => plain 500 (Message (js "Internal server error"))).

(** [AuthController.resendOTP]; [otp] is the value [generateOTP()]
    returns. *)
Definition resendOTP (req_user : option Identity) (otp : jsstring) : P Reply :=
  ptry
    (match req_user with
     | None => plain 401 (Message (js "Unauthorized"))
     | Some req_user =>
         user <~ lift (findById (identity_id req_user)) ;;
         match user with
         | None => plain 404 (Message (js "User not found"))
         | Some user => issue_code user otp (js "OTP resent successfully")
         end
     end)
    (fun _ => plain 500 (Message (js "Internal server error"))).

End WithLibraries.

(* ================================================================= *)
(** ** routes/authRoutes: guards in front of handlers *)

Section Routes.
Context {libs : Libraries}.

Definition as_reply (r : Response) : Reply := mkReply (status r) (Plain (body r)).

(** [router.post(path, verifyToken, handler)]: the handler runs only when
    the guard called [next()], with [req.user] set. *)
Definition guarded {A} (authorization : option jsstring)
           (rejected : Reply -> A) (handler : Identity -> P A) : P A :=
  g <~ lift (verifyToken authorization) ;;
  match g with
  | Rejected r => pret (rejected (as_reply r))
  | Allowed user => handler user
  end.

(** [router.post("/verify-mode", verifyToken, selectVerificationMode)] *)
Definition route_verify_mode (req_body : RawBody)
           (authorization : option jsstring) (otp : jsstring) : P (option Reply) :=
  guarded authorization Some
    (fun _ => selectVerificationMode req_body authorization otp).

(** [router.post("/verify-otp", verifyToken, AuthController.verifyOTP)] *)
Definition route_verify_otp (req_body : RawBody)
           (authorization : option jsstring) : P Reply :=
  guarded authorization (fun r => r)
    (fun _ => AuthController_verifyOTP req_body authorization).

(** [router.post("/resend-otp", verifyToken, AuthController.resendOTP)] *)
Definition route_resend_otp (authorization : option jsstring) (otp : jsstring)
  : P Reply :=
  guarded authorization (fun r => r) (fun user => resendOTP (Some user) otp).

End Routes.

(** A stored row has the e-mail, or the phone. *)
Definition email_taken (email : jsstring) (us : list User.t) : bool :=
  existsb (fun u => Js.eqb (User.email u) email) us.

Definition phone_taken (phone : jsstring) (us : list User.t) : bool :=
  existsb (fun u => Js.eqb (User.phone u) phone) us.

(** No e-mail and no phone is stored twice. *)
Definition unique_accounts (us : list User.t) : Prop :=
  NoDup (map User.email us) /\ NoDup (map User.phone us).

(* ================================================================= *)
(** ** models/UserProfileModel: create, find, update, delete *)

(** [mapToUserProfile]: the columns under their camel-case names, an
    empty middle name becoming [undefined]. *)
Definition mapToUserProfile (row : Profile.t) : Profile.t :=
  Profile.mk (Profile.id row) (Profile.user_id row) (Profile.email row)
    (Profile.phone_number row) (Profile.first_name row)
    (or_null (Profile.middle_name row)) (Profile.last_name row)
    (Profile.gender row) (Profile.house_no row) (Profile.city_town_village row)
    (Profile.district row) (Profile.state row) (Profile.country row)
    (Profile.profile_picture_url row) (Profile.created_at row)
    (Profile.updated_at row).

Definition of_user (userId : Z) (p : Profile.t) : bool := Profile.user_id p =? userId.

(** A statement on the profiles table that cannot violate a constraint. *)
Definition on_profiles {A} (f : Z -> list Profile.t -> A * list Profile.t)
  : Backend -> Err + A * Backend :=
  fun b =>
    let (a, ps) := f (clock (store b)) (users_profiles (store b)) in
    inr (a, with_store (with_users_profiles ps (store b)) b).

(** [UserProfileModel.findByUserId] *)
Definition findByUserId (userId : Z) : P (option Profile.t) :=
  ptry
    (rows <~ perform (SelectProfile userId)
       (on_profiles (fun _ ps => (filter (of_user userId) ps, ps))) ;;
     pret (option_map mapToUserProfile (hd_error rows)))
    (fun _ => pret None).

(** The row an INSERT of a profile makes. *)
Definition inserted_profile (id now userId : Z) (email phone : jsstring)
           (d : Input.t) : Profile.t :=
  Profile.mk id userId email phone (Input.firstName d)
    (or_null (Input.middleName d)) (Input.lastName d) (Input.gender d)
    (Input.houseNo d) (Input.cityTownVillage d) (Input.district d)
    (Input.state d) (Input.country d) (or_null (Input.profilePictureUrl d))
    now now.

(** [UserProfileModel.createUserProfile]: the INSERT violates the UNIQUE
    constraint of [user_id] (23505) when the user has a profile, and a
    foreign key (23503) when no user row has the id, the e-mail and the
    phone. *)
Definition createUserProfile (userId : Z) (profileData : Input.t)
  : P (option Profile.t) :=
  ptry
    (user <~ lift (findById userId) ;;
     match user with
     | None => pthrow
     | Some user =>
         rows <~ perform (InsertProfile userId (User.email user) (User.phone user)
                            profileData)
           (fun b =>
              if existsb (of_user userId) (users_profiles (store b)) then
                inl (PgError (js "23505"))
              else if negb (existsb (fun u => User.id u =? userId) (users (store b))
                            && existsb (fun u => Js.eqb (User.email u) (User.email user))
                                       (users (store b))
                            && existsb (fun u => Js.eqb (User.phone u) (User.phone user))
                                       (users (store b)))
              then inl (PgError (js "23503"))
              else
                let row := inserted_profile (profiles_id_seq b) (clock (store b))
                             userId (User.email user) (User.phone user)
                             profileData in
                inr ([row],
                     with_profiles_id_seq (profiles_id_seq b + 1)
                       (with_store
                          (with_users_profiles (users_profiles (store b) ++ [row])
                             (store b)) b))) ;;
         pret (option_map mapToUserProfile (hd_error rows))
     end)
    (fun _ => pret None).

Definition set_opt {A} (new : option A) (old : A) : A :=
  match new with Some v => v | None => old end.

(** [SET column = $n, ..., updated_at = NOW()] for the fields the object
    has. *)
Definition patched (now : Z) (d : Patch.t) (p : Profile.t) : Profile.t :=
  Profile.mk (Profile.id p) (Profile.user_id p) (Profile.email p)
    (Profile.phone_number p)
    (set_opt (Patch.firstName d) (Profile.first_name p))
    (match Patch.middleName d with
     | Some v => Some v
     | None => Profile.middle_name p
     end)
    (set_opt (Patch.lastName d) (Profile.last_name p))
    (set_opt (Patch.gender d) (Profile.gender p))
    (set_opt (Patch.houseNo d) (Profile.house_no p))
    (set_opt (Patch.cityTownVillage d) (Profile.city_town_village p))
    (set_opt (Patch.district d) (Profile.district p))
    (set_opt (Patch.state d) (Profile.state p))
    (set_opt (Patch.country d) (Profile.country p))
    (match Patch.profilePictureUrl d with
     | Some v => Some v
     | None => Profile.profile_picture_url p
     end)
    (Profile.created_at p) now.

(** [setClauses.length === 1]: the object has none of the ten fields. *)
Definition no_field (d : Patch.t) : bool :=
  match Patch.firstName d, Patch.middleName d, Patch.lastName d, Patch.gender d,
        Patch.houseNo d, Patch.cityTownVillage d, Patch.district d,
        Patch.state d, Patch.country d, Patch.profilePictureUrl d with
  | None, None, None, None, None, None, None, None, None, None => true
  | _, _, _, _, _, _, _, _, _, _ => false
  end.

(** [UserProfileModel.updateUserProfile] *)
Definition updateUserProfile (userId : Z) (profileData : Patch.t)
  : P (option Profile.t) :=
  ptry
    (if no_field profileData then findByUserId userId
     else
       rows <~ perform (UpdateProfile userId profileData)
         (on_profiles (fun now ps =>
            let updated :=
              map (fun p => if of_user userId p then patched now profileData p else p)
                  ps in
            (filter (of_user userId) updated, updated))) ;;
       pret (option_map mapToUserProfile (hd_error rows)))
    (fun _ => pret None).

(** [UserProfileModel.deleteUserProfile] *)
Definition model_deleteUserProfile (userId : Z) : P bool :=
  ptry
    (rows <~ perform (DeleteProfile userId)
       (on_profiles (fun _ ps =>
          (filter (of_user userId) ps,
           filter (fun p => negb (of_user userId p)) ps))) ;;
     pret (0 <? Z.of_nat (List.length rows)))
    (fun _ => pret false).

(* ================================================================= *)
(** ** controllers/UserProfileController: save and delete *)

Section ProfileControllers.
Context {libs : Libraries}.

(** The validated body as the [Partial] the update receives: every field
    of the schema that the value has. *)
Definition as_patch (value : Input.t) : Patch.t :=
  Patch.mk (Some (Input.firstName value)) (Input.middleName value)
    (Some (Input.lastName value)) (Some (Input.gender value))
    (Some (Input.houseNo value)) (Some (Input.cityTownVillage value))
    (Some (Input.district value)) (Some (Input.state value))
    (Some (Input.country value)) (Input.profilePictureUrl value).

(** [UserProfileController.saveUserProfile] *)
Definition saveUserProfile (req_user : option Identity) (req_body : RawBody)
  : P Reply :=
  ptry
    (match req_user with
     | None => plain 401 (Message (js "Unauthorized"))
     | Some req_user =>
         match userProfileSchema_validate req_body with
         | inl error_message => plain 400 (Message error_message)
         | inr value =>
             user <~ lift (findById (identity_id req_user)) ;;
             match user with
             | None => plain 404 (Message (js "User not found"))
             | Some _ =>
                 existingProfile <~ findByUserId (identity_id req_user) ;;
                 saved <~
                   match existingProfile with
                   | Some _ =>
                       profile <~ updateUserProfile (identity_id req_user)
                                    (as_patch value) ;;
                       pret (option_map (fun _ => tt) profile,
                             js "Failed to update profile")
                   | None =>
                       profile <~ createUserProfile (identity_id req_user) value ;;
                       pret (option_map (fun _ => tt) profile,
                             js "Failed to create profile")
                   end ;;
                 match saved with
                 | (None, failure) => plain 500 (Message failure)
                 | (Some _, _) =>
                     completeProfile <~
                       lift (getCompleteUserProfile (identity_id req_user)) ;;
                     plain 200
                       (MessageProfile (js "Profile saved successfully")
                          completeProfile)
                 end
             end
         end
     end)
    (fun _ => plain 500 (Message (js "Internal server error"))).

(** [UserProfileController.deleteUserProfile] *)
Definition deleteUserProfile (req_user : option Identity) : P Reply :=
  ptry
    (match req_user with
     | None => plain 401 (Message (js "Unauthorized"))
     | Some req_user =>
         deleted <~ model_deleteUserProfile (identity_id req_user) ;;
         if negb deleted then
           plain 404 (Message (js "Profile not found or already deleted"))
         else plain 200 (Message (js "Profile deleted successfully"))
     end)
    (fun _ => plain 500 (Message (js "Internal server error"))).

End ProfileControllers.

(** No user has two profiles. *)
Definition one_profile_per_user (ps : list Profile.t) : Prop :=
  NoDup (map Profile.user_id ps).

(* ================================================================= *)
(** ** Sample data for the further code *)

(** Request bodies of the stand-in libraries: one kind per schema. *)
Inductive DemoBody : Type :=
| LoginBody (v : LoginValue)
| SignupBody (v : Signup.value)
| ModeBody (v : Mode.value)
| OtpBody (emailotpfield : jsstring)
| ProfileBody (v : Input.t).

(** Stand-ins for the libraries, as [demo_capabilities], over the bodies
    above: a validator accepts the bodies of its schema; the tokens that
    verify are those signed for alice and for bob with a lifetime of one
    day. *)
Definition demo_libraries : Libraries := {|
  libraries_capabilities := {|
    RawBody := DemoBody;
    bcrypt_compare := fun plain hashed => Js.eqb hashed (js "$2b$" ++ plain);
    jwt_sign := fun _ email expiresIn _ => email ++ js "." ++ expiresIn;
    loginSchema_validate := fun b =>
      match b with
      | LoginBody v => inr v
      | _ => inl (js "useremail is required")
      end;
    otpExpiryMinutes := 10;
    zoneLag := 0
  |};
  bcrypt_hash := fun _ plain => js "$2b$" ++ plain;
  jwt_verify := fun token =>
    if Js.eqb token (js "alice@example.com.1d")
    then Some (mkIdentity 1 (js "alice@example.com"))
    else if Js.eqb token (js "bob@example.com.1d")
    then Some (mkIdentity 2 (js "bob@example.com"))
    else None;
  signupSchema_validate := fun b =>
    match b with
    | SignupBody v => inr v
    | _ => inl (js "useremail is required")
    end;
  verificationModeSchema_validate := fun b =>
    match b with
    | ModeBody v => inr v
    | _ => inl (js "emailcheck must be a boolean")
    end;
  otpVerificationSchema_validate := fun b =>
    match b with
    | OtpBody code => inr code
    | _ => inl (js "emailotpfield is required")
    end;
  userProfileSchema_validate := fun b =>
    match b with
    | ProfileBody v => inr v
    | _ => inl (js "firstName is required")
    end
|}.

(** [sample_world] behind the further state: the sequences past the
    stored rows, one salt to draw, nothing sent. *)
Definition sample_backend : Backend :=
  mkBackend sample_world 3 2 1 [js "salt"] [] [].

Definition winter_request : CreateCouponRequest :=
  mkCreateCouponRequest (Some (js "Acme")) (Some (js "WINTER")) None
    (Some (js "20%")) (Some (js "all")) (Some (js "2hrs")).

Definition summer_again : CreateCouponRequest :=
  mkCreateCouponRequest (Some (js "Acme")) (Some (js "SUMMER")) None
    (Some (js "20%")) (Some (js "all")) (Some (js "2hrs")).

Definition nameless_request : CreateCouponRequest :=
  mkCreateCouponRequest None (Some (js "WINTER")) None
    (Some (js "20%")) (Some (js "all")) (Some (js "2hrs")).

Definition blank_request : CreateCouponRequest :=
  mkCreateCouponRequest None None None None None None.

Definition winter_file : UploadedFile :=
  mkUploadedFile (js "https://img/winter.png") (js "coupons/WINTER_1").

(** A coupon that expires in a while, in a backend of its own. *)
Definition spring_coupon : Coupon.t :=
  Coupon.mk 2 (js "Acme") (js "SPRING") None (Some (js "5%")) (js "all")
    (js "1hr") (Some (js "https://img/spring.png")) (Some (js "coupons/SPRING_1"))
    (Some 3650000) (Some false) None 50000 50000.

Definition spring_backend : Backend :=
  mkBackend
    (mkWorld [alice; bob] [] [] [summer_coupon; spring_coupon]
             [js "coupons/SUMMER_1"; js "coupons/SPRING_1"] 2 100000 [] [])
    3 3 1 [js "salt"] [] [].

Definition carol_signup : Signup.value :=
  Signup.mk (js "carol@example.com") (js "5550003") (js "secret") (js "secret").

Definition alice_profile : Input.t :=
  Input.mk (js "Alice") (Some []) (js "Liddell") (js "female") 4 (js "Oxford")
    (js "Oxfordshire") (js "England") (js "UK") None.

Definition alice_profile_moved : Input.t :=
  Input.mk (js "Alice") (Some []) (js "Liddell") (js "female") 7 (js "London")
    (js "London") (js "England") (js "UK") None.

(* ================================================================= *)
(** * Properties *)

(** ** JavaScript strings *)

Lemma js_eqb_eq a b : Js.eqb a b = true <-> a = b.
Proof. unfold Js.eqb. destruct (list_eq_dec N.eq_dec a b); split; congruence. Qed.

Lemma js_eqb_refl a : Js.eqb a a = true.
Proof. now apply js_eqb_eq. Qed.

Lemma js_eqb_neq a b : Js.eqb a b = false <-> a <> b.
Proof. unfold Js.eqb. destruct (list_eq_dec N.eq_dec a b); split; congruence. Qed.

(** ** The matcher *)

Section MatcherFacts.
Context {R : Type}.

(** A successful repetition consumed a run of the class and handed the
    rest to the continuation. *)
Lemma star_match_some (p : N -> bool) (k : jsstring -> option R) :
  forall s x, star_match p s k = Some x ->
    exists run rest, s = run ++ rest /\ forallb p run = true /\ k rest = Some x.
Proof.
  induction s as [|c s IH]; intros x H; simpl in H.
  - exists [], []. auto.
  - destruct (p c) eqn:Hp.
    + destruct (star_match p s k) as [y|] eqn:Hs.
      * inversion H; subst y.
        destruct (IH x eq_refl) as (run & rest & -> & Hrun & Hk).
        exists (c :: run), rest. simpl. rewrite Hp, Hrun. auto.
      * exists [], (c :: s). auto.
    + exists [], (c :: s). auto.
Qed.

(** The continuation of a repetition is only ever tried on a suffix. *)
Lemma star_match_none (p : N -> bool) (k : jsstring -> option R) :
  forall s, (forall n, k (skipn n s) = None) -> star_match p s k = None.
Proof.
  induction s as [|c s IH]; intros H; simpl.
  - exact (H 0%nat).
  - assert (H0 : k (c :: s) = None) by exact (H 0%nat).
    destruct (p c); auto.
    rewrite IH; auto. intro n. exact (H (S n)).
Qed.
End MatcherFacts.

Lemma digit_before_cons l1 l2 c d :
  digit_before l1 l2 d = true -> digit_before l1 l2 (c :: d) = true.
Proof.
  intro H. destruct d as [|x [|y d]]; try discriminate H.
  change (digit_before l1 l2 (c :: x :: y :: d))
    with ((is_digit c && ci l1 x && ci l2 y) || digit_before l1 l2 (x :: y :: d)).
  rewrite H. apply orb_true_r.
Qed.

Lemma digit_before_run l1 l2 x y rest :
  ci l1 x = true -> ci l2 y = true ->
  forall run c, forallb is_digit (c :: run) = true ->
    digit_before l1 l2 ((c :: run) ++ x :: y :: rest) = true.
Proof.
  intros Hx Hy. induction run as [|b run IH]; intros c H; simpl in H.
  - apply andb_prop in H as [Hc _]. simpl. rewrite Hc, Hx, Hy. reflexivity.
  - apply andb_prop in H as [Hc H].
    change ((c :: b :: run) ++ x :: y :: rest)
      with (c :: (b :: run) ++ x :: y :: rest).
    apply digit_before_cons, IH. exact H.
Qed.

Lemma digit_before_tail l1 l2 c d :
  digit_before l1 l2 (c :: d) = false -> digit_before l1 l2 d = false.
Proof.
  simpl. destruct d as [|x [|y d]]; auto.
  intro H. apply orb_false_elim in H as [_ H]. exact H.
Qed.

(** Two letters at the head of the input. *)
Lemma letters_some {R} l1 l2 r s c (k : jsstring -> captures -> option R) x :
  rmatch (Cat (Cls (ci l1)) (Cat (Cls (ci l2)) r)) s c k = Some x ->
  exists a b rest, s = a :: b :: rest /\ ci l1 a = true /\ ci l2 b = true.
Proof.
  cbn [rmatch]. destruct s as [|a [|b rest]]; try discriminate.
  - destruct (ci l1 a); discriminate.
  - destruct (ci l1 a) eqn:Ha; [|discriminate].
    destruct (ci l2 b) eqn:Hb; [|discriminate].
    intros _. now exists a, b, rest.
Qed.

(** Digits, then the two letters: a match here shows the shape. *)
Lemma digits_letters_some {R} n l1 l2 s c (K : jsstring -> captures -> option R) x :
  (forall s1 c1 y, K s1 c1 = Some y ->
     exists a b rest, s1 = a :: b :: rest /\ ci l1 a = true /\ ci l2 b = true) ->
  rmatch (digits n) s c K = Some x ->
  digit_before l1 l2 s = true.
Proof.
  intros HK. unfold digits. cbn [rmatch].
  destruct s as [|d s]; [discriminate|].
  destruct (is_digit d) eqn:Hd; [|discriminate].
  intro H. apply star_match_some in H as (run & rest & -> & Hrun & H).
  apply HK in H as (a & b & rest' & -> & Ha & Hb).
  apply (digit_before_run l1 l2 a b rest' Ha Hb run d).
  simpl. now rewrite Hd, Hrun.
Qed.

Lemma duration_re_at_some {R} s c (k : jsstring -> captures -> option R) x :
  rmatch duration_re s c k = Some x ->
  digit_before "h" "r" s = true \/ digit_before "m" "i" s = true.
Proof.
  unfold duration_re. cbn [rmatch]. intro H.
  match type of H with
  | match ?a with _ => _ end = _ => destruct a eqn:E1
  end.
  - left. eapply digits_letters_some; [|exact E1].
    intros s1 c1 y. unfold hrs. apply letters_some.
  - match type of H with
    | match ?a with _ => _ end = _ => destruct a eqn:E2
    end.
    + left. eapply digits_letters_some; [|exact E2].
      intros s1 c1 y. unfold hrs. apply letters_some.
    + right. eapply digits_letters_some; [|exact H].
      intros s1 c1 y. unfold min_. apply letters_some.
Qed.

Lemma exec_duration_none d :
  digit_before "h" "r" d = false -> digit_before "m" "i" d = false ->
  exec duration_re d = None.
Proof.
  induction d as [|c d IH]; intros Hh Hm.
  - reflexivity.
  - cbn [exec].
    destruct (rmatch duration_re (c :: d) no_captures (fun _ c0 => Some c0)) eqn:E.
    + apply duration_re_at_some in E as [E|E]; congruence.
    + apply IH; eapply digit_before_tail; eassumption.
Qed.

(** Conversely, the pattern finds every such place: the two lemmas
    together say that [duration_re] fails exactly on the texts without a
    digit immediately before "hr" or "mi". *)
Lemma ci_h_not_digit x : ci "h" x = true -> is_digit x = false.
Proof.
  unfold ci, is_digit. simpl. intro H. apply orb_prop in H as [H|H];
    apply N.eqb_eq in H; subst x; reflexivity.
Qed.

Lemma ci_m_not_digit x : ci "m" x = true -> is_digit x = false.
Proof.
  unfold ci, is_digit. simpl. intro H. apply orb_prop in H as [H|H];
    apply N.eqb_eq in H; subst x; reflexivity.
Qed.

Lemma digits_letters_here n l1 l2 l3 c x y rest caps :
  is_digit c = true -> is_digit x = false ->
  ci l1 x = true -> ci l2 y = true ->
  exists m,
    rmatch (Cat (digits n) (Cat (Cls (ci l1)) (Cat (Cls (ci l2)) (Opt (Cls (ci l3))))))
      (c :: x :: y :: rest) caps (fun _ m => Some m) = Some m.
Proof.
  intros Hc Hx H1 H2. unfold digits. cbn [rmatch star_match].
  rewrite Hc, Hx, H1, H2.
  destruct rest as [|z rest]; [eauto|].
  destruct (ci l3 z); eauto.
Qed.

Lemma duration_re_here c x y rest :
  is_digit c = true ->
  (ci "h" x = true /\ ci "r" y = true) \/ (ci "m" x = true /\ ci "i" y = true) ->
  exists m, rmatch duration_re (c :: x :: y :: rest) no_captures
              (fun _ m => Some m) = Some m.
Proof.
  intros Hc H. unfold duration_re. cbn [rmatch].
  match goal with
  | |- exists m, match ?a with _ => _ end = _ => destruct a; [eauto|]
  end.
  match goal with
  | |- exists m, match ?a with _ => _ end = _ => destruct a eqn:E2; [eauto|]
  end.
  destruct H as [[Hx Hy]|[Hx Hy]].
  - destruct (digits_letters_here 3 "h" "r" "s" c x y rest no_captures
                Hc (ci_h_not_digit x Hx) Hx Hy) as [m Hm].
    unfold hrs in E2. cbn [rmatch] in E2, Hm. congruence.
  - destruct (digits_letters_here 4 "m" "i" "n" c x y rest no_captures
                Hc (ci_m_not_digit x Hx) Hx Hy) as [m Hm].
    unfold min_. cbn [rmatch] in Hm |- *. eauto.
Qed.

Lemma exec_duration_some d :
  digit_before "h" "r" d = true \/ digit_before "m" "i" d = true ->
  exists m, exec duration_re d = Some m.
Proof.
  induction d as [|c d IH]; intro H.
  - destruct H; discriminate.
  - cbn [exec].
    destruct (rmatch duration_re (c :: d) no_captures (fun _ c0 => Some c0)) eqn:E;
      [eauto|].
    destruct d as [|x [|y rest]]; try (destruct H; discriminate).
    assert (Hhere : is_digit c = true /\
                    ((ci "h" x = true /\ ci "r" y = true)
                     \/ (ci "m" x = true /\ ci "i" y = true))
                    \/ (digit_before "h" "r" (x :: y :: rest) = true
                        \/ digit_before "m" "i" (x :: y :: rest) = true)).
    { destruct H as [H|H];
        change (digit_before ?a ?b (c :: x :: y :: rest))
          with ((is_digit c && ci a x && ci b y)
                || digit_before a b (x :: y :: rest)) in H;
        apply orb_prop in H as [H|H]; auto;
        apply andb_prop in H as [H Hy]; apply andb_prop in H as [Hc Hx]; auto. }
    destruct Hhere as [[Hc Hl]|Hlater].
    + destruct (duration_re_here c x y rest Hc Hl) as [m Hm]. congruence.
    + apply IH, Hlater.
Qed.

Theorem duration_re_fails_iff d :
  exec duration_re d = None <->
  digit_before "h" "r" d = false /\ digit_before "m" "i" d = false.
Proof.
  split.
  - intro H.
    destruct (digit_before "h" "r" d) eqn:Eh.
    + destruct (exec_duration_some d (or_introl Eh)). congruence.
    + destruct (digit_before "m" "i" d) eqn:Em; auto.
      destruct (exec_duration_some d (or_intror Em)). congruence.
  - intros [Hh Hm]. now apply exec_duration_none.
Qed.

(** ** Duration parsing *)

Example totalMinutes_2hrs_30min : totalMinutes (js "2hrs 30min") = 150.
Proof. vm_compute. reflexivity. Qed.

Example totalMinutes_45min : totalMinutes (js "45min") = 45.
Proof. vm_compute. reflexivity. Qed.

Example totalMinutes_upper_case : totalMinutes (js "x 1HR  05MINS") = 65.
Proof. vm_compute. reflexivity. Qed.

Example totalMinutes_hours_only : totalMinutes (js "3hrs") = 180.
Proof. vm_compute. reflexivity. Qed.

Example totalMinutes_words : totalMinutes (js "2 hours") = 0.
Proof. vm_compute. reflexivity. Qed.

Lemma totalMinutes_no_match d :
  exec duration_re d = None -> totalMinutes d = 0.
Proof. unfold totalMinutes. now intros ->. Qed.

(** C1 as the specification states it fails: "5mi" has none of the three
    shapes "<N>hrs <N>min", "<N>hrs", "<N>min" (however generously they
    are read), yet the pattern [(\d+)min?] accepts it and the coupon gets
    five minutes, not zero. *)
Lemma C1_counterexample_5mi :
  matches_spec_shape (js "5mi") = false /\
  calculateExpirationDate 0 (js "5mi") = 5 * 60000 /\
  calculateExpirationDate 0 (js "5mi") <> 0.
Proof. vm_compute. repeat split; discriminate. Qed.

(** C1 (amended): created at time T, the duration "2hrs 30min" expires at
    T plus 150 minutes and "45min" at T plus 45 minutes; a duration in
    which no decimal digit is immediately followed by "hr" or by "mi"
    (in either case) expires at T. *)
Theorem C1_duration_to_expiry (T : Z) :
  calculateExpirationDate T (js "2hrs 30min") = T + 150 * 60000 /\
  calculateExpirationDate T (js "45min") = T + 45 * 60000 /\
  (forall d : jsstring,
      digit_before "h" "r" d = false ->
      digit_before "m" "i" d = false ->
      calculateExpirationDate T d = T).
Proof.
  unfold calculateExpirationDate. split; [|split].
  - now rewrite totalMinutes_2hrs_30min.
  - now rewrite totalMinutes_45min.
  - intros d Hh Hm.
    rewrite (totalMinutes_no_match d (exec_duration_none d Hh Hm)). lia.
Qed.

Lemma C1_duration_to_expiry_witness :
  calculateExpirationDate 1700000000000 (js "2 hours") = 1700000000000.
Proof.
  apply (proj2 (proj2 (C1_duration_to_expiry 1700000000000))); reflexivity.
Defined.

(** ** The OTP ledger *)

Lemma filter_none_left {A} (f : A -> bool) (l : list A) :
  filter f (filter (fun r => negb (f r)) l) = [].
Proof.
  induction l as [|a l IH]; simpl; auto.
  destruct (f a) eqn:E; simpl; auto. now rewrite E.
Qed.

Lemma otp_matches_refl i u o t e c :
  otp_matches u t (Otp.mk i u o t e c) = true.
Proof. unfold otp_matches. simpl. rewrite Z.eqb_refl. now destruct t. Qed.

Ltac run :=
  unfold deleteOtpCodes, insertOtpCode;
  unfold try_catch, bind, external, new_Date, ret, json, writing, reading; simpl.

Section OtpFacts.
Context {caps : Capabilities}.

(** [storeOTP] never lets an exception out. *)
Lemma storeOTP_returns userId otp type w :
  exists b w', storeOTP userId otp type w = (Ok b, w').
Proof.
  destruct w as [us os ps cs im sq ck fl tr].
  unfold storeOTP. run.
  destruct fl as [|[] [|[] l]]; simpl; eauto.
Qed.

(** When neither statement throws, the issuance completes. *)
Lemma storeOTP_completes userId otp type w :
  faults w = [] -> exists w', storeOTP userId otp type w = (Ok true, w').
Proof.
  destruct w as [us os ps cs im sq ck fl tr]. simpl. intros ->.
  unfold storeOTP. run. eauto.
Qed.

(** [storeOTP] is its call, resumed twice with nothing in between. *)
Lemma storeOTP_uninterrupted userId otp type w :
  storeOTP userId otp type w
  = (call <- storeOTP_called userId otp type ;;
     call <- resume call ;;
     call <- resume call ;;
     ret (match call with Settled result => result | _ => false end)) w.
Proof.
  destruct w as [us os ps cs im sq ck fl tr].
  unfold storeOTP, storeOTP_called, resume. run.
  destruct fl as [|[] [|[] l]]; reflexivity.
Qed.

(** A call that ran alone and completed: the rows of the pair are gone,
    the new row is there. *)
Lemma storeOTP_alone userId otp type w w' :
  storeOTP userId otp type w = (Ok true, w') ->
  let expiresAt := clock w + otpExpiryMinutes * 60000 in
  let fresh := Otp.mk (otp_seq w) userId otp type (expiresAt + zoneLag) (clock w) in
  filter (otp_matches userId type) (otp_codes w') = [fresh] /\
  otp_codes w'
    = filter (fun r => negb (otp_matches userId type r)) (otp_codes w) ++ [fresh] /\
  trace w' = trace w ++ [DeleteOtp userId type; InsertOtp userId otp type expiresAt].
Proof.
  destruct w as [us os ps cs im sq ck fl tr].
  unfold storeOTP. run.
  assert (F : forall l e, filter (otp_matches userId type)
            (filter (fun r => negb (otp_matches userId type r)) l
             ++ [Otp.mk sq userId otp type e ck])
          = [Otp.mk sq userId otp type e ck]).
  { intros l e. rewrite filter_app, filter_none_left. simpl.
    now rewrite otp_matches_refl. }
  destruct fl as [|[] [|[] l]]; simpl; intro H; inversion H; subst; simpl;
    rewrite F, <- app_assoc; simpl; auto.
Qed.

(** What one resumed statement does. *)
Lemma resume_step call w :
  exists call' w',
    resume call w = (Ok call', w')
    /\ match call with
       | AtDelete u o t e =>
           trace w' = trace w ++ [DeleteOtp u t]
           /\ ((call' = Settled false /\ otp_codes w' = otp_codes w)
               \/ (call' = AtInsert u o t e
                   /\ otp_codes w'
                      = filter (fun r => negb (otp_matches u t r)) (otp_codes w)))
       | AtInsert u o t e =>
           trace w' = trace w ++ [InsertOtp u o t e]
           /\ ((call' = Settled false /\ otp_codes w' = otp_codes w)
               \/ (call' = Settled true
                   /\ otp_codes w'
                      = otp_codes w
                        ++ [Otp.mk (otp_seq w) u o t (e + zoneLag) (clock w)]))
       | Settled result => call' = Settled result /\ w' = w
       end.
Proof.
  destruct w as [us os ps cs im sq ck fl tr].
  destruct call as [u o t e|u o t e|result]; unfold resume; run.
  - destruct fl as [|[] l]; simpl; eexists; eexists; (split; [reflexivity|]);
      simpl; split; auto.
  - destruct fl as [|[] l]; simpl; eexists; eexists; (split; [reflexivity|]);
      simpl; split; auto.
  - eexists. eexists. split; [reflexivity|]. split; reflexivity.
Qed.

Lemma calls_since_app w w' seg :
  trace w' = trace w ++ seg -> calls_since w w' = seg.
Proof.
  unfold calls_since. intros ->.
  induction (trace w) as [|c l IH]; simpl; auto.
Qed.

Lemma filter_pair_deleted u0 t0 u t (l : list Otp.t) :
  filter (otp_matches u0 t0) l = [] ->
  filter (otp_matches u0 t0) (filter (fun r => negb (otp_matches u t r)) l) = [].
Proof.
  induction l as [|a l IH]; simpl; auto.
  destruct (otp_matches u0 t0 a) eqn:E; [discriminate|].
  intro H. destruct (otp_matches u t a); simpl; rewrite ?E; auto.
Qed.

Lemma otp_matches_pair u0 t0 i u o t e c :
  otp_matches u0 t0 (Otp.mk i u o t e c) = true -> u = u0 /\ t = t0.
Proof.
  unfold otp_matches. simpl. intro H. apply andb_prop in H as [Hu Ht].
  apply Z.eqb_eq in Hu. split; [exact Hu|]. now destruct t, t0.
Qed.

(** Statements of other calls, none of them an INSERT for the pair,
    leave the pair without a row if it had none. *)
Lemma interleave_without_insert u0 t0 schedule :
  forall calls w,
  exists calls' w' seg,
    interleave schedule calls w = (Ok calls', w')
    /\ trace w' = trace w ++ seg
    /\ (filter (otp_matches u0 t0) (otp_codes w) = [] ->
        (forall o e, ~ In (InsertOtp u0 o t0 e) seg) ->
        filter (otp_matches u0 t0) (otp_codes w') = []).
Proof.
  induction schedule as [|n schedule IH]; intros calls w; simpl.
  - exists calls, w, []. split; [reflexivity|]. split; [now rewrite app_nil_r|].
    auto.
  - destruct (nth_error calls n) as [call|]; [|apply IH].
    destruct (resume_step call w) as (call' & w1 & Hr & Hstep).
    destruct (IH (set_nth n call' calls) w1) as (calls' & w' & seg & Hi & Ht & Hk).
    unfold bind at 1. rewrite Hr.
    destruct call as [u o t e|u o t e|result].
    + destruct Hstep as (Ht1 & Hcodes).
      exists calls', w', (DeleteOtp u t :: seg).
      split; [exact Hi|]. split; [rewrite Ht, Ht1, <- app_assoc; reflexivity|].
      intros He Hno. apply Hk.
      * destruct Hcodes as [(_ & ->)|(_ & ->)]; [exact He|].
        now apply filter_pair_deleted.
      * intros o' e' Hin. apply (Hno o' e'). now right.
    + destruct Hstep as (Ht1 & Hcodes).
      exists calls', w', (InsertOtp u o t e :: seg).
      split; [exact Hi|]. split; [rewrite Ht, Ht1, <- app_assoc; reflexivity|].
      intros He Hno. apply Hk.
      * destruct Hcodes as [(_ & ->)|(_ & ->)]; [exact He|].
        rewrite filter_app, He. simpl.
        destruct (otp_matches u0 t0 _) eqn:E; [|reflexivity].
        destruct (otp_matches_pair _ _ _ _ _ _ _ _ E) as [-> ->].
        exfalso. apply (Hno o e). now left.
      * intros o' e' Hin. apply (Hno o' e'). now right.
    + destruct Hstep as (_ & ->). exists calls', w', seg. auto.
Qed.

(** A call in flight that completes, no INSERT of another call for the
    pair running between its DELETE and its INSERT: the pair has the one
    row it inserted. *)
Lemma issuance_in_flight userId otp type w0 w0' call w call1 w1 schedule others
      others' w2 w3 :
  storeOTP_called userId otp type w0 = (Ok call, w0') ->
  resume call w = (Ok call1, w1) ->
  interleave schedule others w1 = (Ok others', w2) ->
  (forall o e, ~ In (InsertOtp userId o type e) (calls_since w1 w2)) ->
  resume call1 w2 = (Ok (Settled true), w3) ->
  let expiresAt := clock w0 + otpExpiryMinutes * 60000 in
  let fresh := Otp.mk (otp_seq w2) userId otp type (expiresAt + zoneLag) (clock w2) in
  filter (otp_matches userId type) (otp_codes w3) = [fresh]
  /\ otp_codes w3 = otp_codes w2 ++ [fresh]
  /\ trace w1 = trace w ++ [DeleteOtp userId type]
  /\ trace w3 = trace w2 ++ [InsertOtp userId otp type expiresAt].
Proof.
  intros Hcall Hd Hi Hno Hins.
  unfold storeOTP_called in Hcall. revert Hcall. run. intro Hcall.
  inversion Hcall; subst call w0'. clear Hcall.
  destruct (resume_step (AtDelete userId otp type (clock w0 + otpExpiryMinutes * 60000)) w)
    as (c & w1' & Hd' & Ht1 & Hcodes1).
  rewrite Hd in Hd'. inversion Hd'; subst c w1'. clear Hd'.
  destruct Hcodes1 as [(-> & _)|(-> & Hcodes1)].
  { exfalso. simpl in Hins. unfold ret in Hins. discriminate Hins. }
  destruct (interleave_without_insert userId type schedule others w1)
    as (o' & w2' & seg & Hi' & Ht2 & Hkeep).
  rewrite Hi in Hi'. inversion Hi'; subst o' w2'. clear Hi'.
  rewrite (calls_since_app _ _ _ Ht2) in Hno.
  assert (He : filter (otp_matches userId type) (otp_codes w2) = []).
  { apply Hkeep; [|exact Hno]. rewrite Hcodes1. apply filter_none_left. }
  destruct (resume_step (AtInsert userId otp type (clock w0 + otpExpiryMinutes * 60000)) w2)
    as (c & w3' & Hins' & Ht3 & Hcodes3).
  rewrite Hins in Hins'. inversion Hins'; subst c w3'. clear Hins'.
  destruct Hcodes3 as [(Hf & _)|(_ & Hcodes3)]; [discriminate Hf|].
  simpl. rewrite Hcodes3, filter_app, He. simpl. rewrite otp_matches_refl.
  auto.
Qed.

(** C3: a completed [storeOTP userId otp type] leaves exactly one row
    (so at most one) for the pair (userId, type), the one it inserted,
    when no other issuance inserts a row for the pair between its DELETE
    and its INSERT. First for a call that runs alone: it issues the
    DELETE of all rows of the pair, then the INSERT of the one new row.
    Then for a call in flight with other calls, whose statements run
    between its two awaits in any order and with any failures: the
    statements that ran in between hold no INSERT for the pair. *)
Theorem C3_storeOTP_single_row userId otp type :
  (forall w w',
     storeOTP userId otp type w = (Ok true, w') ->
     let expiresAt := clock w + otpExpiryMinutes * 60000 in
     let fresh :=
       Otp.mk (otp_seq w) userId otp type (expiresAt + zoneLag) (clock w) in
     (List.length (filter (otp_matches userId type) (otp_codes w')) <= 1)%nat /\
     filter (otp_matches userId type) (otp_codes w') = [fresh] /\
     otp_codes w'
       = filter (fun r => negb (otp_matches userId type r)) (otp_codes w)
         ++ [fresh] /\
     trace w'
       = trace w ++ [DeleteOtp userId type; InsertOtp userId otp type expiresAt])
  /\
  (forall w0 w0' call w call1 w1 schedule others others' w2 w3,
     storeOTP_called userId otp type w0 = (Ok call, w0') ->
     resume call w = (Ok call1, w1) ->
     interleave schedule others w1 = (Ok others', w2) ->
     (forall o e, ~ In (InsertOtp userId o type e) (calls_since w1 w2)) ->
     resume call1 w2 = (Ok (Settled true), w3) ->
     let expiresAt := clock w0 + otpExpiryMinutes * 60000 in
     let fresh :=
       Otp.mk (otp_seq w2) userId otp type (expiresAt + zoneLag) (clock w2) in
     (List.length (filter (otp_matches userId type) (otp_codes w3)) <= 1)%nat /\
     filter (otp_matches userId type) (otp_codes w3) = [fresh] /\
     otp_codes w3 = otp_codes w2 ++ [fresh] /\
     trace w1 = trace w ++ [DeleteOtp userId type] /\
     trace w3 = trace w2 ++ [InsertOtp userId otp type expiresAt]).
Proof.
  split.
  - intros w w' H.
    destruct (storeOTP_alone _ _ _ _ _ H) as (F & L & T).
    simpl. rewrite F. simpl. auto.
  - intros w0 w0' call w call1 w1 schedule others others' w2 w3 H0 H1 H2 H3 H4.
    destruct (issuance_in_flight _ _ _ _ _ _ _ _ _ _ _ _ _ _ H0 H1 H2 H3 H4)
      as (F & L & T1 & T3).
    simpl. rewrite F. simpl. auto.
Qed.

End OtpFacts.

(** C3, as the claim states it, fails: two calls for the same pair whose
    statements run in the order DELETE, DELETE, INSERT, INSERT both
    complete, and the pair has two rows, one per call. *)
Lemma C3_counterexample_overlapping_issuances :
  exists w',
    overlapping_issuances (caps := demo_capabilities)
      1 (js "424242") (js "737373") email_type sample_world
    = (Ok [Settled true; Settled true], w')
    /\ map Otp.otp (filter (otp_matches 1 email_type) (otp_codes w'))
       = [js "424242"; js "737373"]
    /\ ~ (List.length (filter (otp_matches 1 email_type) (otp_codes w')) <= 1)%nat.
Proof.
  eexists. split; [vm_compute; reflexivity|]. split; [vm_compute; reflexivity|].
  vm_compute. lia.
Qed.

Lemma C3_storeOTP_single_row_witness :
  let w1 := snd (resume (caps := demo_capabilities)
                   (AtDelete 1 (js "424242") email_type 700000) sample_world) in
  let w2 := snd (interleave (caps := demo_capabilities) [0; 1; 1]%nat
                   [AtDelete 1 (js "737373") email_type 700000;
                    AtDelete 2 (js "515151") email_type 700000] w1) in
  let w3 := snd (resume (caps := demo_capabilities)
                   (AtInsert 1 (js "424242") email_type 700000) w2) in
  (List.length (filter (otp_matches 1 email_type) (otp_codes w3)) <= 1)%nat.
Proof.
  cbv zeta.
  eapply (proj1 (proj2 (C3_storeOTP_single_row (caps := demo_capabilities)
                          1 (js "424242") email_type)
                   sample_world _ _ sample_world _ _ [0; 1; 1]%nat
                   [AtDelete 1 (js "737373") email_type 700000;
                    AtDelete 2 (js "515151") email_type 700000] _ _ _
                   _ _ _ _ _)).
  Unshelve.
  all: try (vm_compute; reflexivity).
  intros o e H. vm_compute in H.
  destruct H as [H|[H|[H|[]]]]; discriminate H.
Defined.

(** *** The invariant is kept by every call, completed or not *)

Lemma filter_filter_length {A} (f g : A -> bool) (l : list A) :
  (List.length (filter f (filter g l)) <= List.length (filter f l))%nat.
Proof.
  induction l as [|a l IH]; simpl; auto.
  destruct (g a); simpl; destruct (f a); simpl; lia.
Qed.

Lemma otp_matches_same u t u' t' r :
  otp_matches u t r = true -> otp_matches u' t' r = true -> u' = u /\ t' = t.
Proof.
  unfold otp_matches. intros H H'.
  apply andb_prop in H as [Hu Ht]. apply andb_prop in H' as [Hu' Ht'].
  apply Z.eqb_eq in Hu, Hu'. split; [congruence|].
  destruct (Otp.type r), t, t'; simpl in *; congruence.
Qed.

Lemma ledger_unique_delete u t l :
  ledger_unique l ->
  ledger_unique (filter (fun r => negb (otp_matches u t r)) l).
Proof.
  intros H u' t'. specialize (H u' t').
  pose proof (filter_filter_length (otp_matches u' t')
                (fun r => negb (otp_matches u t r)) l). lia.
Qed.

Lemma ledger_unique_reissue u t fresh l :
  otp_matches u t fresh = true ->
  ledger_unique l ->
  ledger_unique (filter (fun r => negb (otp_matches u t r)) l ++ [fresh]).
Proof.
  intros Hf H u' t'. rewrite filter_app, length_app. simpl.
  destruct (otp_matches u' t' fresh) eqn:E.
  - destruct (otp_matches_same _ _ _ _ _ Hf E) as [-> ->].
    rewrite filter_none_left. simpl. lia.
  - pose proof (ledger_unique_delete u t l H u' t'). simpl. lia.
Qed.

Section LedgerInvariant.
Context {caps : Capabilities}.

Lemma storeOTP_keeps_ledger_unique userId otp type w :
  ledger_unique (otp_codes w) ->
  ledger_unique (otp_codes (snd (storeOTP userId otp type w))).
Proof.
  destruct w as [us os ps cs im sq ck fl tr]. simpl. intro H.
  unfold storeOTP. run.
  destruct fl as [|[] [|[] l]]; simpl; auto using ledger_unique_delete;
    apply ledger_unique_reissue; auto using otp_matches_refl.
Qed.

End LedgerInvariant.

Lemma verifyOTP_keeps_ledger_unique userId otp type w :
  ledger_unique (otp_codes w) ->
  ledger_unique (otp_codes (snd (verifyOTP userId otp type w))).
Proof.
  destruct w as [us os ps cs im sq ck fl tr]. simpl. intro H.
  unfold verifyOTP. run.
  destruct fl as [|[] fl]; simpl; auto;
    match goal with
    | |- context [filter ?f os] => destruct (filter f os)
    end; simpl; auto using ledger_unique_delete.
  destruct fl as [|[] [|[] fl]]; simpl; auto using ledger_unique_delete.
Qed.

Lemma filter_and_none_left {A} (f g : A -> bool) (l : list A) :
  filter (fun r => f r && g r) (filter (fun r => negb (f r)) l) = [].
Proof.
  induction l as [|a l IH]; simpl; auto.
  destruct (f a) eqn:E; simpl; auto. now rewrite E.
Qed.

Lemma filter_nonempty_in {A} (f : A -> bool) (l : list A) a rest :
  filter f l = a :: rest -> In a l /\ f a = true.
Proof.
  intro H. apply filter_In. rewrite H. now left.
Qed.

(** [verifyOTP] never lets an exception out. *)
Lemma verifyOTP_returns userId otp type w :
  exists b w', verifyOTP userId otp type w = (Ok b, w').
Proof.
  destruct w as [us os ps cs im sq ck fl tr].
  unfold verifyOTP. run.
  destruct fl as [|[] fl]; simpl; eauto;
    match goal with
    | |- context [filter ?f os] => destruct (filter f os)
    end; simpl; eauto.
  destruct fl as [|[] [|[] fl]]; simpl; eauto.
Qed.

(** C4: when [verifyOTP] succeeds, the code matched an unexpired row of
    the ledger and every row of the pair is deleted; a second [verifyOTP]
    for the same user, code and type on that ledger (whatever the time
    and whatever else happened, no code having been issued in between)
    returns false. *)
Theorem C4_verified_code_is_consumed userId otp type w w1 w2 :
  verifyOTP userId otp type w = (Ok true, w1) ->
  otp_codes w2 = otp_codes w1 ->
  (exists r, In r (otp_codes w)
             /\ Otp.user_id r = userId /\ Otp.type r = type
             /\ Otp.otp r = otp /\ clock w < Otp.expires_at r)
  /\ filter (otp_matches userId type) (otp_codes w1) = []
  /\ fst (verifyOTP userId otp type w2) = Ok false.
Proof.
  destruct w as [us os ps cs im sq ck fl tr].
  destruct w2 as [us2 os2 ps2 cs2 im2 sq2 ck2 fl2 tr2].
  unfold verifyOTP. run. intros H E. subst os2.
  assert (Hrow : exists r rest,
             filter (fun r => otp_matches userId type r && Js.eqb (Otp.otp r) otp
                              && (ck <? Otp.expires_at r)) os = r :: rest
             /\ otp_codes w1 = filter (fun r => negb (otp_matches userId type r)) os).
  { destruct fl as [|[] fl]; simpl in H; try discriminate;
      destruct (filter _ os) as [|r rest]; try discriminate.
    - exists r, rest. inversion H; subst. auto.
    - exists r, rest. destruct fl as [|[] [|[] fl]]; simpl in H; try discriminate;
        inversion H; subst; auto. }
  destruct Hrow as (r & rest & Hsel & Hdel).
  apply filter_nonempty_in in Hsel as [Hin Hr].
  apply andb_prop in Hr as [Hr Ht]. apply andb_prop in Hr as [Hm Ho].
  unfold otp_matches in Hm. apply andb_prop in Hm as [Hu Hty].
  split; [|split].
  - exists r. simpl. repeat split; auto.
    + now apply Z.eqb_eq.
    + destruct (Otp.type r), type; simpl in Hty; congruence.
    + now apply js_eqb_eq.
    + now apply Z.ltb_lt.
  - rewrite Hdel. apply filter_none_left.
  - rewrite Hdel.
    assert (Hnone : filter (fun r0 => otp_matches userId type r0
                                      && Js.eqb (Otp.otp r0) otp
                                      && (ck2 <? Otp.expires_at r0))
                      (filter (fun r0 => negb (otp_matches userId type r0)) os) = []).
    { erewrite filter_ext; [apply (filter_and_none_left (otp_matches userId type)
        (fun r0 => Js.eqb (Otp.otp r0) otp && (ck2 <? Otp.expires_at r0)))|].
      intro a. simpl. now rewrite andb_assoc. }
    destruct fl2 as [|[] fl2]; simpl; rewrite ?Hnone; reflexivity.
Qed.

Lemma C4_verified_code_is_consumed_witness :
  fst (verifyOTP 1 (js "111111") email_type
         (snd (verifyOTP 1 (js "111111") email_type sample_world))) = Ok false.
Proof.
  exact (proj2 (proj2 (C4_verified_code_is_consumed
                         1 (js "111111") email_type sample_world _ _
                         eq_refl eq_refl))).
Defined.

(** ** Login *)

Section LoginFacts.
Context {caps : Capabilities}.

(** What [login] answers to a body that passes validation. *)
Lemma login_valid_body body value w :
  loginSchema_validate body = inr value ->
  fst (login body w) =
  Ok (if next_call_ok w then
        match stored_user (useremail value) w with
        | None => invalid_credentials
        | Some user =>
            if negb (bcrypt_compare (userpassword value) (User.password user))
            then invalid_credentials
            else if negb (User.is_verified user)
            then mkResponse 203 (Message (js "Please verify your account"))
            else mkResponse 200
                   (LoginOk (js "Login successful")
                      (mkUserView (User.id user) (User.email user)
                         (User.phone user) (User.is_verified user))
                      (jwt_sign (User.id user) (User.email user)
                         (match RememberMe value with
                          | Some true => js "30d"
                          | _ => js "1d"
                          end)
                         (clock w)))
        end
      else invalid_credentials).
Proof.
  intro Hv. destruct w as [us os ps cs im sq ck fl tr].
  unfold login, stored_user, next_call_ok, findByEmail, verifyPassword.
  rewrite Hv. run.
  destruct fl as [|[] fl]; simpl; auto;
    destruct (hd_error _) as [user|]; simpl; auto;
    destruct (bcrypt_compare _ _); simpl; auto;
    destruct (User.is_verified user); simpl; auto.
Qed.

Lemma stored_user_after_verification userId now email w u :
  stored_user email w = Some u ->
  hd_error
    (filter (fun x => Js.eqb (User.email x) email)
       (map (fun x => if User.id x =? userId then User.set_verified now x else x)
            (users w)))
  = Some (if User.id u =? userId then User.set_verified now u else u).
Proof.
  unfold stored_user. induction (users w) as [|x l IH]; simpl; [discriminate|].
  assert (E : User.email (if User.id x =? userId then User.set_verified now x else x)
              = User.email x) by (destruct (User.id x =? userId); reflexivity).
  rewrite E. destruct (Js.eqb (User.email x) email); simpl; auto.
  intro H. now inversion H.
Qed.

Lemma verifyOTP_marks_user userId otp type w wv :
  verifyOTP userId otp type w = (Ok true, wv) ->
  users wv = map (fun x => if User.id x =? userId
                           then User.set_verified (clock w) x else x) (users w).
Proof.
  destruct w as [us os ps cs im sq ck fl tr].
  unfold verifyOTP. run.
  destruct fl as [|[] fl]; simpl; try discriminate;
    destruct (filter _ os) as [|r rest]; try discriminate.
  - intro H. now inversion H.
  - destruct fl as [|[] [|[] fl]]; simpl; try discriminate;
      intro H; now inversion H.
Qed.

(** C5 (amended): a login whose e-mail is stored and whose password
    matches (its body valid), when its lookup query does not fail, while
    the user's [is_verified] is false, is answered with status 203
    "Please verify your account" (not 401) and without a token; a token
    is only ever issued to a verified user; and once [verifyOTP] has
    succeeded for that user the same login is answered 200 with a
    token. *)
Theorem C5_login_requires_verification body value u w :
  loginSchema_validate body = inr value ->
  stored_user (useremail value) w = Some u ->
  bcrypt_compare (userpassword value) (User.password u) = true ->
  next_call_ok w = true ->
  (User.is_verified u = false ->
     exists r, fst (login body w) = Ok r
               /\ status r = 203 /\ status r <> 401
               /\ message_of r = Some (js "Please verify your account")
               /\ token_of r = None)
  /\ (forall r t, fst (login body w) = Ok r -> token_of r = Some t ->
        User.is_verified u = true)
  /\ (forall otp wv w',
        verifyOTP (User.id u) otp email_type w = (Ok true, wv) ->
        users w' = users wv -> next_call_ok w' = true ->
        exists r t, fst (login body w') = Ok r
                    /\ status r = 200 /\ token_of r = Some t).
Proof.
  intros Hv Hu Hp Hn.
  pose proof (login_valid_body body value w Hv) as L.
  rewrite Hn, Hu, Hp in L. simpl in L.
  split; [|split].
  - intro Hf. rewrite Hf in L. simpl in L.
    eexists. split; [exact L|]. simpl. repeat split. discriminate.
  - intros r t Hr Ht. destruct (User.is_verified u); auto.
    simpl in L. rewrite L in Hr. inversion Hr; subst r. discriminate Ht.
  - intros otp wv w' Hotp Hw' Hn'.
    pose proof (login_valid_body body value w' Hv) as L'.
    rewrite Hn' in L'. unfold stored_user in L'.
    rewrite Hw', (verifyOTP_marks_user _ _ _ _ _ Hotp) in L'.
    rewrite (stored_user_after_verification _ _ _ _ _ Hu) in L'.
    rewrite Z.eqb_refl in L'. simpl in L'. rewrite Hp in L'. simpl in L'.
    eexists. eexists. split; [exact L'|]. simpl. split; reflexivity.
Qed.

(** C6: a login with an e-mail that is not stored and a login with a
    stored e-mail and a wrong password (both bodies valid) get the same
    response, whichever queries fail: status 401 and the message
    "Invalid email or password". *)
Theorem C6_login_failures_indistinguishable body1 body2 value1 value2 u w1 w2 :
  loginSchema_validate body1 = inr value1 ->
  loginSchema_validate body2 = inr value2 ->
  stored_user (useremail value1) w1 = None ->
  stored_user (useremail value2) w2 = Some u ->
  bcrypt_compare (userpassword value2) (User.password u) = false ->
  exists r1 r2,
    fst (login body1 w1) = Ok r1 /\ fst (login body2 w2) = Ok r2
    /\ status r1 = status r2 /\ message_of r1 = message_of r2
    /\ r1 = r2
    /\ status r1 = 401 /\ message_of r1 = Some (js "Invalid email or password").
Proof.
  intros Hv1 Hv2 H1 H2 Hp.
  pose proof (login_valid_body body1 value1 w1 Hv1) as L1.
  pose proof (login_valid_body body2 value2 w2 Hv2) as L2.
  rewrite H1 in L1. rewrite H2, Hp in L2. simpl in L1, L2.
  exists invalid_credentials, invalid_credentials.
  destruct (next_call_ok w1), (next_call_ok w2); rewrite L1, L2;
    repeat split; reflexivity.
Qed.

End LoginFacts.

(** C5 as the claim states it fails: alice is stored, unverified, and
    the password of the request matches hers; when the lookup query
    throws, [findByEmail] catches the error and returns null, and the
    login is answered 401 "Invalid email or password", the answer given
    to wrong credentials. *)
Lemma C5_counterexample_lookup_fails :
  let w := with_faults [true] sample_world in
  stored_user (useremail alice_login) w = Some alice
  /\ User.is_verified alice = false
  /\ bcrypt_compare (Capabilities := demo_capabilities)
       (userpassword alice_login) (User.password alice) = true
  /\ exists r,
       fst (login (caps := demo_capabilities) alice_login w) = Ok r
       /\ status r = 401 /\ status r <> 203
       /\ message_of r = Some (js "Invalid email or password")
       /\ token_of r = None.
Proof.
  cbv zeta. split; [reflexivity|]. split; [reflexivity|].
  split; [reflexivity|].
  eexists. split; [reflexivity|]. vm_compute. repeat split. discriminate.
Qed.

Lemma C5_login_requires_verification_witness :
  exists r, fst (login (caps := demo_capabilities) alice_login sample_world) = Ok r
            /\ status r = 203 /\ status r <> 401
            /\ message_of r = Some (js "Please verify your account")
            /\ token_of r = None.
Proof.
  exact (proj1 (C5_login_requires_verification (caps := demo_capabilities)
                  alice_login alice_login alice sample_world
                  eq_refl eq_refl eq_refl eq_refl) eq_refl).
Defined.

Lemma C6_login_failures_indistinguishable_witness :
  exists r1 r2,
    fst (login (caps := demo_capabilities) carol_login sample_world) = Ok r1
    /\ fst (login (caps := demo_capabilities) alice_wrong_password sample_world) = Ok r2
    /\ status r1 = status r2 /\ message_of r1 = message_of r2
    /\ r1 = r2
    /\ status r1 = 401 /\ message_of r1 = Some (js "Invalid email or password").
Proof.
  exact (C6_login_failures_indistinguishable (caps := demo_capabilities)
           carol_login alice_wrong_password carol_login alice_wrong_password
           alice sample_world sample_world
           eq_refl eq_refl eq_refl eq_refl eq_refl).
Defined.

(** ** The verified-account guard *)

Lemma checkVerification_unverified ident u w :
  next_call_ok w = true ->
  hd_error (filter (fun x => User.id x =? identity_id ident) (users w)) = Some u ->
  User.is_verified u = false ->
  fst (checkVerification (Some ident) w) = Ok (Responded not_verified_response).
Proof.
  destruct w as [us os ps cs im sq ck fl tr]. unfold next_call_ok. simpl.
  intros Hn Hu Hv. unfold checkVerification, findById. run.
  destruct fl as [|[] fl]; try discriminate; simpl; rewrite Hu; simpl;
    now rewrite Hv.
Qed.

(** C7, the code at a request of the unverified user alice: the guard
    answers with HTTP status 403; the number 203 only travels in the
    body. *)
Theorem C7_checkVerification_answers_403 :
  exists r,
    fst (checkVerification (Some (mkIdentity 1 (js "alice@example.com"))) sample_world)
    = Ok (Responded r)
    /\ status r = 403
    /\ body r = MessageStatus (js "Account not verified") 203.
Proof.
  exists not_verified_response. split.
  - now apply (checkVerification_unverified _ alice).
  - split; reflexivity.
Qed.

(** ** Profiles *)

Lemma joined_without_profile u :
  joined u None =
  mkCompleteProfile (User.id u) (User.email u) (User.phone u) (User.is_verified u)
    empty_profile (User.created_at u).
Proof. reflexivity. Qed.

Lemma left_join_without_profile userId w u rest :
  filter (fun x => User.id x =? userId) (users w) = u :: rest ->
  no_profile userId w ->
  hd_error (left_join_profiles userId w) = Some (joined u None).
Proof.
  unfold left_join_profiles, no_profile. intros Hu Hp. rewrite Hu. simpl.
  assert (E : User.id u = userId).
  { apply Z.eqb_eq.
    apply (proj2 (filter_nonempty_in _ _ _ _ Hu)). }
  rewrite E, Hp. reflexivity.
Qed.

Lemma getUserProfile_without_profile ident w u rest :
  next_call_ok w = true ->
  filter (fun x => User.id x =? identity_id ident) (users w) = u :: rest ->
  no_profile (identity_id ident) w ->
  fst (getUserProfile (Some ident) w)
  = Ok (mkResponse 200 (ProfileJson (joined u None))).
Proof.
  intros Hn Hu Hp.
  pose proof (left_join_without_profile _ _ _ _ Hu Hp) as J.
  destruct w as [us os ps cs im sq ck fl tr]. unfold next_call_ok in Hn.
  simpl in Hn. unfold left_join_profiles in J. simpl in J.
  unfold getUserProfile, getCompleteUserProfile, left_join_profiles. run.
  destruct fl as [|[] fl]; try discriminate; simpl; now rewrite J.
Qed.

(** C8, the code at a request of alice, who has a user row and no
    profile row: the answer is 200 with a projection whose profile fields
    are all null, not 404. *)
Theorem C8_getUserProfile_without_profile_answers_200 :
  no_profile 1 sample_world /\
  exists r p,
    fst (getUserProfile (Some (mkIdentity 1 (js "alice@example.com"))) sample_world)
    = Ok r
    /\ status r = 200 /\ status r <> 404
    /\ body r = ProfileJson p /\ cp_profile p = empty_profile.
Proof.
  split; [reflexivity|].
  eexists. eexists. split.
  - apply (getUserProfile_without_profile _ sample_world alice []); reflexivity.
  - simpl. repeat split. discriminate.
Qed.

Lemma map_unless_matching {A} (f : A -> bool) (g : A -> A) (l : list A) :
  filter f l = [] -> map (fun a => if f a then g a else a) l = l.
Proof.
  induction l as [|a l IH]; simpl; auto.
  destruct (f a); [discriminate|]. intro H. now rewrite IH.
Qed.

(** C10: for an identity without a profile row and a non-empty URL,
    [updateProfilePicture] answers 200 "Profile picture updated
    successfully" (its UPDATE statement not failing) although that
    statement, which it did issue, matched no row: every table is as it
    was. *)
Theorem C10_picture_update_without_profile ident url w :
  truthy url = true ->
  no_profile (identity_id ident) w ->
  next_call_ok w = true ->
  exists r w',
    updateProfilePicture (Some ident) (Some url) w = (Ok r, w')
    /\ status r = 200
    /\ message_of r = Some (js "Profile picture updated successfully")
    /\ In (UpdateProfilePicture url (identity_id ident)) (trace w')
    /\ users_profiles w' = users_profiles w
    /\ users w' = users w /\ otp_codes w' = otp_codes w
    /\ coupons w' = coupons w /\ assets w' = assets w.
Proof.
  destruct w as [us os ps cs im sq ck fl tr]. unfold no_profile, next_call_ok.
  simpl. intros Hurl Hp Hn.
  unfold updateProfilePicture, model_updateProfilePicture, getCompleteUserProfile.
  simpl. rewrite Hurl. run.
  rewrite (map_unless_matching
             (fun p => Profile.user_id p =? identity_id ident)
             (Profile.set_picture url ck) ps Hp).
  assert (Hin : forall t1 t2,
             In (UpdateProfilePicture url (identity_id ident))
                ((t1 ++ [UpdateProfilePicture url (identity_id ident)]) ++ t2)).
  { intros. apply in_or_app. left. apply in_or_app. right. now left. }
  destruct fl as [|[] [|[] fl]]; try discriminate; simpl;
    eexists; eexists; (split; [reflexivity|]); simpl;
    repeat split; auto.
Qed.

Lemma C10_picture_update_without_profile_witness :
  exists r w',
    updateProfilePicture (Some (mkIdentity 1 (js "alice@example.com")))
      (Some (js "https://img/alice.png")) sample_world = (Ok r, w')
    /\ status r = 200
    /\ message_of r = Some (js "Profile picture updated successfully")
    /\ In (UpdateProfilePicture (js "https://img/alice.png") 1) (trace w')
    /\ users_profiles w' = users_profiles sample_world
    /\ users w' = users sample_world /\ otp_codes w' = otp_codes sample_world
    /\ coupons w' = coupons sample_world /\ assets w' = assets sample_world.
Proof.
  exact (C10_picture_update_without_profile
           (mkIdentity 1 (js "alice@example.com")) (js "https://img/alice.png")
           sample_world eq_refl eq_refl eq_refl).
Defined.

(** ** Coupons: delete *)

Lemma filter_none_right {A} (f : A -> bool) (l : list A) :
  filter f (filter (fun c => negb (f c)) l) = [].
Proof. apply filter_none_left. Qed.

(** C9 as the specification states it fails: deleting the coupon SUMMER,
    which has an image, issues the DELETE statement first and the
    asset-delete call second; the asset-delete call is not issued before
    or together with the row deletion. *)
Lemma C9_counterexample_asset_after_row :
  let w' := snd (delete_coupon (js "SUMMER") sample_world) in
  trace w' = [DeleteCoupon (js "SUMMER"); CloudinaryDestroy (js "coupons/SUMMER_1")]
  /\ ~ issued_no_later (CloudinaryDestroy (js "coupons/SUMMER_1"))
                       (DeleteCoupon (js "SUMMER")) (trace w').
Proof.
  intro w'.
  assert (T : trace w'
              = [DeleteCoupon (js "SUMMER"); CloudinaryDestroy (js "coupons/SUMMER_1")])
    by reflexivity.
  split; [exact T|]. rewrite T.
  intros (i & j & Hi & Hj & Hle).
  destruct i as [|[|i]]; simpl in Hi.
  - discriminate Hi.
  - destruct j as [|[|j]]; simpl in Hj.
    + lia.
    + discriminate Hj.
    + destruct j; discriminate Hj.
  - destruct i; discriminate Hi.
Qed.

(** C9 (amended): deleting a coupon that has an image asset, when the
    DELETE statement itself does not fail, issues the row deletion and
    then exactly one asset-delete call, in this order; the row is gone
    from the store and the answer is 200 whether or not the asset-delete
    call fails. *)
Theorem C9_delete_coupon_row_then_asset id c rest p w :
  filter (has_coupon_id id) (coupons w) = c :: rest ->
  Coupon.image_public_id c = Some p ->
  truthy p = true ->
  next_call_ok w = true ->
  exists r w',
    delete_coupon id w = (Ok r, w')
    /\ status r = 200
    /\ trace w' = trace w ++ [DeleteCoupon id; CloudinaryDestroy p]
    /\ filter (has_coupon_id id) (coupons w') = []
    /\ coupons w' = filter (fun x => negb (has_coupon_id id x)) (coupons w).
Proof.
  destruct w as [us os ps cs im sq ck fl tr]. unfold next_call_ok. simpl.
  intros Hc Hp Ht Hn.
  unfold delete_coupon, deleteCloudinaryImage. run.
  destruct fl as [|[] [|[] fl]]; try discriminate; simpl;
    rewrite Hc; simpl; rewrite Hp; simpl; rewrite Ht; simpl;
    eexists; eexists; (split; [reflexivity|]); simpl;
    rewrite <- app_assoc; simpl; repeat split; auto using filter_none_right.
Qed.

Lemma C9_delete_coupon_row_then_asset_witness :
  exists r w',
    delete_coupon (js "SUMMER") sample_world_asset_store_down = (Ok r, w')
    /\ status r = 200
    /\ trace w' = trace sample_world_asset_store_down
                  ++ [DeleteCoupon (js "SUMMER");
                      CloudinaryDestroy (js "coupons/SUMMER_1")]
    /\ filter (has_coupon_id (js "SUMMER")) (coupons w') = []
    /\ coupons w' = filter (fun x => negb (has_coupon_id (js "SUMMER") x))
                      (coupons sample_world_asset_store_down).
Proof.
  exact (C9_delete_coupon_row_then_asset (js "SUMMER") summer_coupon []
           (js "coupons/SUMMER_1") sample_world_asset_store_down
           eq_refl eq_refl eq_refl eq_refl).
Defined.

(** With the asset store down the image stays, and the row is deleted all
    the same. *)
Example delete_coupon_asset_store_down :
  let w' := snd (delete_coupon (js "SUMMER") sample_world_asset_store_down) in
  coupons w' = [] /\ assets w' = [js "coupons/SUMMER_1"].
Proof. split; reflexivity. Qed.

(** ** Coupons: update *)

Lemma has_coupon_id_apply_update id now v c :
  has_coupon_id id (apply_update now v c) = has_coupon_id id c.
Proof. reflexivity. Qed.

(** An update answered 200 ran its UPDATE statement on the rows of the
    coupon, with the values computed from the first row read. *)
Lemma put_coupon_200 id req file c rest w r w' :
  filter (has_coupon_id id) (coupons w) = c :: rest ->
  put_coupon id req file w = (Ok r, w') ->
  status r = 200 ->
  coupons w' =
  map (fun x => if has_coupon_id id x
                then apply_update (clock w) (update_values (clock w) req file c) x
                else x)
      (coupons w).
Proof.
  destruct w as [us os ps cs im sq ck fl tr]. simpl. intros Hc.
  unfold put_coupon, discard_upload, deleteCloudinaryImage. run.
  destruct file as [f|];
    destruct (truthy_opt (Coupon.image_public_id c)) eqn:Hi;
    try destruct (truthy (filename f));
    destruct fl as [|[] [|[] [|[] [|[] fl]]]]; simpl;
    rewrite ?Hc; simpl; rewrite ?Hi; simpl;
    intros H; inversion H; subst; simpl; intros; try discriminate; reflexivity.
Qed.

(** When no call fails, an update of an existing coupon is answered 200. *)
Lemma put_coupon_completes id req file c rest w :
  filter (has_coupon_id id) (coupons w) = c :: rest ->
  faults w = [] ->
  exists r w', put_coupon id req file w = (Ok r, w') /\ status r = 200.
Proof.
  destruct w as [us os ps cs im sq ck fl tr]. simpl. intros Hc ->.
  unfold put_coupon, discard_upload, deleteCloudinaryImage. run.
  rewrite Hc. simpl.
  destruct file as [f|];
    destruct (truthy_opt (Coupon.image_public_id c)); simpl; eauto.
Qed.

(** C2 as the specification states it fails: the coupon SUMMER is stored
    expired with the duration "1min"; an update that supplies the duration
    "1min" again is answered 200 and leaves the stored flag true and the
    stored expiry as it was, not recomputed from the current time. *)
Lemma C2_counterexample_same_duration :
  exists r w',
    put_coupon (js "SUMMER") same_duration None sample_world = (Ok r, w')
    /\ status r = 200
    /\ map Coupon.is_expired (coupons w') = [Some true]
    /\ map Coupon.expires_at (coupons w') = [Some 60000]
    /\ calculateExpirationDate (clock sample_world) (js "1min") = 160000.
Proof.
  eexists. eexists. split; [reflexivity|]. vm_compute. repeat split.
Qed.

(** C2 (amended): when an update supplies a non-empty duration and is
    answered 200, then, if the duration differs from the stored one,
    every stored row of the coupon has [is_expired] false, the new
    duration, and [expires_at] recomputed from it at the time of the
    update, whatever the flag was before; and if it is the stored
    duration again, [is_expired], [expires_at] and the duration are as
    they were in the stored coupon. With no failing call the update is
    answered 200. *)
Theorem C2_update_changed_duration_rearms id req file d c rest w :
  duration req = Some d ->
  truthy d = true ->
  filter (has_coupon_id id) (coupons w) = c :: rest ->
  (faults w = [] ->
     exists r w', put_coupon id req file w = (Ok r, w') /\ status r = 200)
  /\ (forall r w',
        put_coupon id req file w = (Ok r, w') -> status r = 200 ->
        (exists c', In c' (coupons w') /\ has_coupon_id id c' = true)
        /\ (d <> Coupon.duration c ->
            forall c', In c' (coupons w') -> has_coupon_id id c' = true ->
              Coupon.is_expired c' = Some false
              /\ Coupon.expires_at c' = Some (calculateExpirationDate (clock w) d)
              /\ Coupon.duration c' = d)
        /\ (d = Coupon.duration c ->
            forall c', In c' (coupons w') -> has_coupon_id id c' = true ->
              Coupon.is_expired c' = Coupon.is_expired c
              /\ Coupon.expires_at c' = Coupon.expires_at c
              /\ Coupon.duration c' = Coupon.duration c)).
Proof.
  intros Hd Ht Hc. split.
  - intro Hf. eapply put_coupon_completes; eassumption.
  - intros r w' Hput H200.
    rewrite (put_coupon_200 _ _ _ _ _ _ _ _ Hc Hput H200).
    assert (Hrows : forall (P : Coupon.t -> Prop),
               (forall x, P (apply_update (clock w)
                               (update_values (clock w) req file c) x)) ->
               forall c',
                 In c' (map (fun x => if has_coupon_id id x
                                      then apply_update (clock w)
                                             (update_values (clock w) req file c) x
                                      else x)
                            (coupons w)) ->
                 has_coupon_id id c' = true -> P c').
    { intros P HP c' Hin Hid. apply in_map_iff in Hin as (x & Hx & _).
      destruct (has_coupon_id id x) eqn:E; subst c'; [apply HP|congruence]. }
    split; [|split].
    + destruct (filter_nonempty_in _ _ _ _ Hc) as [Hin Hid].
      exists (apply_update (clock w) (update_values (clock w) req file c) c).
      split; [|exact Hid].
      apply in_map_iff. exists c. now rewrite Hid.
    + intro Hne. apply Hrows. intro x. unfold apply_update, update_values. simpl.
      rewrite Hd. simpl. rewrite Ht. simpl.
      apply js_eqb_neq in Hne. rewrite Hne. simpl. auto.
    + intro He. apply Hrows. intro x. unfold apply_update, update_values. simpl.
      rewrite Hd. simpl. rewrite Ht. simpl.
      rewrite He, js_eqb_refl. simpl. auto.
Qed.

Lemma C2_update_changed_duration_rearms_witness :
  Coupon.is_expired
    (hd summer_coupon
       (coupons (snd (put_coupon (js "SUMMER") longer_duration None sample_world))))
  = Some false
  /\ Coupon.expires_at
       (hd summer_coupon
          (coupons (snd (put_coupon (js "SUMMER") longer_duration None sample_world))))
     = Some (calculateExpirationDate (clock sample_world) (js "2hrs 30min"))
  /\ Coupon.duration
       (hd summer_coupon
          (coupons (snd (put_coupon (js "SUMMER") longer_duration None sample_world))))
     = js "2hrs 30min".
Proof.
  refine (proj1 (proj2 (proj2 (C2_update_changed_duration_rearms
                                 (js "SUMMER") longer_duration None
                                 (js "2hrs 30min") summer_coupon [] sample_world
                                 eq_refl eq_refl eq_refl)
                          _ _ eq_refl eq_refl))
            _ _ (or_introl eq_refl) eq_refl).
  discriminate.
Defined.

(* ================================================================= *)
(** * Properties of the further code *)

(** ** One-time codes: issue, verify, reissue *)

Section OtpRoundTrip.
Context {caps : Capabilities}.

Lemma storeOTP_ledger userId otp type w w1 :
  storeOTP userId otp type w = (Ok true, w1) ->
  otp_codes w1
  = filter (fun r => negb (otp_matches userId type r)) (otp_codes w)
    ++ [Otp.mk (otp_seq w) userId otp type
          (clock w + otpExpiryMinutes * 60000 + zoneLag) (clock w)].
Proof.
  intro H. now destruct (storeOTP_alone _ _ _ _ _ H) as (_ & L & _).
Qed.

(** A call that runs alone is undisturbed. *)
Lemma alone_is_undisturbed userId otp type w w' :
  storeOTP userId otp type w = (Ok true, w') ->
  issued_undisturbed userId otp type w w'.
Proof.
  rewrite storeOTP_uninterrupted. unfold bind at 1.
  destruct (storeOTP_called userId otp type w) as [[call|] w0] eqn:H0;
    [|discriminate].
  assert (w0 = w) by (revert H0; unfold storeOTP_called; run; congruence).
  subst w0. unfold bind at 1.
  destruct (resume_step call w) as (call1 & w1 & H1 & _). rewrite H1.
  unfold bind at 1.
  destruct (resume_step call1 w1) as (call2 & w2 & H2 & _). rewrite H2.
  unfold ret. intro H. inversion H; subst w'.
  destruct call2 as [| |[]]; try discriminate.
  exists w, call, w, call1, w1, [], [], [], w1.
  split; [exact H0|]. split; [exact H1|]. split; [reflexivity|].
  split; [|exact H2].
  intros o e. unfold calls_since. rewrite skipn_all. auto.
Qed.

(** What an undisturbed call leaves of its pair. *)
Lemma undisturbed_ledger userId otp type w0 w3 :
  issued_undisturbed userId otp type w0 w3 ->
  exists i c,
    filter (otp_matches userId type) (otp_codes w3)
    = [Otp.mk i userId otp type
         (clock w0 + otpExpiryMinutes * 60000 + zoneLag) c].
Proof.
  intros (w0' & call & w & call1 & w1 & schedule & others & others' & w2
          & H0 & H1 & H2 & H3 & H4).
  destruct (issuance_in_flight _ _ _ _ _ _ _ _ _ _ _ _ _ _ H0 H1 H2 H3 H4)
    as (F & _).
  eauto.
Qed.

Lemma calls_ok_3 fl :
  forallb negb (firstn 3 fl) = true ->
  fl = [] \/ fl = [false] \/ fl = [false; false]
  \/ exists rest, fl = false :: false :: false :: rest.
Proof.
  destruct fl as [|[] [|[] [|[] rest]]]; simpl; try discriminate; eauto 6.
Qed.

Lemma filter_and3_none_left {A} (f g h : A -> bool) (l : list A) :
  filter (fun r => f r && g r && h r) (filter (fun r => negb (f r)) l) = [].
Proof.
  induction l as [|a l IH]; simpl; auto.
  destruct (f a) eqn:E; simpl; auto. now rewrite E.
Qed.

Lemma filter_and3_split {A} (f g h : A -> bool) (l : list A) :
  filter (fun r => f r && g r && h r) l
  = filter (fun r => g r && h r) (filter f l).
Proof.
  induction l as [|a l IH]; simpl; auto.
  destruct (f a); simpl; [|exact IH].
  destruct (g a && h a); now rewrite IH.
Qed.

(** What [verifyOTP] selects from a ledger that holds one fresh row of
    the pair and no other. *)
Lemma select_after_reissue userId type otp' now fresh l :
  otp_matches userId type fresh = true ->
  filter (fun r => otp_matches userId type r && Js.eqb (Otp.otp r) otp'
                   && (now <? Otp.expires_at r))
         (filter (fun r => negb (otp_matches userId type r)) l ++ [fresh])
  = if Js.eqb (Otp.otp fresh) otp' && (now <? Otp.expires_at fresh)
    then [fresh] else [].
Proof.
  intro Hf. rewrite filter_app.
  rewrite (filter_and3_none_left (otp_matches userId type)
             (fun r => Js.eqb (Otp.otp r) otp')
             (fun r => now <? Otp.expires_at r)).
  simpl. rewrite Hf. simpl.
  destruct (Js.eqb (Otp.otp fresh) otp'); simpl; auto.
Qed.

Lemma verifyOTP_selected_none userId otp type w :
  filter (fun r => otp_matches userId type r && Js.eqb (Otp.otp r) otp
                   && (clock w <? Otp.expires_at r)) (otp_codes w) = [] ->
  exists w', verifyOTP userId otp type w = (Ok false, w') /\ same_tables w w'.
Proof.
  destruct w as [us os ps cs im sq ck fl tr]. simpl. intro H.
  unfold verifyOTP, same_tables. run.
  destruct fl as [|[] fl]; simpl; rewrite ?H; eexists; split;
    try reflexivity; simpl; auto.
Qed.

Lemma verifyOTP_selected_some userId otp type w r rest :
  filter (fun r => otp_matches userId type r && Js.eqb (Otp.otp r) otp
                   && (clock w <? Otp.expires_at r)) (otp_codes w) = r :: rest ->
  calls_ok 3 w = true ->
  fst (verifyOTP userId otp type w) = Ok true.
Proof.
  destruct w as [us os ps cs im sq ck fl tr]. unfold calls_ok. simpl.
  intros H Hok. unfold verifyOTP. run.
  destruct (calls_ok_3 fl Hok) as [->|[->|[->|[l ->]]]]; simpl; rewrite H;
    reflexivity.
Qed.

(** Two overlapping calls, no statement failing: both complete, and the
    pair has the two rows they inserted. *)
Lemma overlapping_issuances_run userId otp1 otp2 type w :
  faults w = [] ->
  let expiry := clock w + otpExpiryMinutes * 60000 + zoneLag in
  exists w',
    overlapping_issuances userId otp1 otp2 type w
    = (Ok [Settled true; Settled true], w')
    /\ filter (otp_matches userId type) (otp_codes w')
       = [Otp.mk (otp_seq w) userId otp1 type expiry (clock w);
          Otp.mk (otp_seq w + 1) userId otp2 type expiry (clock w)]
    /\ clock w' = clock w /\ faults w' = [].
Proof.
  destruct w as [us os ps cs im sq ck fl tr]. simpl. intros ->.
  unfold overlapping_issuances, storeOTP_called, interleave, resume. run.
  eexists. split; [reflexivity|]. simpl. split; [|auto].
  rewrite !filter_app. simpl. rewrite !otp_matches_refl.
  rewrite (filter_pair_deleted userId type userId type) by apply filter_none_left.
  reflexivity.
Qed.

(** X1: A code issued by a call of [storeOTP] that no other issuance for
    the pair disturbed is accepted by [verifyOTP], the ledger being as
    the call left it, while the clock of the database is before the
    expiry and none of the three statements fails, and is rejected from
    the expiry on, whatever fails. The expiry is the time of the call
    plus the configured minutes plus [zoneLag]: with the node process
    behind the session by the lifetime or more, the code is rejected
    from the start. *)
Theorem stored_code_verifies_until_expiry userId otp type w0 w3 w4 :
  issued_undisturbed userId otp type w0 w3 ->
  otp_codes w4 = otp_codes w3 ->
  let expiry := clock w0 + otpExpiryMinutes * 60000 + zoneLag in
  (clock w4 < expiry -> calls_ok 3 w4 = true ->
     fst (verifyOTP userId otp type w4) = Ok true)
  /\ (expiry <= clock w4 ->
      fst (verifyOTP userId otp type w4) = Ok false).
Proof.
  intros Hs Hl. destruct (undisturbed_ledger _ _ _ _ _ Hs) as (i & c & F).
  rewrite <- Hl in F.
  pose proof (filter_and3_split (otp_matches userId type)
                (fun r => Js.eqb (Otp.otp r) otp)
                (fun r => clock w4 <? Otp.expires_at r) (otp_codes w4)) as S.
  rewrite F in S. simpl in S. rewrite js_eqb_refl in S. simpl in S.
  split.
  - intros Ht Hok. apply Z.ltb_lt in Ht. rewrite Ht in S.
    eapply verifyOTP_selected_some; eassumption.
  - intro Ht. apply Z.ltb_ge in Ht. rewrite Ht in S.
    destruct (verifyOTP_selected_none _ _ _ _ S) as (w' & -> & _). reflexivity.
Qed.

(** X2: A reissue invalidates the code it replaces when the two calls do
    not overlap: after a call of [storeOTP] that no other issuance for
    the pair disturbed, [verifyOTP] rejects every other code, the ledger
    being as the call left it. When the two calls overlap (DELETE,
    DELETE, INSERT, INSERT, no statement failing, the codes not expired
    at once), both codes stay stored and [verifyOTP] accepts either. *)
Theorem reissue_invalidates_other_codes userId otp other type :
  other <> otp ->
  (forall w0 w3 w4,
     issued_undisturbed userId otp type w0 w3 ->
     otp_codes w4 = otp_codes w3 ->
     exists w', verifyOTP userId other type w4 = (Ok false, w')
                /\ otp_codes w' = otp_codes w3)
  /\ (forall w calls w',
        faults w = [] ->
        0 < otpExpiryMinutes * 60000 + zoneLag ->
        overlapping_issuances userId other otp type w = (Ok calls, w') ->
        calls = [Settled true; Settled true]
        /\ fst (verifyOTP userId other type w') = Ok true
        /\ fst (verifyOTP userId otp type w') = Ok true).
Proof.
  intro Hne. split.
  - intros w0 w3 w4 Hs Hl.
    destruct (undisturbed_ledger _ _ _ _ _ Hs) as (i & c & F).
    rewrite <- Hl in F.
    pose proof (filter_and3_split (otp_matches userId type)
                  (fun r => Js.eqb (Otp.otp r) other)
                  (fun r => clock w4 <? Otp.expires_at r) (otp_codes w4)) as S.
    rewrite F in S. simpl in S.
    assert (Hf : Js.eqb otp other = false) by (apply js_eqb_neq; congruence).
    rewrite Hf in S. simpl in S.
    destruct (verifyOTP_selected_none _ _ _ _ S) as (w' & Hv & T).
    exists w'. split; [exact Hv|]. destruct T as (_ & T & _). congruence.
  - intros w calls w' Hfl Hlife Hrun.
    destruct (overlapping_issuances_run userId other otp type w Hfl)
      as (w1 & Hrun1 & F & Hk & Hf1).
    rewrite Hrun in Hrun1. inversion Hrun1; subst calls w1. clear Hrun1.
    assert (Hok : calls_ok 3 w' = true) by (unfold calls_ok; now rewrite Hf1).
    assert (Hlive : (clock w' <? clock w + otpExpiryMinutes * 60000 + zoneLag)
                    = true) by (apply Z.ltb_lt; lia).
    split; [reflexivity|]. split.
    + pose proof (filter_and3_split (otp_matches userId type)
                    (fun r => Js.eqb (Otp.otp r) other)
                    (fun r => clock w' <? Otp.expires_at r) (otp_codes w')) as S.
      rewrite F in S. simpl in S. rewrite js_eqb_refl, Hlive in S. simpl in S.
      eapply verifyOTP_selected_some; eassumption.
    + pose proof (filter_and3_split (otp_matches userId type)
                    (fun r => Js.eqb (Otp.otp r) otp)
                    (fun r => clock w' <? Otp.expires_at r) (otp_codes w')) as S.
      rewrite F in S. simpl in S. rewrite js_eqb_refl, Hlive in S. simpl in S.
      destruct (Js.eqb other otp && true);
        eapply verifyOTP_selected_some; eassumption.
Qed.

(** [storeOTP] only touches the rows of its own pair: the rows of every
    other user or type are as they were, whether the call completes or
    not. *)
Lemma storeOTP_leaves_other_pairs userId otp type w userId' type' :
  (userId', type') <> (userId, type) ->
  filter (otp_matches userId' type')
         (otp_codes (snd (storeOTP userId otp type w)))
  = filter (otp_matches userId' type') (otp_codes w).
Proof.
  intro Hne.
  assert (Hdiff : forall r, otp_matches userId' type' r = true ->
                            otp_matches userId type r = false).
  { intros r H. destruct (otp_matches userId type r) eqn:E; auto.
    destruct (otp_matches_same _ _ _ _ _ E H) as [-> ->]. congruence. }
  assert (Hdel : forall l,
             filter (otp_matches userId' type')
               (filter (fun r => negb (otp_matches userId type r)) l)
             = filter (otp_matches userId' type') l).
  { induction l as [|a l IH]; simpl; auto.
    destruct (otp_matches userId type a) eqn:Ea; simpl.
    - destruct (otp_matches userId' type' a) eqn:Ea'; auto.
      rewrite (Hdiff a Ea') in Ea. discriminate.
    - destruct (otp_matches userId' type' a); now rewrite IH. }
  assert (Hfresh : forall i e c,
             otp_matches userId' type' (Otp.mk i userId otp type e c) = false).
  { intros. destruct (otp_matches userId' type' _) eqn:E; auto.
    apply Hdiff in E. now rewrite otp_matches_refl in E. }
  destruct w as [us os ps cs im sq ck fl tr]. unfold storeOTP. run.
  destruct fl as [|[] [|[] l]]; simpl; auto;
    rewrite filter_app, Hdel; simpl; rewrite Hfresh; apply app_nil_r.
Qed.

(** X3: The ledger invariant, at most one row per (user, type), is kept by
    every [storeOTP] that runs with no statement of another issuance
    between its two and by every [verifyOTP], completed or failed; two
    overlapping calls of [storeOTP] for one pair (DELETE, DELETE, INSERT,
    INSERT, no statement failing) break it. *)
Theorem ledger_unique_invariant userId otp type w :
  ledger_unique (otp_codes w) ->
  ledger_unique (otp_codes (snd (storeOTP userId otp type w)))
  /\ ledger_unique (otp_codes (snd (verifyOTP userId otp type w)))
  /\ (forall otp',
        faults w = [] ->
        ~ ledger_unique
            (otp_codes (snd (overlapping_issuances userId otp otp' type w)))).
Proof.
  intro H. split; [|split].
  - now apply storeOTP_keeps_ledger_unique.
  - now apply verifyOTP_keeps_ledger_unique.
  - intros otp' Hfl Hu.
    destruct (overlapping_issuances_run userId otp otp' type w Hfl)
      as (w' & Hrun & F & _).
    rewrite Hrun in Hu. simpl in Hu. specialize (Hu userId type).
    rewrite F in Hu. simpl in Hu. lia.
Qed.

End OtpRoundTrip.

(** X4: A code that matches no unexpired row of the pair is rejected, and
    nothing stored changes: the outstanding code stays usable. *)
Theorem verifyOTP_wrong_code_changes_nothing userId otp type w :
  (forall r, In r (otp_codes w) -> Otp.user_id r = userId -> Otp.type r = type ->
             clock w < Otp.expires_at r -> Otp.otp r <> otp) ->
  exists w', verifyOTP userId otp type w = (Ok false, w') /\ same_tables w w'.
Proof.
  intro H. apply verifyOTP_selected_none.
  destruct (filter _ (otp_codes w)) as [|r rest] eqn:E; auto.
  apply filter_nonempty_in in E as [Hin Hr].
  apply andb_prop in Hr as [Hr Ht]. apply andb_prop in Hr as [Hm Ho].
  unfold otp_matches in Hm. apply andb_prop in Hm as [Hu Hty].
  exfalso. apply (H r Hin).
  - now apply Z.eqb_eq.
  - destruct (Otp.type r), type; simpl in Hty; congruence.
  - now apply Z.ltb_lt.
  - now apply js_eqb_eq.
Qed.

Lemma Forall2_map_same {A} (P : A -> A -> Prop) (f : A -> A) (l : list A) :
  (forall a, P a (f a)) -> Forall2 P l (map f l).
Proof. intro H. induction l; simpl; constructor; auto. Qed.

Lemma same_account_refl u : same_account u u.
Proof. unfold same_account. auto. Qed.

(** X5: [verifyOTP] never removes a user, never changes an identity, an
    e-mail, a phone or a password hash, and never un-verifies anyone,
    whatever it returns. *)
Theorem verifyOTP_keeps_accounts userId otp type w :
  Forall2 same_account (users w) (users (snd (verifyOTP userId otp type w))).
Proof.
  assert (R : forall l, Forall2 same_account l l).
  { intro l. rewrite <- (map_id l) at 2.
    apply Forall2_map_same, same_account_refl. }
  destruct w as [us os ps cs im sq ck fl tr]. unfold verifyOTP. run.
  destruct fl as [|[] fl]; simpl; auto;
    match goal with
    | |- context [filter ?f os] => destruct (filter f os)
    end; simpl; auto.
  - apply Forall2_map_same. intro a.
    destruct (User.id a =? userId); [|apply same_account_refl].
    unfold same_account. simpl. auto.
  - destruct fl as [|[] [|[] fl]]; simpl; auto;
      apply Forall2_map_same; intro a;
      (destruct (User.id a =? userId); [|apply same_account_refl]);
      unfold same_account; simpl; auto.
Qed.

(** ** Coupons: the expiry sweep *)

Ltac prun :=
  unfold ptry, pbind, perform, pret, reply, lift, on_coupons, pnow, elapse;
  simpl.

Lemma due_true now c :
  due now c = true <->
  exists e, Coupon.expires_at c = Some e /\ e <= now
            /\ Coupon.is_expired c <> Some true.
Proof.
  unfold due. destruct (Coupon.expires_at c) as [e|];
    destruct (Coupon.is_expired c) as [[]|]; simpl;
    try destruct (e <=? now) eqn:E; simpl; split;
    try discriminate; try (intros (x & H & _); discriminate);
    try (intros (x & H1 & H2 & H3); congruence).
  all: try (intros _; exists e; repeat split; try discriminate;
            now apply Z.leb_le).
  all: intros (x & H1 & H2 & _); inversion H1; subst x;
    apply Z.leb_gt in E; lia.
Qed.

Lemma active_true now c :
  active now c = true <->
  exists e, Coupon.expires_at c = Some e /\ now < e
            /\ Coupon.is_expired c <> Some true.
Proof.
  unfold active. destruct (Coupon.expires_at c) as [e|];
    destruct (Coupon.is_expired c) as [[]|]; simpl;
    try destruct (now <? e) eqn:E; simpl; split;
    try discriminate; try (intros (x & H & _); discriminate);
    try (intros (x & H1 & H2 & H3); congruence).
  all: try (intros _; exists e; repeat split; try discriminate;
            now apply Z.ltb_lt).
  all: intros (x & H1 & H2 & _); inversion H1; subst x;
    apply Z.ltb_ge in E; lia.
Qed.

Lemma due_flag_expired now now' c : due now (flag_expired now' c) = false.
Proof.
  unfold due. simpl. destruct (Coupon.expires_at c) as [e|]; simpl; auto.
  destruct (e <=? now); reflexivity.
Qed.

(** The sweep as a function of the schedule: it returns normally in
    every case, and the table is swept unless its statement failed. *)
Lemma markExpiredCoupons_run b :
  exists b',
    markExpiredCoupons b = (Returned tt, b')
    /\ coupons (store b')
       = (if next_call_ok (store b)
          then swept (clock (store b)) (coupons (store b))
          else coupons (store b))
    /\ clock (store b') = clock (store b)
    /\ faults (store b') = tl (faults (store b))
    /\ users (store b') = users (store b)
    /\ assets (store b') = assets (store b)
    /\ trace (store b') = trace (store b)
    /\ coupons_id_seq b' = coupons_id_seq b.
Proof.
  destruct b as [[us os ps cs im sq ck fl tr] s1 s2 s3 sl ob st].
  unfold markExpiredCoupons, next_call_ok, swept. prun.
  destruct fl as [|[] fl]; simpl; eexists; (split; [reflexivity|]); simpl;
    repeat split.
Qed.

(** X6: A sweep whose statement does not fail returns normally; after it
    no stored coupon is past its [expires_at] and unflagged; every coupon
    that was not due, an already flagged one included, is stored exactly
    as before, and no coupon is added or removed. *)
Theorem sweep_flags_exactly_the_due_coupons b :
  next_call_ok (store b) = true ->
  exists b',
    markExpiredCoupons b = (Returned tt, b')
    /\ (forall c' e, In c' (coupons (store b')) ->
          Coupon.expires_at c' = Some e -> e <= clock (store b) ->
          Coupon.is_expired c' = Some true)
    /\ (forall c, In c (coupons (store b)) -> due (clock (store b)) c = false ->
          In c (coupons (store b')))
    /\ List.length (coupons (store b')) = List.length (coupons (store b)).
Proof.
  intro Hn. destruct (markExpiredCoupons_run b) as (b' & Hr & Hc & _).
  rewrite Hn in Hc. exists b'. split; [exact Hr|]. rewrite Hc. unfold swept.
  split; [|split].
  - intros c' e Hin He Hle. apply in_map_iff in Hin as (c & Hc' & _).
    destruct (due (clock (store b)) c) eqn:Hd; subst c'; [reflexivity|].
    destruct (Coupon.is_expired c) as [[]|] eqn:Hx; auto; exfalso;
      assert (Hdue : due (clock (store b)) c = true)
        by (apply due_true; exists e; rewrite Hx; repeat split;
            auto; discriminate);
      congruence.
  - intros c Hin Hd. apply in_map_iff. exists c. now rewrite Hd.
  - apply length_map.
Qed.

Lemma swept_twice now cs : swept now (swept now cs) = swept now cs.
Proof.
  unfold swept. rewrite map_map. apply map_ext. intro c.
  destruct (due now c) eqn:E.
  - now rewrite due_flag_expired.
  - now rewrite E.
Qed.

(** A second sweep at the same time changes nothing, whether it fails or
    not: in particular it does not move the [expired_at] of the coupons
    the first sweep flagged. *)
Lemma sweep_is_idempotent b b2 :
  next_call_ok (store b) = true ->
  coupons (store b2) = coupons (store (snd (markExpiredCoupons b))) ->
  clock (store b2) = clock (store b) ->
  coupons (store (snd (markExpiredCoupons b2))) = coupons (store b2).
Proof.
  intros Hn Hc Hk.
  destruct (markExpiredCoupons_run b) as (b1 & Hr1 & Hc1 & _).
  destruct (markExpiredCoupons_run b2) as (b3 & Hr3 & Hc3 & _).
  rewrite Hr1 in Hc. simpl in Hc. rewrite Hr3. simpl. rewrite Hc3.
  destruct (next_call_ok (store b2)); auto.
  rewrite Hn in Hc1. rewrite Hc, Hc1, Hk. apply swept_twice.
Qed.

(** ** Coupons: the lists *)

Lemma insert_by_recency_perm c l :
  Permutation.Permutation (insert_by_recency c l) (c :: l).
Proof.
  induction l as [|x l IH]; simpl; auto.
  destruct (Coupon.created_at x <? Coupon.created_at c); auto.
  eapply Permutation.perm_trans;
    [apply Permutation.perm_skip, IH|apply Permutation.perm_swap].
Qed.

Lemma by_recency_perm l : Permutation.Permutation (by_recency l) l.
Proof.
  induction l as [|c l IH]; simpl; auto.
  eapply Permutation.perm_trans;
    [apply insert_by_recency_perm|now apply Permutation.perm_skip].
Qed.

Lemma insert_by_recency_sorted c l :
  Sorted.Sorted newer_first l -> Sorted.Sorted newer_first (insert_by_recency c l).
Proof.
  induction l as [|x l IH]; simpl; intro H.
  - repeat constructor.
  - destruct (Coupon.created_at x <? Coupon.created_at c) eqn:E.
    + constructor; auto. constructor. unfold newer_first.
      apply Z.ltb_lt in E. lia.
    + apply Z.ltb_ge in E. inversion H as [|? ? Hs Hh]; subst.
      constructor; [now apply IH|].
      destruct l as [|y l]; simpl.
      * constructor. exact E.
      * destruct (Coupon.created_at y <? Coupon.created_at c).
        -- constructor. exact E.
        -- constructor. now inversion Hh.
Qed.

Lemma by_recency_sorted l : Sorted.Sorted newer_first (by_recency l).
Proof.
  induction l as [|c l IH]; simpl; [constructor|].
  now apply insert_by_recency_sorted.
Qed.

(** The two lists as functions of the schedule: the sweep's failure is
    swallowed, the SELECT's is answered 500. *)
Lemma get_active_coupons_run b :
  exists r b',
    get_active_coupons b = (Returned r, b')
    /\ clock (store b') = clock (store b)
    /\ (coupons (store b') = coupons (store b)
        \/ coupons (store b') = swept (clock (store b)) (coupons (store b)))
    /\ (r = fetch_failed
        \/ r = mkReply 200
                 (CouponList
                    (map (returning (clock (store b)))
                       (by_recency
                          (filter (active (clock (store b)))
                                  (coupons (store b'))))))).
Proof.
  destruct b as [[us os ps cs im sq ck fl tr] s1 s2 s3 sl ob st].
  unfold get_active_coupons, markExpiredCoupons, fetch_failed, swept. prun.
  destruct fl as [|[] [|[] fl]]; simpl; eexists; eexists;
    (split; [reflexivity|]); simpl; auto.
Qed.

Lemma get_all_coupons_run b :
  exists r b',
    get_all_coupons b = (Returned r, b')
    /\ clock (store b') = clock (store b)
    /\ (coupons (store b') = coupons (store b)
        \/ coupons (store b') = swept (clock (store b)) (coupons (store b)))
    /\ (r = fetch_failed
        \/ r = mkReply 200
                 (CouponList
                    (map (returning (clock (store b)))
                       (by_recency (coupons (store b')))))).
Proof.
  destruct b as [[us os ps cs im sq ck fl tr] s1 s2 s3 sl ob st].
  unfold get_all_coupons, markExpiredCoupons, fetch_failed, swept. prun.
  destruct fl as [|[] [|[] fl]]; simpl; eexists; eexists;
    (split; [reflexivity|]); simpl; auto.
Qed.

Lemma Sorted_map_row now l :
  Sorted.Sorted newer_first l ->
  Sorted.Sorted (fun a b => newer_first (row a) (row b)) (map (returning now) l).
Proof.
  induction 1 as [|c l Hs IH Hh]; simpl; constructor; auto.
  destruct Hh; simpl; constructor; auto.
Qed.

(** X7: The list of active coupons, when it is answered 200, holds exactly
    the stored coupons that are unflagged and whose [expires_at] is still
    ahead, newest first, each shown as not expired with the time it has
    left; this does not depend on the sweep having succeeded. *)
Theorem active_list_is_the_unexpired_coupons b r b' :
  get_active_coupons b = (Returned r, b') ->
  reply_status r = 200 ->
  exists rows,
    payload r = CouponList rows
    /\ Sorted.Sorted (fun a b => newer_first (row a) (row b)) rows
    /\ (forall j, In j rows ->
          In (row j) (coupons (store b'))
          /\ Coupon.is_expired (row j) <> Some true
          /\ computed_is_expired j = false
          /\ exists e, Coupon.expires_at (row j) = Some e
                       /\ clock (store b) < e
                       /\ ms_remaining j = Some (e - clock (store b)))
    /\ (forall c, In c (coupons (store b')) ->
          active (clock (store b)) c = true ->
          In (returning (clock (store b)) c) rows).
Proof.
  intros Hrun H200.
  destruct (get_active_coupons_run b) as (r0 & b0 & Hr & _ & _ & Hcase).
  rewrite Hrun in Hr. inversion Hr; subst r0 b0. clear Hr.
  destruct Hcase as [->| ->]; [discriminate H200|].
  eexists. split; [reflexivity|]. split; [|split].
  - apply Sorted_map_row, by_recency_sorted.
  - intros j Hj. apply in_map_iff in Hj as (c & <- & Hc).
    apply (Permutation.Permutation_in _ (by_recency_perm _)) in Hc.
    apply filter_In in Hc as [Hin Ha].
    apply active_true in Ha as (e & He & Hlt & Hx).
    simpl. repeat split; auto.
    + rewrite He. apply Z.leb_gt. lia.
    + exists e. rewrite He. simpl. auto.
  - intros c Hin Ha. apply in_map.
    apply (Permutation.Permutation_in _
             (Permutation.Permutation_sym (by_recency_perm _))).
    apply filter_In. auto.
Qed.

(** X8: The list of all coupons, when it is answered 200, is the stored
    table, newest first, none missing and none twice; a coupon whose
    [expires_at] has passed is shown as expired, whether or not the sweep
    managed to flag it. *)
Theorem full_list_shows_every_coupon b r b' :
  get_all_coupons b = (Returned r, b') ->
  reply_status r = 200 ->
  exists rows,
    payload r = CouponList rows
    /\ Sorted.Sorted (fun a b => newer_first (row a) (row b)) rows
    /\ Permutation.Permutation (map row rows) (coupons (store b'))
    /\ (forall j e, In j rows -> Coupon.expires_at (row j) = Some e ->
          computed_is_expired j = (e <=? clock (store b))).
Proof.
  intros Hrun H200.
  destruct (get_all_coupons_run b) as (r0 & b0 & Hr & _ & _ & Hcase).
  rewrite Hrun in Hr. inversion Hr; subst r0 b0. clear Hr.
  destruct Hcase as [->| ->]; [discriminate H200|].
  eexists. split; [reflexivity|]. split; [|split].
  - apply Sorted_map_row, by_recency_sorted.
  - rewrite map_map. simpl. rewrite map_id. apply by_recency_perm.
  - intros j e Hj He. apply in_map_iff in Hj as (c & <- & _).
    simpl in *. now rewrite He.
Qed.

(** ** Coupons: the counts *)

Lemma active_or_expired now c :
  active now c && counted_expired now c = false
  /\ (Coupon.expires_at c <> None ->
      active now c || counted_expired now c = true).
Proof.
  unfold active, counted_expired.
  destruct (Coupon.expires_at c) as [e|];
    destruct (Coupon.is_expired c) as [[]|]; simpl;
    try (destruct (now <? e) eqn:E1; destruct (e <=? now) eqn:E2; simpl;
         try apply Z.ltb_lt in E1; try apply Z.ltb_ge in E1;
         try apply Z.leb_le in E2; try apply Z.leb_gt in E2;
         split; auto; try lia);
    split; auto; congruence.
Qed.

Lemma count_split {A} (f g : A -> bool) (l : list A) :
  (forall a, f a && g a = false) ->
  (List.length (filter f l) + List.length (filter g l) <= List.length l)%nat
  /\ ((forall a, In a l -> f a || g a = true) ->
      (List.length (filter f l) + List.length (filter g l) = List.length l)%nat).
Proof.
  intro Hd. induction l as [|a l [IH1 IH2]]; simpl; [auto|].
  specialize (Hd a). split.
  - destruct (f a), (g a); simpl in *; try discriminate; lia.
  - intro Hc. assert (Ha := Hc a (or_introl eq_refl)).
    assert (IH := IH2 (fun x Hx => Hc x (or_intror Hx))).
    destruct (f a), (g a); simpl in *; try discriminate; lia.
Qed.

Lemma get_coupon_counts_run b :
  exists r b',
    get_coupon_counts b = (Returned r, b')
    /\ clock (store b') = clock (store b)
    /\ (coupons (store b') = coupons (store b)
        \/ coupons (store b') = swept (clock (store b)) (coupons (store b)))
    /\ (r = mkReply 500 (Plain (Error (js "Failed to fetch coupon counts")))
        \/ r = mkReply 200
                 (Counts
                    (count_where (fun _ => true) (coupons (store b')))
                    (count_where (active (clock (store b))) (coupons (store b')))
                    (count_where (counted_expired (clock (store b)))
                                 (coupons (store b'))))).
Proof.
  destruct b as [[us os ps cs im sq ck fl tr] s1 s2 s3 sl ob st].
  unfold get_coupon_counts, markExpiredCoupons, swept. prun.
  destruct fl as [|[] [|[] fl]]; simpl; eexists; eexists;
    (split; [reflexivity|]); simpl; auto.
Qed.

(** X9: The counts, when answered 200: [total] is the number of stored
    coupons; no coupon is counted both active and expired, so
    [active + expired <= total]; the two add up to the total when every
    stored coupon has an [expires_at], while a coupon without one that is
    not flagged is counted in neither. *)
Theorem counts_partition_the_coupons b r b' :
  get_coupon_counts b = (Returned r, b') ->
  reply_status r = 200 ->
  exists total n_active n_expired,
    payload r = Counts total n_active n_expired
    /\ total = Z.of_nat (List.length (coupons (store b')))
    /\ 0 <= n_active /\ 0 <= n_expired
    /\ n_active + n_expired <= total
    /\ ((forall c, In c (coupons (store b')) -> Coupon.expires_at c <> None) ->
        n_active + n_expired = total).
Proof.
  intros Hrun H200.
  destruct (get_coupon_counts_run b) as (r0 & b0 & Hr & _ & _ & Hcase).
  rewrite Hrun in Hr. inversion Hr; subst r0 b0. clear Hr.
  destruct Hcase as [->| ->]; [discriminate H200|].
  do 3 eexists. split; [reflexivity|]. unfold count_where.
  destruct (count_split (active (clock (store b)))
              (counted_expired (clock (store b))) (coupons (store b'))
              (fun c => proj1 (active_or_expired _ c))) as [Hle Heq].
  rewrite filter_true. repeat split; try lia.
  intro Hall. rewrite <- Nat2Z.inj_add. f_equal. apply Heq.
  intros c Hin. apply active_or_expired. auto.
Qed.

Example unflagged_coupon_without_expiry_is_in_neither_count :
  let c := Coupon.mk 9 (js "Acme") (js "OPEN") None None (js "all") (js "soon")
             None None None None None 0 0 in
  active 100 c = false /\ counted_expired 100 c = false.
Proof. split; reflexivity. Qed.

(** ** Coupons: create *)

Lemma missing_field_condition req :
  negb (truthy_opt (brandName req)) || negb (truthy_opt (couponId req))
  || negb (truthy_opt (audience req)) || negb (truthy_opt (duration req))
  = negb (has_required_fields req).
Proof.
  unfold has_required_fields.
  destruct (truthy_opt (brandName req)), (truthy_opt (couponId req)),
    (truthy_opt (audience req)), (truthy_opt (duration req)); reflexivity.
Qed.

Lemma discard_upload_run file w :
  exists w',
    discard_upload file w = (Ok tt, w')
    /\ trace w' = trace w ++ discard_calls file
    /\ users w' = users w /\ otp_codes w' = otp_codes w
    /\ users_profiles w' = users_profiles w /\ coupons w' = coupons w
    /\ clock w' = clock w.
Proof.
  destruct w as [us os ps cs im sq ck fl tr].
  unfold discard_upload, discard_calls, deleteCloudinaryImage. run.
  destruct file as [f|]; [destruct (truthy (filename f))|];
    try (destruct fl as [|[] fl]); simpl; eexists; (split; [reflexivity|]);
    simpl; rewrite ?app_nil_r; repeat split.
Qed.

Lemma post_coupon_missing_run req file b :
  has_required_fields req = false ->
  exists b',
    post_coupon req file b
    = (Returned (mkReply 400 (Plain (Error (js "Missing required fields")))), b')
    /\ coupons (store b') = coupons (store b)
    /\ statements b' = statements b
    /\ trace (store b') = trace (store b) ++ discard_calls file
    /\ clock (store b') = clock (store b).
Proof.
  intro H. unfold post_coupon. rewrite missing_field_condition, H. simpl.
  destruct (discard_upload_run file (store b)) as (w' & Hd & Ht & _ & _ & _ & Hc & Hk).
  prun. rewrite Hd. eexists. split; [reflexivity|]. simpl. auto.
Qed.

(** X10: A create request that lacks a required field, or has it empty, is
    answered 400 "Missing required fields": no statement reaches the
    database, the coupons are as they were, and the uploaded image, if
    any, is discarded with exactly one asset-delete call. *)
Theorem create_rejects_missing_fields req file b :
  has_required_fields req = false ->
  exists b',
    post_coupon req file b
    = (Returned (mkReply 400 (Plain (Error (js "Missing required fields")))), b')
    /\ coupons (store b') = coupons (store b)
    /\ statements b' = statements b
    /\ trace (store b') = trace (store b) ++ discard_calls file.
Proof.
  intro H. destruct (post_coupon_missing_run req file b H)
    as (b' & Hr & Hc & Hs & Ht & _).
  exists b'. auto.
Qed.

Lemma existsb_has_coupon_id id cs :
  existsb (has_coupon_id id) cs = true <-> In id (map Coupon.coupon_id cs).
Proof.
  rewrite existsb_exists, in_map_iff. unfold has_coupon_id.
  split; intros (c & H1 & H2); exists c.
  - apply js_eqb_eq in H2. auto.
  - split; auto. now apply js_eqb_eq.
Qed.

(** The create handler as a function of the schedule and the table. *)
Lemma post_coupon_run req file b :
  has_required_fields req = true ->
  let id := or_else (couponId req) [] in
  let now := clock (store b) in
  let values :=
    mkCouponUpdate (or_else (brandName req) [])
      (or_null (bogo req)) (or_null (discount req))
      (or_else (audience req) []) (or_else (duration req) [])
      (option_map path file) (option_map filename file)
      (Some (calculateExpirationDate now (or_else (duration req) [])))
      (Some false) in
  let c := inserted_coupon (coupons_id_seq b) now id values in
  exists r b',
    post_coupon req file b = (Returned r, b')
    /\ (if next_call_ok (store b) then
          if existsb (has_coupon_id id) (coupons (store b)) then
            r = mkReply 400 (Plain (Error (js "Coupon ID already exists")))
            /\ coupons (store b') = coupons (store b)
            /\ trace (store b') = trace (store b) ++ discard_calls file
          else
            r = mkReply 201 (Plain (CouponRow (Some (returning now c))))
            /\ coupons (store b') = coupons (store b) ++ [c]
            /\ trace (store b') = trace (store b)
        else
          r = mkReply 500 (Plain (Error (js "Failed to create coupon")))
          /\ coupons (store b') = coupons (store b)
          /\ trace (store b') = trace (store b) ++ discard_calls file)
    /\ clock (store b') = clock (store b).
Proof.
  intro H. unfold post_coupon. rewrite missing_field_condition, H. simpl.
  destruct b as [[us os ps cs im sq ck fl tr] s1 s2 s3 sl ob st].
  unfold next_call_ok. prun.
  destruct fl as [|[] fl]; simpl.
  - destruct (existsb _ cs) eqn:E; simpl.
    + match goal with
      | |- context [discard_upload file ?w] =>
          destruct (discard_upload_run file w) as (w' & Hd & Ht & _ & _ & _ & Hc & Hk)
      end.
      rewrite Hd. simpl. eexists. eexists. split; [reflexivity|]. simpl. auto.
    + eexists. eexists. split; [reflexivity|]. simpl. auto.
  - match goal with
    | |- context [discard_upload file ?w] =>
        destruct (discard_upload_run file w) as (w' & Hd & Ht & _ & _ & _ & Hc & Hk)
    end.
    rewrite Hd. simpl. eexists. eexists. split; [reflexivity|]. simpl. auto.
  - destruct (existsb _ cs) eqn:E; simpl.
    + match goal with
      | |- context [discard_upload file ?w] =>
          destruct (discard_upload_run file w) as (w' & Hd & Ht & _ & _ & _ & Hc & Hk)
      end.
      rewrite Hd. simpl. eexists. eexists. split; [reflexivity|]. simpl. auto.
    + eexists. eexists. split; [reflexivity|]. simpl. auto.
Qed.

(** X11: A create request whose coupon id is already stored is answered 400
    "Coupon ID already exists" (the INSERT not failing otherwise): the
    table is as it was and the uploaded image is discarded. *)
Theorem create_rejects_a_taken_id req file b :
  has_required_fields req = true ->
  In (or_else (couponId req) []) (map Coupon.coupon_id (coupons (store b))) ->
  next_call_ok (store b) = true ->
  exists b',
    post_coupon req file b
    = (Returned (mkReply 400 (Plain (Error (js "Coupon ID already exists")))), b')
    /\ coupons (store b') = coupons (store b)
    /\ trace (store b') = trace (store b) ++ discard_calls file.
Proof.
  intros Hf Hin Hn.
  destruct (post_coupon_run req file b Hf) as (r & b' & Hr & Hcase & _).
  rewrite Hn in Hcase. apply existsb_has_coupon_id in Hin. rewrite Hin in Hcase.
  destruct Hcase as (-> & Hc & Ht). exists b'. auto.
Qed.

(** X12: A create request with its required fields and a fresh coupon id (the
    INSERT not failing) is answered 201: one row is added, unflagged,
    with [expires_at] computed from the duration at the time of the
    request; the answer shows the coupon as expired exactly when the
    duration parses to no minutes at all. *)
Theorem create_stores_an_unflagged_coupon req file b :
  has_required_fields req = true ->
  ~ In (or_else (couponId req) []) (map Coupon.coupon_id (coupons (store b))) ->
  next_call_ok (store b) = true ->
  exists b' c j,
    post_coupon req file b
    = (Returned (mkReply 201 (Plain (CouponRow (Some j)))), b')
    /\ coupons (store b') = coupons (store b) ++ [c]
    /\ row j = c
    /\ Coupon.coupon_id c = or_else (couponId req) []
    /\ Coupon.duration c = or_else (duration req) []
    /\ Coupon.is_expired c = Some false
    /\ Coupon.expires_at c
       = Some (calculateExpirationDate (clock (store b))
                 (or_else (duration req) []))
    /\ Coupon.image_public_id c = option_map filename file
    /\ computed_is_expired j
       = (totalMinutes (or_else (duration req) []) <=? 0).
Proof.
  intros Hf Hin Hn.
  destruct (post_coupon_run req file b Hf) as (r & b' & Hr & Hcase & _).
  rewrite Hn in Hcase.
  destruct (existsb _ (coupons (store b))) eqn:E.
  - apply existsb_has_coupon_id in E. contradiction.
  - destruct Hcase as (-> & Hc & _).
    eexists. eexists. eexists. split; [exact Hr|]. split; [exact Hc|].
    simpl. repeat split. unfold calculateExpirationDate.
    destruct (totalMinutes _ <=? 0) eqn:T.
    + apply Z.leb_le in T. apply Z.leb_le. lia.
    + apply Z.leb_gt in T. apply Z.leb_gt. lia.
Qed.

(** Create never stores a second row with a coupon id that is already
    there, whatever fails. *)
Lemma create_keeps_coupon_ids_unique req file b :
  unique_coupon_ids (coupons (store b)) ->
  unique_coupon_ids (coupons (store (snd (post_coupon req file b)))).
Proof.
  intro Hu. destruct (has_required_fields req) eqn:Hf.
  - destruct (post_coupon_run req file b Hf) as (r & b' & Hr & Hcase & _).
    rewrite Hr. simpl.
    destruct (next_call_ok (store b)).
    + destruct (existsb _ (coupons (store b))) eqn:E.
      * destruct Hcase as (_ & -> & _). exact Hu.
      * destruct Hcase as (_ & -> & _). unfold unique_coupon_ids.
        rewrite map_app. simpl.
        apply NoDup_app_remove_l with (l := []). simpl.
        apply Permutation.Permutation_NoDup with
          (l := or_else (couponId req) [] :: map Coupon.coupon_id (coupons (store b))).
        -- apply Permutation.Permutation_cons_append.
        -- constructor; auto. intro Hin.
           apply existsb_has_coupon_id in Hin. congruence.
    + destruct Hcase as (_ & -> & _). exact Hu.
  - destruct (post_coupon_missing_run req file b Hf) as (b' & Hr & Hc & _).
    rewrite Hr. simpl. now rewrite Hc.
Qed.

(** ** Coupons: read one *)

Lemma calls_ok_2 fl :
  forallb negb (firstn 2 fl) = true ->
  fl = [] \/ fl = [false] \/ exists rest, fl = false :: false :: rest.
Proof.
  destruct fl as [|[] [|[] rest]]; simpl; try discriminate; eauto.
Qed.

(** X13: Reading one coupon (neither statement failing) shows it as expired
    exactly when its [expires_at] has passed by the time of the handler's
    check; but the stored flag is written only for a coupon that expired
    between the SELECT and that check. A coupon that was already past its
    [expires_at] at the SELECT is shown as expired and left unflagged in
    the store. *)
Theorem read_flags_only_what_expired_meanwhile elapsed id c rest e b :
  filter (has_coupon_id id) (coupons (store b)) = c :: rest ->
  Coupon.expires_at c = Some e ->
  calls_ok 2 (store b) = true ->
  exists j b',
    get_coupon elapsed id b
    = (Returned (mkReply 200 (Plain (CouponRow (Some j)))), b')
    /\ row j = c
    /\ computed_is_expired j
       = ((e <=? clock (store b)) || (e <=? clock (store b) + elapsed))
    /\ coupons (store b')
       = if (clock (store b) <? e) && (e <=? clock (store b) + elapsed)
         then map (fun x => if has_coupon_id id x
                            then flag_expired (clock (store b) + elapsed) x
                            else x)
                  (coupons (store b))
         else coupons (store b).
Proof.
  destruct b as [[us os ps cs im sq ck fl tr] s1 s2 s3 sl ob st].
  unfold calls_ok. simpl. intros Hc He Hok.
  unfold get_coupon. prun.
  destruct (calls_ok_2 fl Hok) as [->|[->|[l ->]]]; simpl; rewrite Hc; simpl;
    rewrite He; simpl;
    rewrite (Z.leb_antisym ck e);
    destruct (ck <? e) eqn:E1; destruct (e <=? ck + elapsed) eqn:E2; simpl;
    eexists; eexists; (split; [reflexivity|]); simpl; rewrite ?He; simpl;
    rewrite ?(Z.leb_antisym ck e), ?E1; simpl; auto.
Qed.

(** ** Coupons: the cleanup of old expired coupons *)

Lemma filter_sublist_in {A} (f : A -> bool) l a : In a (filter f l) -> In a l.
Proof. intro H. now apply filter_In in H. Qed.

(** One turn of the loop: it returns normally whatever fails, removes
    nothing but rows of the coupon's id, and touches nothing else. *)
Lemma purge_run c w :
  exists w',
    purge c w = (Ok tt, w')
    /\ clock w' = clock w
    /\ (coupons w' = coupons w
        \/ coupons w'
           = filter (fun x => negb (has_coupon_id (Coupon.coupon_id c) x)) (coupons w))
    /\ (faults w = [] ->
        faults w' = []
        /\ coupons w'
           = filter (fun x => negb (has_coupon_id (Coupon.coupon_id c) x)) (coupons w)
        /\ trace w' = trace w ++ purge_calls c).
Proof.
  destruct w as [us os ps cs im sq ck fl tr].
  unfold purge, purge_calls, deleteCloudinaryImage. run.
  destruct (truthy_opt (Coupon.image_public_id c));
    destruct fl as [|[] [|[] fl]]; simpl; eexists; (split; [reflexivity|]);
    simpl; repeat split; auto; try discriminate; now rewrite <- app_assoc.
Qed.

Lemma purge_all_run rows : forall w,
  exists w',
    purge_all rows w = (Ok tt, w')
    /\ clock w' = clock w
    /\ (forall x, In x (coupons w') -> In x (coupons w))
    /\ (forall x, In x (coupons w) ->
          ~ In (Coupon.coupon_id x) (map Coupon.coupon_id rows) ->
          In x (coupons w'))
    /\ (faults w = [] ->
        faults w' = []
        /\ (forall x, In x (coupons w') ->
              ~ In (Coupon.coupon_id x) (map Coupon.coupon_id rows))
        /\ trace w' = trace w ++ flat_map purge_calls rows).
Proof.
  induction rows as [|c rows IH]; intro w; simpl.
  - exists w. unfold ret. repeat split; auto. now rewrite app_nil_r.
  - destruct (purge_run c w) as (w1 & Hp & Hk1 & Hc1 & Hf1).
    destruct (IH w1) as (w2 & Hr & Hk2 & Hsub & Hkeep & Hf2).
    exists w2. unfold bind. rewrite Hp, Hr.
    split; [reflexivity|]. split; [congruence|].
    assert (Hsub1 : forall x, In x (coupons w1) -> In x (coupons w)).
    { destruct Hc1 as [-> | ->]; auto. intros x. apply filter_sublist_in. }
    split; [auto|]. split.
    + intros x Hin Hnot. apply Hkeep.
      * destruct Hc1 as [-> | ->]; auto. apply filter_In. split; auto.
        unfold has_coupon_id.
        destruct (Js.eqb (Coupon.coupon_id x) (Coupon.coupon_id c)) eqn:E; auto.
        apply js_eqb_eq in E. exfalso. apply Hnot. left. congruence.
      * intro H. apply Hnot. now right.
    + intro Hfl. destruct (Hf1 Hfl) as (Hfl1 & Hc1' & Ht1).
      destruct (Hf2 Hfl1) as (Hfl2 & Hgone & Ht2).
      split; [auto|]. split.
      * intros x Hin [Heq|Hin']; [|now apply (Hgone x)].
        apply Hsub in Hin. rewrite Hc1' in Hin. apply filter_In in Hin as [_ Hx].
        unfold has_coupon_id in Hx. rewrite Heq, js_eqb_refl in Hx. discriminate.
      * rewrite Ht2, Ht1. now rewrite <- app_assoc.
Qed.

Lemma unique_ids_same_row cs a b :
  unique_coupon_ids cs -> In a cs -> In b cs ->
  Coupon.coupon_id a = Coupon.coupon_id b -> a = b.
Proof.
  unfold unique_coupon_ids. induction cs as [|x cs IH]; simpl; [tauto|].
  intros Hn Ha Hb E. inversion Hn as [|? ? Hx Hn']; subst.
  destruct Ha as [->|Ha], Hb as [->|Hb]; auto.
  - exfalso. apply Hx. rewrite E. now apply in_map.
  - exfalso. apply Hx. rewrite <- E. now apply in_map.
Qed.

Lemma cleanupOldExpiredCoupons_run daysOld b :
  let rows := filter (old_expired (clock (store b)) daysOld) (coupons (store b)) in
  exists b',
    cleanupOldExpiredCoupons daysOld b = (Returned tt, b')
    /\ (forall x, In x (coupons (store b')) -> In x (coupons (store b)))
    /\ (forall x, In x (coupons (store b)) ->
          ~ In (Coupon.coupon_id x) (map Coupon.coupon_id rows) ->
          In x (coupons (store b')))
    /\ (faults (store b) = [] ->
        (forall x, In x (coupons (store b')) ->
           ~ In (Coupon.coupon_id x) (map Coupon.coupon_id rows))
        /\ trace (store b') = trace (store b) ++ flat_map purge_calls rows).
Proof.
  destruct b as [[us os ps cs im sq ck fl tr] s1 s2 s3 sl ob st].
  unfold cleanupOldExpiredCoupons. prun.
  destruct fl as [|[] fl]; simpl.
  - destruct (filter _ cs) as [|c rows] eqn:E.
    + eexists. split; [reflexivity|]. simpl. repeat split; auto.
      now rewrite app_nil_r.
    + match goal with
      | |- context [purge_all ?l ?w] =>
          destruct (purge_all_run l w) as (w' & Hr & _ & Hsub & Hkeep & Hf)
      end.
      rewrite Hr. eexists. split; [reflexivity|]. simpl in *.
      split; [auto|]. split; [auto|]. intros _.
      destruct (Hf eq_refl) as (_ & Hgone & Ht). auto.
  - eexists. split; [reflexivity|]. simpl. repeat split; auto; discriminate.
  - destruct (filter _ cs) as [|c rows] eqn:E.
    + eexists. split; [reflexivity|]. simpl. repeat split; auto; discriminate.
    + match goal with
      | |- context [purge_all ?l ?w] =>
          destruct (purge_all_run l w) as (w' & Hr & _ & Hsub & Hkeep & Hf)
      end.
      rewrite Hr. eexists. split; [reflexivity|]. simpl in *.
      split; [auto|]. split; [auto|]. discriminate.
Qed.

(** X14: The cleanup never lets an exception out, never adds or alters a
    coupon, and, the coupon ids being unique, never deletes a coupon that
    is not flagged expired for at least [daysOld] days, whatever fails. *)
Theorem cleanup_only_deletes_old_expired_coupons daysOld b :
  unique_coupon_ids (coupons (store b)) ->
  exists b',
    cleanupOldExpiredCoupons daysOld b = (Returned tt, b')
    /\ (forall x, In x (coupons (store b')) -> In x (coupons (store b)))
    /\ (forall x, In x (coupons (store b)) ->
          old_expired (clock (store b)) daysOld x = false ->
          In x (coupons (store b'))).
Proof.
  intro Hu.
  destruct (cleanupOldExpiredCoupons_run daysOld b) as (b' & Hr & Hsub & Hkeep & _).
  exists b'. split; [exact Hr|]. split; [exact Hsub|].
  intros x Hin Hold. apply Hkeep; auto.
  intro Hid. apply in_map_iff in Hid as (y & Hy & Hyin).
  apply filter_In in Hyin as [Hyin Hyold].
  assert (y = x) by (eapply unique_ids_same_row; eauto). congruence.
Qed.

(** X15: When no call fails, the cleanup leaves no coupon that is flagged
    expired for [daysOld] days or more, and it issues, coupon by coupon
    in table order, the asset-delete call (if the coupon has an image)
    and then the row deletion. *)
Theorem cleanup_purges_every_old_expired_coupon daysOld b :
  faults (store b) = [] ->
  exists b',
    cleanupOldExpiredCoupons daysOld b = (Returned tt, b')
    /\ (forall x, In x (coupons (store b')) ->
          old_expired (clock (store b)) daysOld x = false)
    /\ trace (store b')
       = trace (store b)
         ++ flat_map purge_calls
              (filter (old_expired (clock (store b)) daysOld) (coupons (store b))).
Proof.
  intro Hf.
  destruct (cleanupOldExpiredCoupons_run daysOld b) as (b' & Hr & Hsub & _ & Hall).
  destruct (Hall Hf) as (Hgone & Ht).
  exists b'. split; [exact Hr|]. split; [|exact Ht].
  intros x Hin. destruct (old_expired (clock (store b)) daysOld x) eqn:E; auto.
  exfalso. apply (Hgone x Hin). apply in_map. apply filter_In. auto.
Qed.

(** X16: A cleanup request with [daysOld] absent or 0 runs with the default of
    7 days: it is answered 200 and, the coupon ids being unique, cannot
    delete a coupon that was flagged less than 7 days ago. *)
Theorem cleanup_request_defaults_to_seven_days daysOld b x t :
  daysOld = None \/ daysOld = Some 0 ->
  unique_coupon_ids (coupons (store b)) ->
  In x (coupons (store b)) ->
  Coupon.expired_at x = Some t ->
  clock (store b) - 7 * 86400000 < t ->
  exists b',
    post_cleanup_old_expired daysOld b
    = (Returned
         (mkReply 200
            (Plain (Message
               (js "Old expired coupons cleanup completed successfully (7 days old)")))),
       b')
    /\ In x (coupons (store b')).
Proof.
  intros Hd Hu Hin Ht Hlt.
  assert (E : days_or_default daysOld = 7) by (destruct Hd; subst; reflexivity).
  destruct (cleanupOldExpiredCoupons_run 7 b) as (b' & Hr & _ & Hkeep & _).
  exists b'. split.
  - unfold post_cleanup_old_expired. rewrite E. unfold ptry, pbind, pret, reply.
    rewrite Hr. reflexivity.
  - apply Hkeep; auto. intro Hid.
    apply in_map_iff in Hid as (y & Hy & Hyin).
    apply filter_In in Hyin as [Hyin Hyold].
    assert (y = x) by (eapply unique_ids_same_row; eauto). subst y.
    unfold old_expired in Hyold. rewrite Ht in Hyold.
    remember (clock (store b) - 7 * 86400000) as lim eqn:Hlim.
    unfold Sql.le in Hyold.
    destruct (t <=? lim) eqn:L.
    + apply Z.leb_le in L. lia.
    + destruct (Coupon.is_expired x) as [[]|]; discriminate Hyold.
Qed.

(** ** Coupons: update, further cases *)

(** An update of a coupon id that is not stored (the SELECT not failing)
    is answered 404 "Coupon not found": the table is as it was and the
    uploaded image, if any, is discarded. *)
Lemma update_of_a_missing_coupon id req file w :
  filter (has_coupon_id id) (coupons w) = [] ->
  next_call_ok w = true ->
  exists w',
    put_coupon id req file w
    = (Ok (mkResponse 404 (Error (js "Coupon not found"))), w')
    /\ coupons w' = coupons w
    /\ trace w' = trace w ++ SelectCoupon id :: discard_calls file.
Proof.
  destruct w as [us os ps cs im sq ck fl tr]. unfold next_call_ok. simpl.
  intros Hc Hn. unfold put_coupon. run.
  destruct fl as [|[] fl]; try discriminate; simpl; rewrite Hc; simpl;
    match goal with
    | |- context [discard_upload file ?w] =>
        destruct (discard_upload_run file w) as (w' & Hd & Ht & _ & _ & _ & Hk & _)
    end;
    rewrite Hd; simpl; eexists; (split; [reflexivity|]); simpl in *;
    rewrite Ht, <- app_assoc; auto.
Qed.

(** X17: An update cannot blank a field: with no new image, every field the
    request leaves out or supplies empty keeps its stored value, the
    brand name and the duration included; such an update (answered 200)
    changes nothing of the coupon but [updated_at]. *)
Theorem update_with_blank_fields_keeps_the_row id req c rest w r w' :
  filter (has_coupon_id id) (coupons w) = c :: rest ->
  truthy_opt (brandName req) = false -> truthy_opt (bogo req) = false ->
  truthy_opt (discount req) = false -> truthy_opt (audience req) = false ->
  truthy_opt (duration req) = false ->
  put_coupon id req None w = (Ok r, w') ->
  status r = 200 ->
  In (Coupon.mk (Coupon.id c) (Coupon.brand_name c) (Coupon.coupon_id c)
        (Coupon.bogo c) (Coupon.discount c) (Coupon.audience c)
        (Coupon.duration c) (Coupon.image_url c) (Coupon.image_public_id c)
        (Coupon.expires_at c) (Coupon.is_expired c) (Coupon.expired_at c)
        (Coupon.created_at c) (clock w))
     (coupons w').
Proof.
  intros Hc H1 H2 H3 H4 H5 Hput H200.
  rewrite (put_coupon_200 _ _ _ _ _ _ _ _ Hc Hput H200).
  destruct (filter_nonempty_in _ _ _ _ Hc) as [Hin Hid].
  apply in_map_iff. exists c. split; auto. rewrite Hid.
  unfold apply_update, update_values, or_else_opt. simpl.
  rewrite H2, H3, H5. simpl.
  assert (O : forall a b, truthy_opt a = false -> or_else a b = b).
  { intros [a|] b0 H; simpl in *; auto. now rewrite H. }
  now rewrite (O _ _ H1), (O _ _ H4), (O _ _ H5).
Qed.

(** X18: When an update brings a new image for a coupon that has one, the old
    asset is deleted before the UPDATE; if the UPDATE then fails, the
    handler deletes the new asset as well and answers 500: the row still
    names the old image, and neither asset exists any more. *)
Theorem failed_update_loses_both_images id req f c rest p tail w :
  filter (has_coupon_id id) (coupons w) = c :: rest ->
  Coupon.image_public_id c = Some p -> truthy p = true ->
  truthy (filename f) = true ->
  faults w = false :: false :: true :: false :: tail ->
  exists w',
    put_coupon id req (Some f) w
    = (Ok (mkResponse 500 (Error (js "Failed to update coupon"))), w')
    /\ coupons w' = coupons w
    /\ (forall a, In a (assets w') -> a <> p /\ a <> filename f)
    /\ trace w'
       = trace w ++ [SelectCoupon id; CloudinaryDestroy p;
                     UpdateCoupon id (update_values (clock w) req (Some f) c);
                     CloudinaryDestroy (filename f)].
Proof.
  destruct w as [us os ps cs im sq ck fl tr]. simpl.
  intros Hc Hp Htp Htf ->.
  unfold put_coupon, discard_upload, deleteCloudinaryImage. run.
  rewrite Hc. simpl. rewrite Hp. simpl. rewrite Htp, Htf. simpl.
  eexists. split; [reflexivity|]. simpl. split; [auto|]. split.
  - intros a Ha. apply filter_In in Ha as [Ha H2]. apply filter_In in Ha as [_ H1].
    split; intro; subst a; rewrite js_eqb_refl in *; discriminate.
  - repeat rewrite <- app_assoc. reflexivity.
Qed.

(** ** Coupons: what every event keeps *)

Lemma NoDup_map_filter {A B} (g : A -> B) (f : A -> bool) l :
  NoDup (map g l) -> NoDup (map g (filter f l)).
Proof.
  induction l as [|a l IH]; simpl; auto. intro H.
  inversion H as [|? ? Hn Hd]; subst.
  destruct (f a); simpl; auto. constructor; auto.
  intro Hin. apply Hn. apply in_map_iff in Hin as (x & Hx & Hxin).
  apply in_map_iff. exists x. split; auto. now apply filter_In in Hxin.
Qed.

Lemma put_coupon_shape id req file w :
  clock (snd (put_coupon id req file w)) = clock w
  /\ (coupons (snd (put_coupon id req file w)) = coupons w
      \/ exists c rest,
           filter (has_coupon_id id) (coupons w) = c :: rest
           /\ coupons (snd (put_coupon id req file w))
              = map (fun x => if has_coupon_id id x
                              then apply_update (clock w)
                                     (update_values (clock w) req file c) x
                              else x)
                    (coupons w)).
Proof.
  destruct w as [us os ps cs im sq ck fl tr].
  unfold put_coupon, discard_upload, deleteCloudinaryImage. run.
  destruct (filter (has_coupon_id id) cs) as [|c rest] eqn:Hc.
  - destruct file as [f|]; try destruct (truthy (filename f));
      destruct fl as [|[] [|[] [|[] fl]]]; simpl; rewrite ?Hc; simpl; auto.
  - destruct file as [f|];
      destruct (truthy_opt (Coupon.image_public_id c)) eqn:Hi;
      try destruct (truthy (filename f));
      destruct fl as [|[] [|[] [|[] [|[] fl]]]]; simpl;
      rewrite ?Hc; simpl; rewrite ?Hi; simpl; split; auto;
      right; exists c, rest; auto.
Qed.

Lemma delete_coupon_shape id w :
  clock (snd (delete_coupon id w)) = clock w
  /\ (coupons (snd (delete_coupon id w)) = coupons w
      \/ coupons (snd (delete_coupon id w))
         = filter (fun x => negb (has_coupon_id id x)) (coupons w)).
Proof.
  destruct w as [us os ps cs im sq ck fl tr].
  unfold delete_coupon, deleteCloudinaryImage. run.
  destruct fl as [|[] [|[] fl]]; simpl;
    destruct (filter (has_coupon_id id) cs) as [|c rest]; simpl; auto;
    destruct (truthy_opt (Coupon.image_public_id c)); simpl; auto.
Qed.

Lemma get_coupon_shape elapsed id b :
  let b' := snd (get_coupon elapsed id b) in
  (clock (store b') = clock (store b)
   \/ clock (store b') = clock (store b) + elapsed)
  /\ (coupons (store b') = coupons (store b)
      \/ exists c rest e,
           filter (has_coupon_id id) (coupons (store b)) = c :: rest
           /\ Coupon.expires_at c = Some e
           /\ e <= clock (store b')
           /\ coupons (store b')
              = map (fun x => if has_coupon_id id x
                              then flag_expired (clock (store b')) x else x)
                    (coupons (store b))).
Proof.
  destruct b as [[us os ps cs im sq ck fl tr] s1 s2 s3 sl ob st].
  unfold get_coupon. prun.
  destruct fl as [|[] [|[] fl]]; simpl; auto;
    destruct (filter (has_coupon_id id) cs) as [|c rest] eqn:Hc; simpl; auto;
    destruct (Coupon.expires_at c) as [e|] eqn:Hx; simpl; auto;
    destruct (e <=? ck + elapsed) eqn:E1; simpl; auto;
    destruct (e <=? ck) eqn:E2; simpl; auto;
    split; auto; right; exists c, rest, e; apply Z.leb_le in E1;
    repeat split; auto.
Qed.

Lemma filter_filter {A} (f g : A -> bool) (l : list A) :
  filter g (filter f l) = filter (fun x => f x && g x) l.
Proof.
  induction l as [|a l IH]; simpl; auto.
  destruct (f a); simpl; [destruct (g a)|]; now rewrite IH.
Qed.

Lemma purge_all_filters rows : forall w,
  exists f, coupons (snd (purge_all rows w)) = filter f (coupons w).
Proof.
  induction rows as [|c rows IH]; intro w; simpl.
  - exists (fun _ => true). unfold ret. simpl. now rewrite filter_true.
  - destruct (purge_run c w) as (w1 & Hp & _ & Hc1 & _).
    destruct (IH w1) as (f & Hf). unfold bind. rewrite Hp.
    destruct Hc1 as [E|E]; rewrite E in Hf.
    + now exists f.
    + rewrite filter_filter in Hf. eauto.
Qed.

Lemma cleanupOldExpiredCoupons_shape daysOld b :
  clock (store (snd (cleanupOldExpiredCoupons daysOld b))) = clock (store b)
  /\ exists f,
       coupons (store (snd (cleanupOldExpiredCoupons daysOld b)))
       = filter f (coupons (store b)).
Proof.
  assert (T : forall l : list Coupon.t, l = filter (fun _ => true) l)
    by (intro l; now rewrite filter_true).
  destruct b as [[us os ps cs im sq ck fl tr] s1 s2 s3 sl ob st].
  unfold cleanupOldExpiredCoupons. prun.
  assert (Hpurge : forall l w,
             clock (snd (purge_all l w)) = clock w
             /\ exists f, coupons (snd (purge_all l w)) = filter f (coupons w)).
  { intros l w. destruct (purge_all_run l w) as (w' & Hr & Hk & _).
    destruct (purge_all_filters l w) as (f & Hf).
    rewrite Hr in *. simpl in *. eauto. }
  destruct fl as [|[] fl]; simpl.
  - destruct (filter _ cs) as [|c rows] eqn:E.
    + split; [reflexivity|]. exists (fun _ => true). apply T.
    + match goal with
      | |- context [purge_all ?l ?w] =>
          destruct (Hpurge l w) as (Hk & f & Hf);
          destruct (purge_all l w) as [[[]|] w']
      end; simpl in *; eauto.
  - split; [reflexivity|]. exists (fun _ => true). apply T.
  - destruct (filter _ cs) as [|c rows] eqn:E.
    + split; [reflexivity|]. exists (fun _ => true). apply T.
    + match goal with
      | |- context [purge_all ?l ?w] =>
          destruct (Hpurge l w) as (Hk & f & Hf);
          destruct (purge_all l w) as [[[]|] w']
      end; simpl in *; eauto.
Qed.

Lemma post_coupon_shape req file b :
  clock (store (snd (post_coupon req file b))) = clock (store b)
  /\ (coupons (store (snd (post_coupon req file b))) = coupons (store b)
      \/ exists c,
           coupons (store (snd (post_coupon req file b)))
           = coupons (store b) ++ [c]
           /\ ~ In (Coupon.coupon_id c) (map Coupon.coupon_id (coupons (store b)))
           /\ Coupon.is_expired c = Some false).
Proof.
  destruct (has_required_fields req) eqn:Hf.
  - destruct (post_coupon_run req file b Hf) as (r & b' & Hr & Hcase & Hk).
    rewrite Hr. simpl. split; [exact Hk|].
    destruct (next_call_ok (store b)).
    + destruct (existsb _ (coupons (store b))) eqn:E.
      * left. tauto.
      * right. eexists. split; [apply Hcase|]. simpl. split; auto.
        intro Hin. apply existsb_has_coupon_id in Hin. congruence.
    + left. tauto.
  - destruct (post_coupon_missing_run req file b Hf) as (b' & Hr & Hc & _ & _ & Hk).
    rewrite Hr. simpl. auto.
Qed.

(** What each event does to the table. *)
Lemma after_shape e b :
  unique_coupon_ids (coupons (store b)) -> step_shape b (after e b).
Proof.
  intro Hu. destruct e; simpl.
  - destruct (get_active_coupons_run b) as (r & b' & Hr & _ & [E|E] & _);
      rewrite Hr; simpl; [now apply Unchanged|now apply Swept].
  - destruct (get_all_coupons_run b) as (r & b' & Hr & _ & [E|E] & _);
      rewrite Hr; simpl; [now apply Unchanged|now apply Swept].
  - destruct (get_coupon_counts_run b) as (r & b' & Hr & _ & [E|E] & _);
      rewrite Hr; simpl; [now apply Unchanged|now apply Swept].
  - destruct (post_coupon_shape req_body uploadedFile b) as (_ & [E|(c & E & Hn & Hx)]);
      [now apply Unchanged|now apply (Added _ _ c)].
  - unfold lift.
    destruct (put_coupon_shape id req_body uploadedFile (store b))
      as (Hk & [E|(c & rest & Hc & E)]);
      destruct (put_coupon id req_body uploadedFile (store b)) as [[r|] w'];
      simpl in *; try (now apply Unchanged);
      apply (Rewritten _ _ id
               (apply_update (clock (store b))
                  (update_values (clock (store b)) req_body uploadedFile c))
               c rest); auto;
      intros x _ _; unfold apply_update, update_values; simpl;
      destruct (truthy_opt (duration req_body)
                && negb (Js.eqb (or_else (duration req_body) [])
                                (Coupon.duration c)));
      try discriminate; auto.
  - unfold lift.
    destruct (delete_coupon_shape id (store b)) as (Hk & [E|E]);
      destruct (delete_coupon id (store b)) as [[r|] w']; simpl in *;
      try (now apply Unchanged);
      now apply (Removed _ _ (fun x => negb (has_coupon_id id x))).
  - destruct (get_coupon_shape elapsed id b) as (_ & [E|(c & rest & e & Hc & He & Hle & E)]);
      [now apply Unchanged|].
    apply (Rewritten _ _ id (flag_expired (clock (store (snd (get_coupon elapsed id b)))))
             c rest); auto.
    intros x Hin Hid _. right. exists e. split; auto. simpl.
    destruct (filter_nonempty_in _ _ _ _ Hc) as [Hcin Hcid].
    unfold has_coupon_id in Hid, Hcid. apply js_eqb_eq in Hid, Hcid.
    assert (x = c) by (eapply unique_ids_same_row; eauto; congruence).
    now subst x.
  - unfold post_mark_expired, ptry, pbind, reply, pret.
    destruct (markExpiredCoupons_run b) as (b' & Hr & Hc & _).
    rewrite Hr. simpl. destruct (next_call_ok (store b));
      [now apply Swept|now apply Unchanged].
  - unfold post_cleanup_old_expired, ptry, pbind, reply, pret.
    destruct (cleanupOldExpiredCoupons_shape (days_or_default daysOld) b)
      as (_ & f & E).
    destruct (cleanupOldExpiredCoupons_run (days_or_default daysOld) b)
      as (b' & Hr & _).
    rewrite Hr in *. simpl in *. now apply (Removed _ _ f).
  - destruct (markExpiredCoupons_run b) as (b' & Hr & Hc & _).
    rewrite Hr. simpl. destruct (next_call_ok (store b));
      [now apply Swept|now apply Unchanged].
  - destruct (cleanupOldExpiredCoupons_shape 7 b) as (_ & f & E).
    now apply (Removed _ _ f).
  - now apply Unchanged.
Qed.

Lemma after_clock e b :
  forward e -> clock (store b) <= clock (store (after e b)).
Proof.
  intro Hf. destruct e; simpl in *.
  - destruct (get_active_coupons_run b) as (r & b' & Hr & Hk & _).
    rewrite Hr. simpl. lia.
  - destruct (get_all_coupons_run b) as (r & b' & Hr & Hk & _).
    rewrite Hr. simpl. lia.
  - destruct (get_coupon_counts_run b) as (r & b' & Hr & Hk & _).
    rewrite Hr. simpl. lia.
  - destruct (post_coupon_shape req_body uploadedFile b) as (Hk & _). lia.
  - unfold lift.
    destruct (put_coupon_shape id req_body uploadedFile (store b)) as (Hk & _).
    destruct (put_coupon id req_body uploadedFile (store b)) as [[r|] w'];
      simpl in *; lia.
  - unfold lift. destruct (delete_coupon_shape id (store b)) as (Hk & _).
    destruct (delete_coupon id (store b)) as [[r|] w']; simpl in *; lia.
  - destruct (get_coupon_shape elapsed id b) as ([Hk|Hk] & _); lia.
  - unfold post_mark_expired, ptry, pbind, reply, pret.
    destruct (markExpiredCoupons_run b) as (b' & Hr & _ & Hk & _).
    rewrite Hr. simpl. lia.
  - unfold post_cleanup_old_expired, ptry, pbind, reply, pret.
    destruct (cleanupOldExpiredCoupons_shape (days_or_default daysOld) b)
      as (Hk & _).
    destruct (cleanupOldExpiredCoupons_run (days_or_default daysOld) b)
      as (b' & Hr & _).
    rewrite Hr in *. simpl in *. lia.
  - destruct (markExpiredCoupons_run b) as (b' & Hr & _ & Hk & _).
    rewrite Hr. simpl. lia.
  - destruct (cleanupOldExpiredCoupons_shape 7 b) as (Hk & _). lia.
  - lia.
Qed.

Lemma map_ids_rewritten id (f : Coupon.t -> Coupon.t) cs :
  (forall x, Coupon.coupon_id (f x) = Coupon.coupon_id x) ->
  map Coupon.coupon_id (map (fun x => if has_coupon_id id x then f x else x) cs)
  = map Coupon.coupon_id cs.
Proof.
  intro H. rewrite map_map. apply map_ext. intro x.
  destruct (has_coupon_id id x); auto.
Qed.

Lemma map_ids_swept now cs :
  map Coupon.coupon_id (swept now cs) = map Coupon.coupon_id cs.
Proof.
  unfold swept. rewrite map_map. apply map_ext. intro x.
  destruct (due now x); reflexivity.
Qed.

Lemma step_keeps_unique_ids b b' :
  step_shape b b' ->
  unique_coupon_ids (coupons (store b)) -> unique_coupon_ids (coupons (store b')).
Proof.
  unfold unique_coupon_ids.
  intros [E|E|f E|c E Hn Hx|id f c rest Hc E Hid Hfl] Hu; rewrite E.
  - exact Hu.
  - now rewrite map_ids_swept.
  - now apply NoDup_map_filter.
  - rewrite map_app. simpl.
    apply Permutation.Permutation_NoDup with
      (l := Coupon.coupon_id c :: map Coupon.coupon_id (coupons (store b))).
    + apply Permutation.Permutation_cons_append.
    + now constructor.
  - now rewrite map_ids_rewritten.
Qed.

Lemma step_keeps_flagged_past b b' :
  step_shape b b' ->
  clock (store b) <= clock (store b') ->
  flagged_are_past (clock (store b)) (coupons (store b)) ->
  flagged_are_past (clock (store b')) (coupons (store b')).
Proof.
  unfold flagged_are_past.
  intros [E|E|f E|c E Hn Hx|id f c rest Hc E Hid Hfl] Hk Hp x Hin Hx';
    rewrite E in Hin.
  - destruct (Hp x Hin Hx') as (e & He & Hle). exists e. split; auto. lia.
  - unfold swept in Hin. apply in_map_iff in Hin as (y & Hy & Hyin).
    destruct (due (clock (store b)) y) eqn:Hd; subst x.
    + apply due_true in Hd as (e & He & Hle & _). exists e. simpl.
      split; auto. lia.
    + destruct (Hp y Hyin Hx') as (e & He & Hle). exists e. split; auto. lia.
  - apply filter_In in Hin as [Hin _].
    destruct (Hp x Hin Hx') as (e & He & Hle). exists e. split; auto. lia.
  - apply in_app_or in Hin as [Hin|[<-|[]]]; [|congruence].
    destruct (Hp x Hin Hx') as (e & He & Hle). exists e. split; auto. lia.
  - apply in_map_iff in Hin as (y & Hy & Hyin).
    destruct (has_coupon_id id y) eqn:Hyid; subst x.
    + destruct (Hfl y Hyin Hyid Hx') as [[Hcx Hce]|(e & He & Hle)].
      * destruct (filter_nonempty_in _ _ _ _ Hc) as [Hcin _].
        destruct (Hp c Hcin Hcx) as (e & He & Hle).
        exists e. split; [congruence|lia].
      * exists e. auto.
    + destruct (Hp y Hyin Hx') as (e & He & Hle). exists e. split; auto. lia.
Qed.

(** X19: Through any sequence of requests, cron ticks and waits, whatever
    fails on the way, no coupon id is ever stored twice. *)
Theorem coupon_ids_stay_unique events : forall b,
  unique_coupon_ids (coupons (store b)) ->
  unique_coupon_ids (coupons (store (after_all events b))).
Proof.
  unfold after_all. induction events as [|e events IH]; intros b Hu; simpl; auto.
  apply IH. eapply step_keeps_unique_ids; [|exact Hu]. now apply after_shape.
Qed.

(** X20: Through any sequence of requests, cron ticks and waits in which time
    does not run backwards, whatever fails on the way, the store never
    flags a coupon as expired before its [expires_at]: a flagged coupon
    has an [expires_at], and it has passed. *)
Theorem flagged_coupons_have_expired events : forall b,
  Forall forward events ->
  unique_coupon_ids (coupons (store b)) ->
  flagged_are_past (clock (store b)) (coupons (store b)) ->
  flagged_are_past (clock (store (after_all events b)))
                   (coupons (store (after_all events b))).
Proof.
  unfold after_all. induction events as [|e events IH]; intros b Hf Hu Hp;
    simpl; auto.
  inversion Hf as [|? ? He Hf']; subst.
  pose proof (after_shape e b Hu) as Hs.
  apply IH; auto.
  - eapply step_keeps_unique_ids; eauto.
  - eapply step_keeps_flagged_past; eauto. now apply after_clock.
Qed.

(** ** Coupons: from creation to expiry *)

Lemma in_swept_origin now cs x :
  In x (swept now cs) ->
  exists y, In y cs /\ Coupon.coupon_id x = Coupon.coupon_id y
            /\ Coupon.expires_at x = Coupon.expires_at y.
Proof.
  unfold swept. intro H. apply in_map_iff in H as (y & Hy & Hin).
  exists y. split; auto. destruct (due now y); subst x; auto.
Qed.

(** X21: A coupon created with a fresh id at time T stays in the list of
    active coupons while less than its duration has passed; once the
    duration has passed it is in no list of active coupons any more, and
    the list of all coupons shows it as expired, although no sweep has
    run in between (the INSERT not failing, the lists answered 200). *)
Theorem created_coupon_expires_after_its_duration req file b ms :
  has_required_fields req = true ->
  ~ In (or_else (couponId req) []) (map Coupon.coupon_id (coupons (store b))) ->
  next_call_ok (store b) = true ->
  0 <= ms ->
  let id := or_else (couponId req) [] in
  let life := totalMinutes (or_else (duration req) []) * 60000 in
  let b2 := after (TimePasses ms) (after (PostCoupon req file) b) in
  (forall r b3, get_active_coupons b2 = (Returned r, b3) -> reply_status r = 200 ->
     exists rows, payload r = CouponList rows
       /\ (ms < life ->
           exists j, In j rows /\ Coupon.coupon_id (row j) = id
                     /\ computed_is_expired j = false)
       /\ (life <= ms ->
           forall j, In j rows -> Coupon.coupon_id (row j) <> id))
  /\ (forall r b3, get_all_coupons b2 = (Returned r, b3) -> reply_status r = 200 ->
        exists rows, payload r = CouponList rows
          /\ exists j, In j rows /\ Coupon.coupon_id (row j) = id
                       /\ computed_is_expired j = (life <=? ms)).
Proof.
  intros Hf Hfresh Hn Hms id life b2.
  destruct (post_coupon_run req file b Hf) as (r1 & b1 & Hr1 & Hcase & Hk1).
  rewrite Hn in Hcase.
  destruct (existsb _ (coupons (store b))) eqn:Ex;
    [apply existsb_has_coupon_id in Ex; contradiction|].
  destruct Hcase as (_ & Hc1 & _).
  match type of Hc1 with
  | _ = _ ++ [?x] => set (c := x) in Hc1
  end.
  assert (Hb2c : coupons (store b2) = coupons (store b) ++ [c]).
  { unfold b2. simpl. rewrite Hr1. simpl. exact Hc1. }
  assert (Hb2k : clock (store b2) = clock (store b) + ms).
  { unfold b2. simpl. rewrite Hr1. simpl. now rewrite Hk1. }
  assert (Hce : Coupon.expires_at c = Some (clock (store b) + life)) by reflexivity.
  assert (Hcid : Coupon.coupon_id c = id) by reflexivity.
  assert (Hcx : Coupon.is_expired c = Some false) by reflexivity.
  clearbody c.
  assert (Honly : forall x, In x (coupons (store b2)) -> Coupon.coupon_id x = id ->
                            x = c).
  { intros x Hin Hid. rewrite Hb2c in Hin.
    apply in_app_or in Hin as [Hin|[<-|[]]]; auto.
    exfalso. apply Hfresh. fold id. rewrite <- Hid. now apply in_map. }
  split.
  - intros r b3 Hrun H200.
    destruct (get_active_coupons_run b2) as (r0 & b0 & Hr & _ & Hcs & Hcase).
    rewrite Hrun in Hr. inversion Hr; subst r0 b0. clear Hr.
    destruct Hcase as [->| ->]; [discriminate H200|].
    eexists. split; [reflexivity|]. rewrite Hb2k. split.
    + intro Hlt. exists (returning (clock (store b) + ms) c).
      split; [|split; [exact Hcid|]].
      * apply in_map.
        apply (Permutation.Permutation_in _
                 (Permutation.Permutation_sym (by_recency_perm _))).
        apply filter_In. split.
        -- destruct Hcs as [-> | ->].
           ++ rewrite Hb2c. apply in_or_app. right. now left.
           ++ unfold swept. apply in_map_iff. exists c. split.
              ** destruct (due (clock (store b2)) c) eqn:Hd; auto.
                 apply due_true in Hd as (e & He & Hle & _).
                 rewrite Hce in He. inversion He. lia.
              ** rewrite Hb2c. apply in_or_app. right. now left.
        -- apply active_true. exists (clock (store b) + life).
           rewrite Hcx. repeat split; auto; try discriminate. lia.
      * simpl. rewrite Hce. apply Z.leb_gt. lia.
    + intros Hle j Hj Hid. apply in_map_iff in Hj as (x & <- & Hx).
      apply (Permutation.Permutation_in _ (by_recency_perm _)) in Hx.
      apply filter_In in Hx as [Hin Ha].
      apply active_true in Ha as (e & He & Hlt & _). simpl in Hid.
      assert (Ho : exists y, In y (coupons (store b2))
                             /\ Coupon.coupon_id x = Coupon.coupon_id y
                             /\ Coupon.expires_at x = Coupon.expires_at y).
      { destruct Hcs as [E|E]; rewrite E in Hin.
        - exists x. auto.
        - now apply in_swept_origin in Hin. }
      destruct Ho as (y & Hy & Hyid & Hye).
      assert (y = c) by (apply Honly; auto; congruence). subst y.
      rewrite Hye, Hce in He. inversion He. lia.
  - intros r b3 Hrun H200.
    destruct (get_all_coupons_run b2) as (r0 & b0 & Hr & _ & Hcs & Hcase).
    rewrite Hrun in Hr. inversion Hr; subst r0 b0. clear Hr.
    destruct Hcase as [->| ->]; [discriminate H200|].
    eexists. split; [reflexivity|]. rewrite Hb2k.
    assert (Hx : exists x, In x (coupons (store b3))
                           /\ Coupon.coupon_id x = id
                           /\ Coupon.expires_at x = Some (clock (store b) + life)).
    { destruct Hcs as [-> | ->].
      - exists c. split; auto. rewrite Hb2c. apply in_or_app. right. now left.
      - exists (if due (clock (store b2)) c
                then flag_expired (clock (store b2)) c else c).
        split; [|destruct (due (clock (store b2)) c); auto].
        unfold swept. apply in_map_iff. exists c. split; auto.
        rewrite Hb2c. apply in_or_app. right. now left. }
    destruct Hx as (x & Hin & Hid & He).
    exists (returning (clock (store b) + ms) x). split; [|split; auto].
    + apply in_map.
      apply (Permutation.Permutation_in _
               (Permutation.Permutation_sym (by_recency_perm _))). exact Hin.
    + simpl. rewrite He.
      destruct (life <=? ms) eqn:L.
      * apply Z.leb_le in L. apply Z.leb_le. lia.
      * apply Z.leb_gt in L. apply Z.leb_gt. lia.
Qed.

(** ** The guards *)

Lemma hd_error_filter_in {A} (f : A -> bool) l a :
  hd_error (filter f l) = Some a -> In a l /\ f a = true.
Proof.
  destruct (filter f l) as [|x rest] eqn:E; simpl; intro H; inversion H; subst.
  eapply filter_nonempty_in; eauto.
Qed.

(** What [findById] returns, and that it only reads. *)
Lemma findById_run id w :
  exists w',
    findById id w
    = (Ok (if next_call_ok w
           then hd_error (filter (fun u => User.id u =? id) (users w))
           else None), w')
    /\ same_tables w w' /\ clock w' = clock w
    /\ faults w' = tl (faults w)
    /\ trace w' = trace w ++ [SelectUserById id]
    /\ otp_seq w' = otp_seq w.
Proof.
  destruct w as [us os ps cs im sq ck fl tr].
  unfold findById, next_call_ok, same_tables. run.
  destruct fl as [|[] fl]; simpl; eexists; (split; [reflexivity|]); simpl;
    repeat split.
Qed.

(** X22: The verified-account guard lets a request through only for a stored,
    verified user, whatever fails; it changes nothing in the store. *)
Theorem checkVerification_passes_only_verified_users req_user w w' :
  checkVerification req_user w = (Ok Next, w') ->
  same_tables w w'
  /\ exists ident u,
       req_user = Some ident /\ In u (users w)
       /\ User.id u = identity_id ident /\ User.is_verified u = true.
Proof.
  unfold checkVerification. destruct req_user as [ident|].
  - destruct (findById_run (identity_id ident) w) as (w1 & Hf & Ht & _).
    unfold try_catch, bind, ret. rewrite Hf.
    destruct (next_call_ok w); [|discriminate].
    destruct (hd_error _) as [u|] eqn:Hu; [|discriminate].
    destruct (User.is_verified u) eqn:Hv; simpl; [|discriminate].
    intro H. inversion H; subst w'. split; [exact Ht|].
    apply hd_error_filter_in in Hu as [Hin Hid].
    exists ident, u. repeat split; auto. now apply Z.eqb_eq.
  - unfold try_catch, ret. discriminate.
Qed.

Section GuardFacts.
Context {libs : Libraries}.

Lemma verifyToken_run authorization w :
  exists g w',
    verifyToken authorization w = (Ok g, w')
    /\ same_tables w w'
    /\ (forall ident, g = Allowed ident ->
          exists token decoded u,
            bearer_token authorization = Some token
            /\ jwt_verify token = Some decoded
            /\ In u (users w)
            /\ User.id u = identity_id decoded
            /\ ident = mkIdentity (User.id u) (User.email u)).
Proof.
  assert (R : same_tables w w) by (unfold same_tables; auto).
  unfold verifyToken.
  destruct (bearer_token authorization) as [token|] eqn:Hb; simpl.
  - destruct (truthy token) eqn:Ht; simpl.
    + destruct (jwt_verify token) as [decoded|] eqn:Hj.
      * destruct (findById_run (identity_id decoded) w) as (w1 & Hf & Hs & _).
        unfold try_catch, bind, ret. rewrite Hf.
        destruct (next_call_ok w).
        -- destruct (hd_error _) as [u|] eqn:Hu.
           ++ eexists. eexists. split; [reflexivity|]. split; [exact Hs|].
              intros ident Hi. inversion Hi; subst ident.
              apply hd_error_filter_in in Hu as [Hin Hid].
              exists token, decoded, u. repeat split; auto. now apply Z.eqb_eq.
           ++ eexists. eexists. split; [reflexivity|]. split; [exact Hs|].
              discriminate.
        -- eexists. eexists. split; [reflexivity|]. split; [exact Hs|].
           discriminate.
      * unfold try_catch, throw, ret. eexists. eexists.
        split; [reflexivity|]. split; [exact R|]. discriminate.
    + unfold try_catch, ret. eexists. eexists.
      split; [reflexivity|]. split; [exact R|]. discriminate.
  - unfold try_catch, ret. eexists. eexists.
    split; [reflexivity|]. split; [exact R|]. discriminate.
Qed.

(** X23: The session guard never lets an exception out; when it lets a
    request through, the token it read decodes to the id of a stored
    user, and the identity it hands on carries that user's stored e-mail,
    not the e-mail in the token; it changes nothing in the store. *)
Theorem verifyToken_identity_comes_from_the_store authorization w :
  exists g w',
    verifyToken authorization w = (Ok g, w')
    /\ same_tables w w'
    /\ (forall ident, g = Allowed ident ->
          exists token decoded u,
            bearer_token authorization = Some token
            /\ jwt_verify token = Some decoded
            /\ In u (users w)
            /\ User.id u = identity_id decoded
            /\ ident = mkIdentity (User.id u) (User.email u)).
Proof. apply verifyToken_run. Qed.

End GuardFacts.

(** *** The authorization header *)

Lemma split_from_no_separator sep s : forall cur,
  (forall c, In c s -> c <> sep) ->
  split_from sep cur s = [rev cur ++ s].
Proof.
  induction s as [|c s IH]; intros cur H; simpl.
  - now rewrite app_nil_r.
  - destruct (c =? sep)%N eqn:E.
    + apply N.eqb_eq in E. exfalso. apply (H c); auto. now left.
    + rewrite IH; [|intros x Hx; apply H; now right].
      simpl. now rewrite <- app_assoc.
Qed.

Lemma split_from_first_piece sep s rest : forall cur,
  (forall c, In c s -> c <> sep) ->
  split_from sep cur (s ++ sep :: rest)
  = (rev cur ++ s) :: split_from sep [] rest.
Proof.
  induction s as [|c s IH]; intros cur H; simpl.
  - rewrite N.eqb_refl. now rewrite app_nil_r.
  - destruct (c =? sep)%N eqn:E.
    + apply N.eqb_eq in E. exfalso. apply (H c); auto. now left.
    + rewrite IH; [|intros x Hx; apply H; now right].
      simpl. now rewrite <- app_assoc.
Qed.

(** The token is the second blank-separated piece of the header: a
    header without a blank carries no token, and the word before the
    first blank is never looked at (any scheme does as "Bearer" does). *)
Lemma bearer_token_ignores_the_scheme scheme scheme' rest :
  (forall c, In c scheme -> c <> 32%N) ->
  (forall c, In c scheme' -> c <> 32%N) ->
  bearer_token (Some scheme) = None
  /\ bearer_token (Some (scheme ++ 32%N :: rest))
     = bearer_token (Some (scheme' ++ 32%N :: rest))
  /\ bearer_token (Some (scheme ++ 32%N :: rest)) = hd_error (split 32 rest).
Proof.
  intros H H'. unfold bearer_token, split.
  rewrite (split_from_no_separator 32 scheme [] H).
  rewrite (split_from_first_piece 32 scheme rest [] H).
  rewrite (split_from_first_piece 32 scheme' rest [] H').
  simpl. repeat split.
  all: destruct (split_from 32 [] rest); reflexivity.
Qed.

(** ** Signup *)

Section SignupFacts.
Context {libs : Libraries}.

Lemma findByEmail_run email w :
  exists w',
    findByEmail email w
    = (Ok (if next_call_ok w then stored_user email w else None), w')
    /\ same_tables w w' /\ clock w' = clock w
    /\ faults w' = tl (faults w) /\ otp_seq w' = otp_seq w.
Proof.
  destruct w as [us os ps cs im sq ck fl tr].
  unfold findByEmail, stored_user, next_call_ok, same_tables. run.
  destruct fl as [|[] fl]; simpl; eexists; (split; [reflexivity|]); simpl;
    repeat split.
Qed.

Lemma findByPhone_run phone b :
  exists b',
    findByPhone phone b
    = (Returned (if next_call_ok (store b)
                 then hd_error (filter (fun u => Js.eqb (User.phone u) phone)
                                       (users (store b)))
                 else None), b')
    /\ same_tables (store b) (store b') /\ clock (store b') = clock (store b)
    /\ faults (store b') = tl (faults (store b))
    /\ users_id_seq b' = users_id_seq b /\ salts b' = salts b
    /\ otp_seq (store b') = otp_seq (store b).
Proof.
  destruct b as [[us os ps cs im sq ck fl tr] s1 s2 s3 sl ob st].
  unfold findByPhone, next_call_ok, same_tables. prun.
  destruct fl as [|[] fl]; simpl; eexists; (split; [reflexivity|]); simpl;
    repeat split.
Qed.

(** [createUser]: it returns normally whatever fails, and stores a row
    only when the INSERT neither fails nor meets a stored e-mail or
    phone. *)
Lemma createUser_run email phone password b :
  let salt := hd [] (salts b) in
  let u := User.mk (users_id_seq b) email phone (bcrypt_hash salt password)
             false (clock (store b)) (clock (store b)) in
  exists b',
    (if next_call_ok (store b)
        && negb (email_taken email (users (store b))
                 || phone_taken phone (users (store b)))
     then createUser email phone password b = (Returned (Some u), b')
          /\ users (store b') = users (store b) ++ [u]
     else createUser email phone password b = (Returned None, b')
          /\ users (store b') = users (store b))
    /\ clock (store b') = clock (store b)
    /\ otp_codes (store b') = otp_codes (store b)
    /\ faults (store b') = tl (faults (store b))
    /\ otp_seq (store b') = otp_seq (store b).
Proof.
  destruct b as [[us os ps cs im sq ck fl tr] s1 s2 s3 sl ob st].
  unfold createUser, draw_salt, next_call_ok, email_taken, phone_taken. prun.
  destruct sl as [|salt sl]; simpl;
    destruct fl as [|[] fl]; simpl;
    destruct (existsb (fun u => Js.eqb (User.email u) email) us); simpl;
    destruct (existsb (fun u => Js.eqb (User.phone u) phone) us); simpl;
    eexists; (split; [split; reflexivity|]); repeat split.
Qed.

(** What a signup does to the users table, whatever the body and
    whatever fails. *)
Lemma signup_users body b :
  exists r b',
    signup body b = (Returned r, b')
    /\ otp_codes (store b') = otp_codes (store b)
    /\ (users (store b') = users (store b) /\ reply_status r <> 200
        \/ exists u,
             users (store b') = users (store b) ++ [u]
             /\ email_taken (User.email u) (users (store b)) = false
             /\ phone_taken (User.phone u) (users (store b)) = false
             /\ User.is_verified u = false
             /\ reply_status r = 200).
Proof.
  unfold signup, plain, reply.
  destruct (signupSchema_validate body) as [msg|v].
  { unfold ptry, pret. eexists. eexists. split; [reflexivity|]. simpl.
    split; auto. left. split; auto. discriminate. }
  destruct (findByEmail_run (Signup.useremail v) (store b))
    as (w1 & He & (Hu1 & Ho1 & _) & Hk1 & Hf1 & _).
  unfold ptry, pbind, lift. rewrite He.
  destruct (if next_call_ok (store b)
            then stored_user (Signup.useremail v) (store b) else None).
  { unfold pret. eexists. eexists. split; [reflexivity|]. simpl.
    split; auto. left. split; auto. discriminate. }
  destruct (findByPhone_run (Signup.userphone v) (with_store w1 b))
    as (b2 & Hp & (Hu2 & Ho2 & _) & Hk2 & Hf2 & _).
  rewrite Hp. simpl in *.
  destruct (if next_call_ok w1 then _ else None).
  { unfold pret. eexists. eexists. split; [reflexivity|]. simpl.
    split; [now rewrite Ho2|]. left. split; [now rewrite Hu2|discriminate]. }
  destruct (createUser_run (Signup.useremail v) (Signup.userphone v)
              (Signup.password v) b2) as (b3 & Hc & Hk3 & Ho3 & _).
  destruct (next_call_ok (store b2)
            && negb (email_taken (Signup.useremail v) (users (store b2))
                     || phone_taken (Signup.userphone v) (users (store b2))))
    eqn:Hcond; destruct Hc as (Hc & Hu3); rewrite Hc.
  - unfold pnow, pret. eexists. eexists. split; [reflexivity|]. simpl.
    split; [now rewrite Ho3, Ho2|]. right. eexists.
    split; [rewrite Hu3, Hu2, Hu1; reflexivity|].
    apply andb_prop in Hcond as [_ Hcond]. apply negb_true_iff in Hcond.
    apply orb_false_elim in Hcond as [Hce Hcp]. simpl.
    rewrite <- Hu1, <- Hu2. auto.
  - unfold pret. eexists. eexists. split; [reflexivity|]. simpl.
    split; [now rewrite Ho3, Ho2|]. left.
    split; [now rewrite Hu3, Hu2|discriminate].
Qed.

Lemma not_taken_not_in {A} (g : User.t -> A) (eqb : A -> A -> bool) a us :
  (forall x y, eqb x y = true <-> x = y) ->
  existsb (fun u => eqb (g u) a) us = false -> ~ In a (map g us).
Proof.
  intros Heq H Hin. apply in_map_iff in Hin as (u & Hu & Hin).
  assert (existsb (fun u => eqb (g u) a) us = true).
  { apply existsb_exists. exists u. split; auto. now apply Heq. }
  congruence.
Qed.

(** X24: A signup never stores a second account with an e-mail or a phone
    that is stored already, whatever the body and whatever fails (a
    failed lookup included: the INSERT then meets the UNIQUE constraint);
    the account it stores is unverified. *)
Theorem signup_keeps_accounts_unique body b :
  unique_accounts (users (store b)) ->
  unique_accounts (users (store (snd (signup body b))))
  /\ forall u, In u (users (store (snd (signup body b)))) ->
               In u (users (store b)) \/ User.is_verified u = false.
Proof.
  intros [He Hp].
  destruct (signup_users body b) as (r & b' & Hr & _ & [[Hu _]|(u & Hu & Hne & Hnp & Hv & _)]);
    rewrite Hr; simpl; rewrite Hu.
  - split; [split|]; auto.
  - split; [split|].
    + rewrite map_app. simpl.
      apply Permutation.Permutation_NoDup with
        (l := User.email u :: map User.email (users (store b)));
        [apply Permutation.Permutation_cons_append|].
      constructor; auto.
      apply (not_taken_not_in User.email Js.eqb); auto using js_eqb_eq.
    + rewrite map_app. simpl.
      apply Permutation.Permutation_NoDup with
        (l := User.phone u :: map User.phone (users (store b)));
        [apply Permutation.Permutation_cons_append|].
      constructor; auto.
      apply (not_taken_not_in User.phone Js.eqb); auto using js_eqb_eq.
    + intros x Hin. apply in_app_or in Hin as [Hin|[<-|[]]]; auto.
Qed.

Lemma not_taken_no_row (g : User.t -> jsstring) a us :
  existsb (fun u => Js.eqb (g u) a) us = false ->
  filter (fun u => Js.eqb (g u) a) us = [].
Proof.
  induction us as [|u us IH]; simpl; auto.
  destruct (Js.eqb (g u) a); simpl; [discriminate|auto].
Qed.

(** A signup with a fresh e-mail and phone, no call failing. *)
Lemma signup_fresh_run body sv b :
  signupSchema_validate body = inr sv ->
  email_taken (Signup.useremail sv) (users (store b)) = false ->
  phone_taken (Signup.userphone sv) (users (store b)) = false ->
  faults (store b) = [] ->
  let u := User.mk (users_id_seq b) (Signup.useremail sv) (Signup.userphone sv)
             (bcrypt_hash (hd [] (salts b)) (Signup.password sv))
             false (clock (store b)) (clock (store b)) in
  exists b1,
    signup body b
    = (Returned
         (mkReply 200
            (Plain (LoginOk (js "Signup successful!") (view u)
                      (jwt_sign (User.id u) (User.email u) (js "1d")
                                (clock (store b)))))), b1)
    /\ users (store b1) = users (store b) ++ [u]
    /\ otp_codes (store b1) = otp_codes (store b)
    /\ clock (store b1) = clock (store b)
    /\ faults (store b1) = []
    /\ otp_seq (store b1) = otp_seq (store b).
Proof.
  intros Hv He Hp Hf u.
  unfold signup, plain, reply. rewrite Hv.
  destruct (findByEmail_run (Signup.useremail sv) (store b))
    as (w1 & Hfe & (Hu1 & Ho1 & _) & Hk1 & Hf1 & Hq1).
  unfold ptry, pbind, lift. rewrite Hfe.
  unfold next_call_ok. rewrite Hf. unfold stored_user.
  rewrite (not_taken_no_row User.email _ _ He). simpl.
  rewrite Hf in Hf1. simpl in Hf1.
  destruct (findByPhone_run (Signup.userphone sv) (with_store w1 b))
    as (b2 & Hfp & (Hu2 & Ho2 & _) & Hk2 & Hf2 & Hs2 & Hsl2 & Hq2).
  rewrite Hfp. simpl in *. unfold next_call_ok. rewrite Hf1.
  rewrite Hu1, (not_taken_no_row User.phone _ _ Hp). simpl.
  rewrite Hf1 in Hf2. simpl in Hf2.
  destruct (createUser_run (Signup.useremail sv) (Signup.userphone sv)
              (Signup.password sv) b2) as (b3 & Hc & Hk3 & Ho3 & Hf3 & Hq3).
  unfold next_call_ok in Hc. rewrite Hf2, Hu2, Hu1, He, Hp in Hc. simpl in Hc.
  destruct Hc as (Hc & Hu3). rewrite Hc. unfold pnow, pret. simpl.
  rewrite Hf2 in Hf3. simpl in Hf3.
  exists b3. subst u. rewrite Hs2, Hsl2, Hk2, Hk1 in *. simpl in *.
  rewrite Hk3. split; [reflexivity|].
  repeat split; auto; congruence.
Qed.

End SignupFacts.

Section EndToEnd.
Context {libs : Libraries}.

Lemma storeOTP_without_faults userId otp type w :
  faults w = [] ->
  exists w2,
    storeOTP userId otp type w = (Ok true, w2)
    /\ users w2 = users w /\ clock w2 = clock w /\ faults w2 = []
    /\ otp_codes w2
       = filter (fun r => negb (otp_matches userId type r)) (otp_codes w)
         ++ [Otp.mk (otp_seq w) userId otp type
               (clock w + otpExpiryMinutes * 60000 + zoneLag) (clock w)].
Proof.
  destruct w as [us os ps cs im sq ck fl tr]. simpl. intros ->.
  unfold storeOTP. run. eexists. split; [reflexivity|]. simpl. auto.
Qed.

Lemma verifyOTP_without_faults userId otp type w r rest :
  faults w = [] ->
  filter (fun r => otp_matches userId type r && Js.eqb (Otp.otp r) otp
                   && (clock w <? Otp.expires_at r)) (otp_codes w) = r :: rest ->
  exists w3,
    verifyOTP userId otp type w = (Ok true, w3)
    /\ faults w3 = [] /\ clock w3 = clock w
    /\ users w3 = map (fun x => if User.id x =? userId
                                then User.set_verified (clock w) x else x)
                      (users w).
Proof.
  destruct w as [us os ps cs im sq ck fl tr]. simpl. intros -> H.
  unfold verifyOTP. run. rewrite H. eexists. split; [reflexivity|]. simpl. auto.
Qed.

(** X25: The whole way in: after a signup with a fresh e-mail and phone (no
    call failing, the hash library accepting the hashes it makes), a
    login with the same credentials is answered 203 without a token; once
    a code has been issued for the new user by a call of [storeOTP] that
    ran alone and has been verified right after, the same login is
    answered 200 with a token, provided the code is not expired from the
    start: its lifetime exceeds what the node process lags behind the
    database session. *)
Theorem signup_verify_login body lbody sv lv b otp :
  signupSchema_validate body = inr sv ->
  loginSchema_validate lbody = inr lv ->
  useremail lv = Signup.useremail sv ->
  userpassword lv = Signup.password sv ->
  (forall salt p, bcrypt_compare p (bcrypt_hash salt p) = true) ->
  email_taken (Signup.useremail sv) (users (store b)) = false ->
  phone_taken (Signup.userphone sv) (users (store b)) = false ->
  faults (store b) = [] ->
  0 < otpExpiryMinutes * 60000 + zoneLag ->
  exists r1 b1 u,
    signup body b = (Returned r1, b1) /\ reply_status r1 = 200
    /\ users (store b1) = users (store b) ++ [u]
    /\ User.is_verified u = false
    /\ (exists r, fst (login lbody (store b1)) = Ok r
                  /\ status r = 203 /\ token_of r = None)
    /\ exists w2 w3,
         storeOTP (User.id u) otp email_type (store b1) = (Ok true, w2)
         /\ verifyOTP (User.id u) otp email_type w2 = (Ok true, w3)
         /\ exists r t, fst (login lbody w3) = Ok r
                        /\ status r = 200 /\ token_of r = Some t.
Proof.
  intros Hsv Hlv Hmail Hpw Hlaw He Hp Hf Hexp.
  destruct (signup_fresh_run body sv b Hsv He Hp Hf)
    as (b1 & Hrun & Hu & Ho & Hk & Hf1 & Hq).
  set (u := User.mk (users_id_seq b) (Signup.useremail sv) (Signup.userphone sv)
              (bcrypt_hash (hd [] (salts b)) (Signup.password sv))
              false (clock (store b)) (clock (store b))) in *.
  assert (Hstored : stored_user (useremail lv) (store b1) = Some u).
  { unfold stored_user. rewrite Hu, filter_app, Hmail.
    rewrite (not_taken_no_row User.email _ _ He). simpl.
    now rewrite js_eqb_refl. }
  assert (Hpass : bcrypt_compare (userpassword lv) (User.password u) = true)
    by (rewrite Hpw; apply Hlaw).
  exists (mkReply 200
            (Plain (LoginOk (js "Signup successful!") (view u)
                      (jwt_sign (User.id u) (User.email u) (js "1d")
                                (clock (store b)))))), b1, u.
  split; [exact Hrun|]. split; [reflexivity|]. split; [exact Hu|].
  split; [reflexivity|]. split.
  - pose proof (login_valid_body lbody lv (store b1) Hlv) as L.
    unfold next_call_ok in L. rewrite Hf1, Hstored, Hpass in L. simpl in L.
    eexists. split; [exact L|]. split; reflexivity.
  - destruct (storeOTP_without_faults (User.id u) otp email_type (store b1) Hf1)
      as (w2 & Hs & Hu2 & Hk2 & Hf2 & Ho2).
    assert (Hsel : filter (fun r => otp_matches (User.id u) email_type r
                                    && Js.eqb (Otp.otp r) otp
                                    && (clock w2 <? Otp.expires_at r))
                          (otp_codes w2)
                   = [Otp.mk (otp_seq (store b1)) (User.id u) otp email_type
                        (clock (store b1) + otpExpiryMinutes * 60000 + zoneLag)
                        (clock (store b1))]).
    { rewrite Ho2, select_after_reissue by apply otp_matches_refl.
      simpl. rewrite js_eqb_refl. simpl.
      assert (T : (clock w2 <? clock (store b1) + otpExpiryMinutes * 60000 + zoneLag)
                     = true)
        by (apply Z.ltb_lt; lia).
      now rewrite T. }
    destruct (verifyOTP_without_faults _ _ _ _ _ _ Hf2 Hsel)
      as (w3 & Hv & Hf3 & Hk3 & Hu3).
    exists w2, w3. split; [exact Hs|]. split; [exact Hv|].
    pose proof (login_valid_body lbody lv w3 Hlv) as L.
    unfold next_call_ok in L. rewrite Hf3 in L. unfold stored_user in L.
    rewrite Hu3, Hu2 in L.
    rewrite (stored_user_after_verification _ _ _ _ _ Hstored) in L.
    rewrite Z.eqb_refl in L. simpl in L. rewrite Hpw in L.
    rewrite (Hlaw _ _) in L. simpl in L.
    eexists. eexists. split; [exact L|]. split; reflexivity.
Qed.

End EndToEnd.

(** ** The routes behind the session guard *)

Section RouteFacts.
Context {libs : Libraries}.

Ltac route_run :=
  unfold route_resend_otp, route_verify_otp, route_verify_mode, guarded,
    verifyToken, resendOTP, AuthController_verifyOTP, selectVerificationMode,
    issue_code, sendOTPEmail, sendEmail, storeOTP, verifyOTP, findById,
    plain, reply, as_reply, throw, pthrow.

(** X26: When the mail cannot be sent, a resend is answered 500 "Failed to
    send OTP", but the new code has already replaced the old one in the
    ledger, although nobody received it. For a resend whose DELETE and
    INSERT run with no statement of another issuance in between, it is
    the one e-mail code of the user from then on; it expires at the time
    of the request plus the configured minutes plus [zoneLag]. *)
Theorem resend_keeps_the_code_when_the_mail_fails authorization token decoded u otp
        tail b :
  bearer_token authorization = Some token -> truthy token = true ->
  jwt_verify token = Some decoded ->
  hd_error (filter (fun x => User.id x =? identity_id decoded) (users (store b)))
  = Some u ->
  faults (store b) = false :: false :: false :: false :: true :: tail ->
  exists b',
    route_resend_otp authorization otp b
    = (Returned (mkReply 500 (Plain (Message (js "Failed to send OTP")))), b')
    /\ outbox b' = outbox b
    /\ filter (otp_matches (User.id u) email_type) (otp_codes (store b'))
       = [Otp.mk (otp_seq (store b)) (User.id u) otp email_type
            (clock (store b) + otpExpiryMinutes * 60000 + zoneLag)
            (clock (store b))].
Proof.
  destruct b as [[us os ps cs im sq ck fl tr] s1 s2 s3 sl ob st]. simpl.
  intros Hb Ht Hj Hu ->.
  assert (Hid : User.id u = identity_id decoded).
  { apply hd_error_filter_in in Hu as [_ H]. now apply Z.eqb_eq. }
  route_run. rewrite Hb. simpl. rewrite Ht. simpl. rewrite Hj.
  run. prun. rewrite Hu. simpl. rewrite Hid, Hu. simpl.
  eexists. split; [reflexivity|]. simpl. split; auto.
  rewrite <- Hid. rewrite filter_app, filter_none_left. simpl.
  now rewrite otp_matches_refl.
Qed.

(** X27: On the verify route, a code that matches an unexpired row of the
    token's user (no call failing) is answered 200 with a fresh token and
    marks that user verified; the same request made again, the ledger
    being as the first left it, is never answered 200 again. *)
Theorem verify_route_accepts_a_code_once body authorization token decoded code u
        r rest b :
  otpVerificationSchema_validate body = inr code ->
  bearer_token authorization = Some token -> truthy token = true ->
  jwt_verify token = Some decoded ->
  hd_error (filter (fun x => User.id x =? identity_id decoded) (users (store b)))
  = Some u ->
  filter (fun r => otp_matches (identity_id decoded) email_type r
                   && Js.eqb (Otp.otp r) code
                   && (clock (store b) <? Otp.expires_at r))
         (otp_codes (store b)) = r :: rest ->
  faults (store b) = [] ->
  exists b',
    route_verify_otp body authorization b
    = (Returned
         (mkReply 200
            (MessageToken (js "OTP verified successfully")
               (jwt_sign (identity_id decoded) (identity_email decoded)
                         (js "1d") (clock (store b))))), b')
    /\ (forall x, In x (users (store b')) ->
          User.id x = identity_id decoded -> User.is_verified x = true)
    /\ forall b2 r2 b3,
         otp_codes (store b2) = otp_codes (store b') ->
         route_verify_otp body authorization b2 = (Returned r2, b3) ->
         reply_status r2 <> 200.
Proof.
  destruct b as [[us os ps cs im sq ck fl tr] s1 s2 s3 sl ob st]. simpl.
  intros Hv Hb Ht Hj Hu Hsel ->.
  eexists. split; [|split].
  - route_run. rewrite Hb, Hv. simpl. rewrite Ht. simpl. rewrite Hj.
    run. prun. rewrite Hu. simpl. rewrite ?Ht. simpl.
    rewrite ?Hj. simpl. rewrite Hsel. simpl. reflexivity.
  - simpl. intros x Hin Hx. apply in_map_iff in Hin as (y & Hy & _).
    destruct (User.id y =? identity_id decoded) eqn:E; subst x; simpl; auto.
    apply Z.eqb_neq in E. contradiction.
  - simpl. intros b2 r2 b3 Hl Hrun H200.
    unfold route_verify_otp, guarded, pbind, lift in Hrun.
    destruct (verifyToken_run authorization (store b2))
      as (g & w' & Hg & (_ & Hs & _) & _).
    rewrite Hg in Hrun. destruct g as [rj|ident].
    + unfold pret in Hrun. inversion Hrun; subst r2.
      unfold verifyToken in Hg. rewrite Hb in Hg. simpl in Hg.
      rewrite Ht in Hg. simpl in Hg. rewrite Hj in Hg.
      destruct (findById_run (identity_id decoded) (store b2)) as (w1 & Hf & _).
      unfold try_catch, bind, ret in Hg. rewrite Hf in Hg.
      destruct (if next_call_ok (store b2) then _ else None);
        inversion Hg; subst rj; discriminate H200.
    + assert (Hok : exists w3,
                 verifyOTP (identity_id decoded) code email_type w' = (Ok true, w3)).
      { unfold AuthController_verifyOTP, ptry, pbind, lift, plain, reply in Hrun.
        rewrite Hv, Hb in Hrun. simpl in Hrun. rewrite Ht in Hrun.
        simpl in Hrun. rewrite Hj in Hrun. simpl in Hrun.
        destruct (verifyOTP (identity_id decoded) code email_type w')
          as [[[]|] w3]; simpl in Hrun; eauto;
          unfold pret in Hrun; inversion Hrun; subst r2; discriminate H200. }
      destruct Hok as (w3 & Hok).
      assert (Hnone : filter (fun r0 => otp_matches (identity_id decoded) email_type r0
                                        && Js.eqb (Otp.otp r0) code
                                        && (clock w' <? Otp.expires_at r0))
                             (otp_codes w') = []).
      { rewrite Hs, Hl.
        apply (filter_and3_none_left
                 (otp_matches (identity_id decoded) email_type)
                 (fun r0 => Js.eqb (Otp.otp r0) code)
                 (fun r0 => clock w' <? Otp.expires_at r0)). }
      destruct (verifyOTP_selected_none _ _ _ _ Hnone) as (w4 & Hfalse & _).
      congruence.
Qed.

End RouteFacts.

(** ** Profiles: save and delete *)

Ltac profile_run :=
  unfold findByUserId, createUserProfile, updateUserProfile,
    model_deleteUserProfile, on_profiles, pthrow, plain; prun.

Lemma findByUserId_run userId b :
  exists b',
    findByUserId userId b
    = (Returned (if next_call_ok (store b)
                 then option_map mapToUserProfile
                        (hd_error (filter (of_user userId) (users_profiles (store b))))
                 else None), b')
    /\ users_profiles (store b') = users_profiles (store b)
    /\ users (store b') = users (store b)
    /\ clock (store b') = clock (store b)
    /\ faults (store b') = tl (faults (store b))
    /\ profiles_id_seq b' = profiles_id_seq b.
Proof.
  destruct b as [[us os ps cs im sq ck fl tr] s1 s2 s3 sl ob st].
  unfold next_call_ok. profile_run.
  destruct fl as [|[] fl]; simpl; eexists; (split; [reflexivity|]); simpl;
    repeat split.
Qed.

(** What the model's update can do to the table. *)
Lemma updateUserProfile_run userId d b :
  exists r b',
    updateUserProfile userId d b = (Returned r, b')
    /\ users (store b') = users (store b)
    /\ clock (store b') = clock (store b)
    /\ profiles_id_seq b' = profiles_id_seq b
    /\ (users_profiles (store b') = users_profiles (store b)
        \/ users_profiles (store b')
           = map (fun p => if of_user userId p
                           then patched (clock (store b)) d p else p)
                 (users_profiles (store b)))
    /\ (faults (store b) = [] ->
        faults (store b') = []
        /\ (no_field d = false ->
            users_profiles (store b')
            = map (fun p => if of_user userId p
                            then patched (clock (store b)) d p else p)
                  (users_profiles (store b))
            /\ (filter (of_user userId) (users_profiles (store b)) <> [] ->
                r <> None))).
Proof.
  destruct b as [[us os ps cs im sq ck fl tr] s1 s2 s3 sl ob st].
  profile_run. destruct (no_field d) eqn:Hn.
  - destruct fl as [|[] fl]; simpl; eexists; eexists; (split; [reflexivity|]);
      simpl; repeat split; auto; discriminate.
  - destruct fl as [|[] fl]; simpl; eexists; eexists; (split; [reflexivity|]);
      simpl; repeat split; auto; try discriminate.
    intros Hne. destruct (filter (of_user userId) ps) as [|p rest] eqn:E;
      [contradiction|].
    assert (Hin : In p (filter (of_user userId) ps)) by (rewrite E; now left).
    apply filter_In in Hin as [Hin Hp].
    destruct (filter _ (map _ ps)) as [|q rest'] eqn:E'; [|discriminate].
    exfalso.
    assert (Hq : In (patched ck d p)
                    (filter (of_user userId)
                       (map (fun p0 => if of_user userId p0
                                       then patched ck d p0 else p0) ps))).
    { apply filter_In. split.
      - apply in_map_iff. exists p. now rewrite Hp.
      - exact Hp. }
    rewrite E' in Hq. destruct Hq.
Qed.

(** What the model's create can do to the table. *)
Lemma createUserProfile_run userId d b :
  exists r b',
    createUserProfile userId d b = (Returned r, b')
    /\ users (store b') = users (store b)
    /\ clock (store b') = clock (store b)
    /\ (users_profiles (store b') = users_profiles (store b)
        \/ exists row,
             users_profiles (store b') = users_profiles (store b) ++ [row]
             /\ Profile.user_id row = userId
             /\ existsb (of_user userId) (users_profiles (store b)) = false)
    /\ (faults (store b) = [] ->
        forall u,
          hd_error (filter (fun x => User.id x =? userId) (users (store b))) = Some u ->
          existsb (of_user userId) (users_profiles (store b)) = false ->
          faults (store b') = []
          /\ r <> None
          /\ users_profiles (store b')
             = users_profiles (store b)
               ++ [inserted_profile (profiles_id_seq b) (clock (store b)) userId
                     (User.email u) (User.phone u) d]).
Proof.
  destruct (findById_run userId (store b))
    as (w1 & Hf & (Hu1 & _ & Hp1 & _) & Hk1 & Hf1 & _).
  unfold createUserProfile, ptry, pbind, lift, pthrow, pret. rewrite Hf.
  destruct (next_call_ok (store b)) eqn:Hn.
  2:{ eexists. eexists. split; [reflexivity|]. simpl.
      split; [auto|]. split; [auto|]. split; [auto|].
      intro Hfl. unfold next_call_ok in Hn. rewrite Hfl in Hn. discriminate. }
  destruct (hd_error _) as [user|] eqn:Hu.
  2:{ eexists. eexists. split; [reflexivity|]. simpl.
      split; [auto|]. split; [auto|]. split; [auto|].
      intros _ u H. discriminate. }
  unfold perform. simpl.
  set (taken := existsb (of_user userId) (users_profiles w1)).
  set (fk := negb (existsb (fun u => User.id u =? userId) (users w1)
                   && existsb (fun u => Js.eqb (User.email u) (User.email user)) (users w1)
                   && existsb (fun u => Js.eqb (User.phone u) (User.phone user)) (users w1))).
  assert (Hfk : fk = false).
  { apply hd_error_filter_in in Hu as [Hin Hid]. unfold fk. rewrite Hu1.
    apply negb_false_iff.
    repeat (apply andb_true_intro; split); apply existsb_exists; exists user;
      split; auto; apply js_eqb_refl. }
  assert (Htaken : taken = existsb (of_user userId) (users_profiles (store b)))
    by (unfold taken; now rewrite Hp1).
  destruct (faults w1) as [|[] rest] eqn:Hfw; simpl.
  - fold taken. fold fk. rewrite Hfk. destruct taken eqn:Ht; simpl.
    + eexists. eexists. split; [reflexivity|]. simpl.
      split; [auto|]. split; [auto|]. split; [auto|].
      intros _ u _ Hno. congruence.
    + eexists. eexists. split; [reflexivity|]. simpl.
      split; [auto|]. split; [auto|]. split.
      * right. eexists. split; [now rewrite Hp1|]. split; [reflexivity|congruence].
      * intros Hfl u Hu' _. split; [auto|]. split; [discriminate|].
        rewrite Hp1, Hk1. congruence.
  - eexists. eexists. split; [reflexivity|]. simpl.
    split; [auto|]. split; [auto|]. split; [auto|].
    intro Hfl. rewrite Hfl in Hf1. simpl in Hf1. congruence.
  - fold taken. fold fk. rewrite Hfk. destruct taken eqn:Ht; simpl.
    + eexists. eexists. split; [reflexivity|]. simpl.
      split; [auto|]. split; [auto|]. split; [auto|].
      intro Hfl. rewrite Hfl in Hf1. simpl in Hf1. congruence.
    + eexists. eexists. split; [reflexivity|]. simpl.
      split; [auto|]. split; [auto|]. split.
      * right. eexists. split; [now rewrite Hp1|]. split; [reflexivity|congruence].
      * intro Hfl. rewrite Hfl in Hf1. simpl in Hf1. congruence.
Qed.

Lemma getCompleteUserProfile_run userId w :
  exists r w',
    getCompleteUserProfile userId w = (Ok r, w')
    /\ same_tables w w' /\ clock w' = clock w /\ faults w' = tl (faults w).
Proof.
  destruct w as [us os ps cs im sq ck fl tr].
  unfold getCompleteUserProfile, same_tables. run.
  destruct fl as [|[] fl]; simpl; eexists; eexists; (split; [reflexivity|]);
    simpl; repeat split.
Qed.

Section ProfileFacts.
Context {libs : Libraries}.

(** A save, whatever fails: it returns normally and either leaves the
    profiles as they were, or adds the first profile of the user, or
    rewrites the rows of the user. With no failing call, for a stored
    user and a valid body, it is answered 200 and does the second or the
    third according to whether the user has a profile. *)
Lemma saveUserProfile_run ident body b :
  let userId := identity_id ident in
  exists r b',
    saveUserProfile (Some ident) body b = (Returned r, b')
    /\ users (store b') = users (store b)
    /\ clock (store b') = clock (store b)
    /\ (users_profiles (store b') = users_profiles (store b)
        \/ (exists row,
              users_profiles (store b') = users_profiles (store b) ++ [row]
              /\ Profile.user_id row = userId
              /\ existsb (of_user userId) (users_profiles (store b)) = false)
        \/ (exists d,
              users_profiles (store b')
              = map (fun p => if of_user userId p
                              then patched (clock (store b)) d p else p)
                    (users_profiles (store b))))
    /\ (faults (store b) = [] ->
        forall value u,
          userProfileSchema_validate body = inr value ->
          hd_error (filter (fun x => User.id x =? userId) (users (store b))) = Some u ->
          faults (store b') = []
          /\ reply_status r = 200
          /\ users_profiles (store b')
             = if existsb (of_user userId) (users_profiles (store b))
               then map (fun p => if of_user userId p
                                  then patched (clock (store b)) (as_patch value) p
                                  else p)
                        (users_profiles (store b))
               else users_profiles (store b)
                    ++ [inserted_profile (profiles_id_seq b) (clock (store b))
                          userId (User.email u) (User.phone u) value]).
Proof.
  intro userId. unfold saveUserProfile, plain, reply.
  destruct (userProfileSchema_validate body) as [msg|value] eqn:Hv.
  { unfold ptry, pret. eexists. eexists. split; [reflexivity|]. simpl.
    split; [auto|]. split; [auto|]. split; [auto|]. intros _ v u H. discriminate. }
  destruct (findById_run userId (store b))
    as (w1 & Hf & (Hu1 & _ & Hp1 & _) & Hk1 & Hf1 & _).
  unfold ptry, pbind, lift. fold userId. rewrite Hf.
  destruct (next_call_ok (store b)) eqn:Hn.
  2:{ unfold pret. eexists. eexists. split; [reflexivity|]. simpl.
      split; [auto|]. split; [auto|]. split; [auto|].
      intro Hfl. unfold next_call_ok in Hn. rewrite Hfl in Hn. discriminate. }
  destruct (hd_error _) as [user|] eqn:Hu.
  2:{ unfold pret. eexists. eexists. split; [reflexivity|]. simpl.
      split; [auto|]. split; [auto|]. split; [auto|].
      intros _ v u _ H. discriminate. }
  destruct (findByUserId_run userId (with_store w1 b))
    as (b2 & Hfu & Hp2 & Hu2 & Hk2 & Hf2 & Hs2).
  rewrite Hfu. simpl in *.
  assert (Hex : forall ps, existsb (of_user userId) ps = true
                           <-> hd_error (filter (of_user userId) ps) <> None).
  { induction ps as [|p ps IH]; simpl; [split; [discriminate|congruence]|].
    destruct (of_user userId p); simpl; [split; [discriminate|auto]|exact IH]. }
  destruct (if next_call_ok w1 then _ else None) as [existing|] eqn:Hexisting.
  - (* update *)
    destruct (updateUserProfile_run userId (as_patch value) b2)
      as (r & b3 & Hup & Hu3 & Hk3 & Hs3 & Hshape & Hnf).
    rewrite Hup.
    destruct (getCompleteUserProfile_run userId (store b3))
      as (cp & w4 & Hg & (Hu4 & _ & Hp4 & _) & Hk4 & Hf4).
    destruct r as [profile|]; simpl; unfold pret; rewrite ?Hg; simpl;
      eexists; eexists; (split; [reflexivity|]); simpl.
    + split; [congruence|]. split; [congruence|]. split.
      * destruct Hshape as [E|E]; [left; congruence|].
        right. right. exists (as_patch value). rewrite Hp4, E, Hp2, Hp1, Hk2, Hk1.
        reflexivity.
      * intros Hfl v u Hv' Hu'. inversion Hv'; subst v.
        rewrite Hfl in Hf1. simpl in Hf1. rewrite Hf1 in Hf2. simpl in Hf2.
        destruct (Hnf Hf2) as (Hf3 & Hdo). destruct (Hdo eq_refl) as (E & _).
        rewrite Hf3 in Hf4. simpl in Hf4. split; [auto|]. split; [auto|].
        unfold next_call_ok in Hexisting. rewrite Hf1 in Hexisting.
        assert (Hx : existsb (of_user userId) (users_profiles (store b)) = true).
        { apply Hex. rewrite <- Hp1.
          destruct (hd_error (filter (of_user userId) (users_profiles w1)));
            [discriminate|discriminate Hexisting]. }
        rewrite Hx, Hp4, E, Hp2, Hp1, Hk2, Hk1. reflexivity.
    + split; [congruence|]. split; [congruence|]. split.
      * destruct Hshape as [E|E]; [left; congruence|].
        right. right. exists (as_patch value). rewrite E, Hp2, Hp1, Hk2, Hk1.
        reflexivity.
      * intros Hfl v u Hv' Hu'. exfalso.
        rewrite Hfl in Hf1. simpl in Hf1. rewrite Hf1 in Hf2. simpl in Hf2.
        destruct (Hnf Hf2) as (_ & Hdo). destruct (Hdo eq_refl) as (_ & Hsome).
        apply Hsome; auto. rewrite Hp2.
        unfold next_call_ok in Hexisting. rewrite Hf1 in Hexisting.
        destruct (filter (of_user userId) (users_profiles w1));
          [discriminate Hexisting|discriminate].
  - (* create *)
    destruct (createUserProfile_run userId value b2)
      as (r & b3 & Hcr & Hu3 & Hk3 & Hshape & Hnf).
    rewrite Hcr.
    destruct (getCompleteUserProfile_run userId (store b3))
      as (cp & w4 & Hg & (Hu4 & _ & Hp4 & _) & Hk4 & Hf4).
    destruct r as [profile|]; simpl; unfold pret; rewrite ?Hg; simpl;
      eexists; eexists; (split; [reflexivity|]); simpl.
    + split; [congruence|]. split; [congruence|]. split.
      * destruct Hshape as [E|(row & E & Hrow & Hno)]; [left; congruence|].
        right. left. exists row. rewrite Hp4, E, Hp2, Hp1. repeat split; auto.
        now rewrite <- Hp1, <- Hp2.
      * intros Hfl v u Hv' Hu'. inversion Hv'; subst v.
        rewrite Hfl in Hf1. simpl in Hf1. rewrite Hf1 in Hf2. simpl in Hf2.
        unfold next_call_ok in Hexisting. rewrite Hf1 in Hexisting.
        assert (Hx : existsb (of_user userId) (users_profiles (store b)) = false).
        { destruct (existsb (of_user userId) (users_profiles (store b))) eqn:X; auto.
          apply Hex in X. rewrite <- Hp1 in X.
          destruct (hd_error (filter (of_user userId) (users_profiles w1)));
            [discriminate Hexisting|congruence]. }
        assert (Hu'' : hd_error (filter (fun x => User.id x =? userId)
                                        (users (store b2))) = Some u)
          by (rewrite Hu2, Hu1; congruence).
        assert (Hx' : existsb (of_user userId) (users_profiles (store b2)) = false)
          by (rewrite Hp2, Hp1; exact Hx).
        destruct (Hnf Hf2 u Hu'' Hx') as (Hf3 & _ & E).
        rewrite Hf3 in Hf4. simpl in Hf4. split; [auto|]. split; [auto|].
        rewrite Hx, Hp4, E, Hp2, Hp1, Hs2, Hk2, Hk1. reflexivity.
    + split; [congruence|]. split; [congruence|]. split.
      * destruct Hshape as [E|(row & E & Hrow & Hno)]; [left; congruence|].
        right. left. exists row. rewrite E, Hp2, Hp1. repeat split; auto.
        now rewrite <- Hp1, <- Hp2.
      * intros Hfl v u Hv' Hu'. exfalso.
        rewrite Hfl in Hf1. simpl in Hf1. rewrite Hf1 in Hf2. simpl in Hf2.
        unfold next_call_ok in Hexisting. rewrite Hf1 in Hexisting.
        assert (Hx : existsb (of_user userId) (users_profiles (store b)) = false).
        { destruct (existsb (of_user userId) (users_profiles (store b))) eqn:X; auto.
          apply Hex in X. rewrite <- Hp1 in X.
          destruct (hd_error (filter (of_user userId) (users_profiles w1)));
            [discriminate Hexisting|congruence]. }
        assert (Hu'' : hd_error (filter (fun x => User.id x =? userId)
                                        (users (store b2))) = Some u)
          by (rewrite Hu2, Hu1; congruence).
        assert (Hx' : existsb (of_user userId) (users_profiles (store b2)) = false)
          by (rewrite Hp2, Hp1; exact Hx).
        destruct (Hnf Hf2 u Hu'' Hx') as (_ & Hsome & _). congruence.
Qed.

Lemma existsb_of_user_in userId ps :
  existsb (of_user userId) ps = false -> ~ In userId (map Profile.user_id ps).
Proof.
  induction ps as [|p ps IH]; simpl; [tauto|].
  unfold of_user at 1. destruct (Z.eqb_spec (Profile.user_id p) userId); simpl.
  - discriminate.
  - intros H [E|E]; [congruence|]. now apply IH.
Qed.

Lemma patched_keeps_owners userId now d ps :
  map Profile.user_id
      (map (fun p => if of_user userId p then patched now d p else p) ps)
  = map Profile.user_id ps.
Proof.
  rewrite map_map. apply map_ext. intro p. now destruct (of_user userId p).
Qed.

Lemma patch_of_nobody userId now d ps :
  existsb (of_user userId) ps = false ->
  map (fun p => if of_user userId p then patched now d p else p) ps = ps.
Proof.
  induction ps as [|p ps IH]; simpl; [reflexivity|].
  destruct (of_user userId p); simpl; [discriminate|].
  intro H. now rewrite IH.
Qed.

Lemma delete_of_nobody userId ps :
  filter (of_user userId) ps = [] ->
  filter (fun p => negb (of_user userId p)) ps = ps.
Proof.
  induction ps as [|p ps IH]; simpl; [reflexivity|].
  destruct (of_user userId p); simpl; [discriminate|].
  intro H. now rewrite IH.
Qed.

(** The controller's delete, whatever fails: 200 with the rows of the
    user gone, or 404 with the table as it was. *)
Lemma deleteUserProfile_run ident b :
  let userId := identity_id ident in
  exists r b',
    deleteUserProfile (Some ident) b = (Returned r, b')
    /\ users (store b') = users (store b)
    /\ ((reply_status r = 200
         /\ next_call_ok (store b) = true
         /\ existsb (of_user userId) (users_profiles (store b)) = true
         /\ users_profiles (store b')
            = filter (fun p => negb (of_user userId p)) (users_profiles (store b)))
        \/ (reply_status r = 404
            /\ (next_call_ok (store b) = true ->
                existsb (of_user userId) (users_profiles (store b)) = false)
            /\ users_profiles (store b') = users_profiles (store b))).
Proof.
  intro userId.
  destruct b as [[us os ps cs im sq ck fl tr] s1 s2 s3 sl ob st].
  unfold deleteUserProfile, next_call_ok. fold userId. profile_run.
  assert (Hlen : (0 <? Z.of_nat (List.length (filter (of_user userId) ps)))
                 = existsb (of_user userId) ps).
  { clear. induction ps as [|p ps IH]; simpl; [reflexivity|].
    destruct (of_user userId p); simpl; [|exact IH].
    apply Z.ltb_lt. lia. }
  assert (Hnone : existsb (of_user userId) ps = false ->
                  filter (of_user userId) ps = []).
  { clear. induction ps as [|p ps IH]; simpl; [reflexivity|].
    destruct (of_user userId p); simpl; [discriminate|exact IH]. }
  destruct fl as [|[] fl]; simpl; rewrite ?Hlen;
    try (destruct (existsb (of_user userId) ps) eqn:Hx); simpl;
    eexists; eexists; (split; [reflexivity|]); simpl; (split; [reflexivity|]);
    try (left; repeat split; reflexivity);
    right; (split; [reflexivity|]); (split; [try discriminate; auto|]);
    try reflexivity; try (apply delete_of_nobody; auto).
Qed.

(** X28: Saving never gives a user a second profile, whatever fails: if no
    user has two profile rows before a save request of an authenticated
    user, none has after it, and the accounts are as they were. *)
Theorem save_keeps_one_profile_per_user ident body b :
  one_profile_per_user (users_profiles (store b)) ->
  exists r b',
    saveUserProfile (Some ident) body b = (Returned r, b')
    /\ one_profile_per_user (users_profiles (store b'))
    /\ users (store b') = users (store b).
Proof.
  intro Hone.
  destruct (saveUserProfile_run ident body b)
    as (r & b' & Hrun & Hu & _ & Hshape & _).
  exists r, b'. split; [exact Hrun|]. split; [|exact Hu].
  unfold one_profile_per_user in *.
  destruct Hshape as [E|[(row & E & Hrow & Hno)|(d & E)]]; rewrite E.
  - exact Hone.
  - rewrite map_app. simpl.
    rewrite <- (rev_involutive (map Profile.user_id (users_profiles (store b)) ++ _)).
    apply NoDup_rev. rewrite rev_app_distr. simpl. constructor.
    + rewrite <- in_rev. rewrite Hrow. now apply existsb_of_user_in.
    + now apply NoDup_rev.
  - now rewrite patched_keeps_owners.
Qed.

(** X29: The first save of a profile inserts, the second rewrites: with no
    failing call, when a stored user without a profile saves two valid
    bodies in turn, both requests are answered 200 and the table gains
    exactly one row, the inserted one rewritten by the second body; a
    middle name absent from the second body keeps the stored one, an
    empty one given there is stored as it is, whereas the insert stores
    NULL for an empty middle name. *)
Theorem save_twice_inserts_then_rewrites ident first second v1 v2 u b :
  faults (store b) = [] ->
  userProfileSchema_validate first = inr v1 ->
  userProfileSchema_validate second = inr v2 ->
  hd_error (filter (fun x => User.id x =? identity_id ident) (users (store b)))
  = Some u ->
  existsb (of_user (identity_id ident)) (users_profiles (store b)) = false ->
  exists r1 b1 r2 b2,
    saveUserProfile (Some ident) first b = (Returned r1, b1)
    /\ saveUserProfile (Some ident) second b1 = (Returned r2, b2)
    /\ reply_status r1 = 200 /\ reply_status r2 = 200
    /\ users_profiles (store b2)
       = users_profiles (store b)
         ++ [patched (clock (store b)) (as_patch v2)
               (inserted_profile (profiles_id_seq b) (clock (store b))
                  (identity_id ident) (User.email u) (User.phone u) v1)].
Proof.
  intros Hfl Hv1 Hv2 Hu Hno.
  destruct (saveUserProfile_run ident first b)
    as (r1 & b1 & Hrun1 & Hu1 & Hk1 & _ & Hok1).
  destruct (Hok1 Hfl v1 u Hv1 Hu) as (Hfl1 & Hs1 & Hp1).
  rewrite Hno in Hp1.
  destruct (saveUserProfile_run ident second b1)
    as (r2 & b2 & Hrun2 & Hu2 & Hk2 & _ & Hok2).
  rewrite <- Hu1 in Hu.
  destruct (Hok2 Hfl1 v2 u Hv2 Hu) as (Hfl2 & Hs2 & Hp2).
  exists r1, b1, r2, b2.
  split; [exact Hrun1|]. split; [exact Hrun2|]. split; [exact Hs1|].
  split; [exact Hs2|].
  rewrite Hp2, Hp1, existsb_app. simpl.
  unfold of_user at 2. simpl. rewrite Z.eqb_refl, orb_true_r.
  rewrite map_app, (patch_of_nobody _ _ _ _ Hno). simpl.
  unfold of_user at 1. simpl. rewrite Z.eqb_refl, Hk1. reflexivity.
Qed.

(** X30: Deleting a profile answers 200 only for a row really deleted:
    whatever fails, the request of an authenticated user is answered 200
    or 404; on 200 the user had a profile and no longer has one, on 404
    the table is as it was (a failed DELETE is reported as 404, never as
    500); accounts are untouched and no user gets two profiles. *)
Theorem delete_profile_answers_200_only_for_a_deleted_row ident b :
  exists r b',
    deleteUserProfile (Some ident) b = (Returned r, b')
    /\ users (store b') = users (store b)
    /\ (reply_status r = 200 \/ reply_status r = 404)
    /\ (reply_status r = 200 ->
        existsb (of_user (identity_id ident)) (users_profiles (store b)) = true
        /\ existsb (of_user (identity_id ident)) (users_profiles (store b')) = false)
    /\ (reply_status r = 404 -> users_profiles (store b') = users_profiles (store b))
    /\ (one_profile_per_user (users_profiles (store b)) ->
        one_profile_per_user (users_profiles (store b'))).
Proof.
  destruct (deleteUserProfile_run ident b) as (r & b' & Hrun & Hu & Hcase).
  exists r, b'. split; [exact Hrun|]. split; [exact Hu|].
  destruct Hcase as [(Hs & _ & Hx & E)|(Hs & _ & E)]; rewrite Hs, E.
  - split; [auto|]. split.
    + intros _. split; [exact Hx|].
      clear. induction (users_profiles (store b)) as [|p ps IH]; simpl; [reflexivity|].
      destruct (of_user (identity_id ident) p) eqn:Hp; simpl; [exact IH|].
      now rewrite Hp.
    + split; [discriminate|]. apply NoDup_map_filter.
  - split; [auto|]. split; [discriminate|]. split; auto.
Qed.

End ProfileFacts.

(* ================================================================= *)
(** * The properties of the further code on the sample data *)

(** ** One-time codes *)

Lemma stored_code_verifies_until_expiry_witness :
  fst (verifyOTP 1 (js "424242") email_type
         (snd (storeOTP (caps := demo_capabilities) 1 (js "424242") email_type
                 sample_world))) = Ok true.
Proof.
  refine (proj1 (stored_code_verifies_until_expiry (caps := demo_capabilities)
                   1 (js "424242") email_type sample_world _ _
                   (alone_is_undisturbed (caps := demo_capabilities)
                      1 (js "424242") email_type sample_world _ eq_refl)
                   eq_refl)
            _ _); reflexivity.
Defined.

Lemma reissue_invalidates_other_codes_witness :
  exists w',
    verifyOTP 1 (js "111111") email_type
      (snd (storeOTP (caps := demo_capabilities) 1 (js "424242") email_type
              sample_world)) = (Ok false, w')
    /\ otp_codes w'
       = otp_codes (snd (storeOTP (caps := demo_capabilities) 1 (js "424242")
                           email_type sample_world)).
Proof.
  refine (proj1 (reissue_invalidates_other_codes (caps := demo_capabilities)
                   1 (js "424242") (js "111111") email_type _)
            sample_world _ _
            (alone_is_undisturbed (caps := demo_capabilities)
               1 (js "424242") email_type sample_world _ eq_refl)
            eq_refl).
  discriminate.
Defined.

Lemma ledger_unique_invariant_witness :
  ledger_unique
    (otp_codes (snd (storeOTP (caps := demo_capabilities) 1 (js "424242")
                       email_type sample_world)))
  /\ ledger_unique
       (otp_codes (snd (verifyOTP 1 (js "424242") email_type sample_world)))
  /\ (forall otp',
        faults sample_world = [] ->
        ~ ledger_unique
            (otp_codes (snd (overlapping_issuances (caps := demo_capabilities)
                               1 (js "424242") otp' email_type sample_world)))).
Proof.
  refine (ledger_unique_invariant (caps := demo_capabilities)
            1 (js "424242") email_type sample_world _).
  intros userId type. simpl.
  destruct (otp_matches userId type _); simpl; lia.
Defined.

Lemma verifyOTP_wrong_code_changes_nothing_witness :
  exists w',
    verifyOTP 1 (js "999999") email_type sample_world = (Ok false, w')
    /\ same_tables sample_world w'.
Proof.
  refine (verifyOTP_wrong_code_changes_nothing 1 (js "999999") email_type
            sample_world _).
  intros r [<-|[]] _ _ _. discriminate.
Defined.

(** ** Coupons *)

Lemma sweep_flags_exactly_the_due_coupons_witness :
  let b := after (TimePasses 4000000) spring_backend in
  exists b',
    markExpiredCoupons b = (Returned tt, b')
    /\ (forall c' e, In c' (coupons (store b')) ->
          Coupon.expires_at c' = Some e -> e <= clock (store b) ->
          Coupon.is_expired c' = Some true)
    /\ (forall c, In c (coupons (store b)) -> due (clock (store b)) c = false ->
          In c (coupons (store b')))
    /\ List.length (coupons (store b')) = List.length (coupons (store b)).
Proof.
  exact (sweep_flags_exactly_the_due_coupons
           (after (TimePasses 4000000) spring_backend) eq_refl).
Defined.

Lemma active_list_is_the_unexpired_coupons_witness :
  exists r b',
    get_active_coupons spring_backend = (Returned r, b')
    /\ exists rows,
         payload r = CouponList rows
         /\ Sorted.Sorted (fun a b => newer_first (row a) (row b)) rows
         /\ (forall j, In j rows ->
               In (row j) (coupons (store b'))
               /\ Coupon.is_expired (row j) <> Some true
               /\ computed_is_expired j = false
               /\ exists e, Coupon.expires_at (row j) = Some e
                            /\ clock (store spring_backend) < e
                            /\ ms_remaining j = Some (e - clock (store spring_backend)))
         /\ (forall c, In c (coupons (store b')) ->
               active (clock (store spring_backend)) c = true ->
               In (returning (clock (store spring_backend)) c) rows).
Proof.
  eexists. eexists. split; [vm_compute; reflexivity|].
  apply (active_list_is_the_unexpired_coupons spring_backend); reflexivity.
Defined.

Lemma full_list_shows_every_coupon_witness :
  exists r b',
    get_all_coupons spring_backend = (Returned r, b')
    /\ exists rows,
         payload r = CouponList rows
         /\ Sorted.Sorted (fun a b => newer_first (row a) (row b)) rows
         /\ Permutation.Permutation (map row rows) (coupons (store b'))
         /\ (forall j e, In j rows -> Coupon.expires_at (row j) = Some e ->
               computed_is_expired j = (e <=? clock (store spring_backend))).
Proof.
  eexists. eexists. split; [vm_compute; reflexivity|].
  apply (full_list_shows_every_coupon spring_backend); reflexivity.
Defined.

Lemma counts_partition_the_coupons_witness :
  exists r b',
    get_coupon_counts spring_backend = (Returned r, b')
    /\ exists total n_active n_expired,
         payload r = Counts total n_active n_expired
         /\ total = Z.of_nat (List.length (coupons (store b')))
         /\ 0 <= n_active /\ 0 <= n_expired
         /\ n_active + n_expired <= total
         /\ ((forall c, In c (coupons (store b')) -> Coupon.expires_at c <> None) ->
             n_active + n_expired = total).
Proof.
  eexists. eexists. split; [vm_compute; reflexivity|].
  apply (counts_partition_the_coupons spring_backend); reflexivity.
Defined.

Lemma create_rejects_missing_fields_witness :
  exists b',
    post_coupon nameless_request (Some winter_file) sample_backend
    = (Returned (mkReply 400 (Plain (Error (js "Missing required fields")))), b')
    /\ coupons (store b') = coupons (store sample_backend)
    /\ statements b' = statements sample_backend
    /\ trace (store b')
       = trace (store sample_backend) ++ discard_calls (Some winter_file).
Proof.
  exact (create_rejects_missing_fields nameless_request (Some winter_file)
           sample_backend eq_refl).
Defined.

Lemma create_rejects_a_taken_id_witness :
  exists b',
    post_coupon summer_again (Some winter_file) sample_backend
    = (Returned (mkReply 400 (Plain (Error (js "Coupon ID already exists")))), b')
    /\ coupons (store b') = coupons (store sample_backend)
    /\ trace (store b')
       = trace (store sample_backend) ++ discard_calls (Some winter_file).
Proof.
  exact (create_rejects_a_taken_id summer_again (Some winter_file) sample_backend
           eq_refl (or_introl eq_refl) eq_refl).
Defined.

Lemma create_stores_an_unflagged_coupon_witness :
  exists b' c j,
    post_coupon winter_request (Some winter_file) sample_backend
    = (Returned (mkReply 201 (Plain (CouponRow (Some j)))), b')
    /\ coupons (store b') = coupons (store sample_backend) ++ [c]
    /\ row j = c
    /\ Coupon.coupon_id c = js "WINTER"
    /\ Coupon.duration c = js "2hrs"
    /\ Coupon.is_expired c = Some false
    /\ Coupon.expires_at c
       = Some (calculateExpirationDate (clock (store sample_backend)) (js "2hrs"))
    /\ Coupon.image_public_id c = Some (js "coupons/WINTER_1")
    /\ computed_is_expired j = (totalMinutes (js "2hrs") <=? 0).
Proof.
  refine (create_stores_an_unflagged_coupon winter_request (Some winter_file)
            sample_backend eq_refl _ eq_refl).
  intros [H|[]]. discriminate H.
Defined.

Lemma read_flags_only_what_expired_meanwhile_witness :
  let b := after (TimePasses 3549000) spring_backend in
  exists j b',
    get_coupon 2000 (js "SPRING") b
    = (Returned (mkReply 200 (Plain (CouponRow (Some j)))), b')
    /\ row j = spring_coupon
    /\ computed_is_expired j
       = ((3650000 <=? clock (store b)) || (3650000 <=? clock (store b) + 2000))
    /\ coupons (store b')
       = if (clock (store b) <? 3650000) && (3650000 <=? clock (store b) + 2000)
         then map (fun x => if has_coupon_id (js "SPRING") x
                            then flag_expired (clock (store b) + 2000) x
                            else x)
                  (coupons (store b))
         else coupons (store b).
Proof.
  exact (read_flags_only_what_expired_meanwhile 2000 (js "SPRING") spring_coupon
           [] 3650000 (after (TimePasses 3549000) spring_backend)
           eq_refl eq_refl eq_refl).
Defined.

Lemma spring_ids_unique ms :
  unique_coupon_ids (coupons (store (after (TimePasses ms) spring_backend))).
Proof.
  simpl. repeat constructor; simpl; intuition discriminate.
Defined.

Lemma cleanup_only_deletes_old_expired_coupons_witness :
  let b := after (TimePasses 700000000) spring_backend in
  exists b',
    cleanupOldExpiredCoupons 7 b = (Returned tt, b')
    /\ (forall x, In x (coupons (store b')) -> In x (coupons (store b)))
    /\ (forall x, In x (coupons (store b)) ->
          old_expired (clock (store b)) 7 x = false ->
          In x (coupons (store b'))).
Proof.
  exact (cleanup_only_deletes_old_expired_coupons 7
           (after (TimePasses 700000000) spring_backend)
           (spring_ids_unique 700000000)).
Defined.

Lemma cleanup_purges_every_old_expired_coupon_witness :
  let b := after (TimePasses 700000000) spring_backend in
  exists b',
    cleanupOldExpiredCoupons 7 b = (Returned tt, b')
    /\ (forall x, In x (coupons (store b')) ->
          old_expired (clock (store b)) 7 x = false)
    /\ trace (store b')
       = trace (store b)
         ++ flat_map purge_calls
              (filter (old_expired (clock (store b)) 7) (coupons (store b))).
Proof.
  exact (cleanup_purges_every_old_expired_coupon 7
           (after (TimePasses 700000000) spring_backend) eq_refl).
Defined.

Lemma cleanup_request_defaults_to_seven_days_witness :
  exists b',
    post_cleanup_old_expired (Some 0) sample_backend
    = (Returned
         (mkReply 200
            (Plain (Message
               (js "Old expired coupons cleanup completed successfully (7 days old)")))),
       b')
    /\ In summer_coupon (coupons (store b')).
Proof.
  refine (cleanup_request_defaults_to_seven_days (Some 0) sample_backend
            summer_coupon 61000 (or_intror eq_refl) _ (or_introl eq_refl)
            eq_refl eq_refl).
  simpl. repeat constructor; simpl; intuition discriminate.
Defined.

Lemma update_with_blank_fields_keeps_the_row_witness :
  exists r w',
    put_coupon (js "SUMMER") blank_request None sample_world = (Ok r, w')
    /\ In (Coupon.mk (Coupon.id summer_coupon) (Coupon.brand_name summer_coupon)
             (Coupon.coupon_id summer_coupon) (Coupon.bogo summer_coupon)
             (Coupon.discount summer_coupon) (Coupon.audience summer_coupon)
             (Coupon.duration summer_coupon) (Coupon.image_url summer_coupon)
             (Coupon.image_public_id summer_coupon)
             (Coupon.expires_at summer_coupon) (Coupon.is_expired summer_coupon)
             (Coupon.expired_at summer_coupon) (Coupon.created_at summer_coupon)
             (clock sample_world))
          (coupons w').
Proof.
  eexists. eexists. split; [vm_compute; reflexivity|].
  eapply (update_with_blank_fields_keeps_the_row (js "SUMMER") blank_request
            summer_coupon [] sample_world); reflexivity.
Defined.

Lemma failed_update_loses_both_images_witness :
  let w := with_faults [false; false; true; false] sample_world in
  exists w',
    put_coupon (js "SUMMER") longer_duration (Some winter_file) w
    = (Ok (mkResponse 500 (Error (js "Failed to update coupon"))), w')
    /\ coupons w' = coupons w
    /\ (forall a, In a (assets w') ->
          a <> js "coupons/SUMMER_1" /\ a <> filename winter_file)
    /\ trace w'
       = trace w ++ [SelectCoupon (js "SUMMER");
                     CloudinaryDestroy (js "coupons/SUMMER_1");
                     UpdateCoupon (js "SUMMER")
                       (update_values (clock w) longer_duration (Some winter_file)
                          summer_coupon);
                     CloudinaryDestroy (filename winter_file)].
Proof.
  exact (failed_update_loses_both_images (js "SUMMER") longer_duration winter_file
           summer_coupon [] (js "coupons/SUMMER_1") []
           (with_faults [false; false; true; false] sample_world)
           eq_refl eq_refl eq_refl eq_refl eq_refl).
Defined.

Lemma sample_ids_unique : unique_coupon_ids (coupons (store sample_backend)).
Proof.
  simpl. repeat constructor; simpl; intuition discriminate.
Defined.

Lemma coupon_ids_stay_unique_witness :
  unique_coupon_ids
    (coupons (store (after_all [PostCoupon winter_request None;
                                PostCoupon winter_request (Some winter_file);
                                CronEveryMinute;
                                PutCoupon (js "WINTER") longer_duration None;
                                DeleteCouponById (js "SUMMER")]
                       sample_backend))).
Proof.
  exact (coupon_ids_stay_unique _ sample_backend sample_ids_unique).
Defined.

Lemma flagged_coupons_have_expired_witness :
  let b := after_all [PostCoupon winter_request None;
                      TimePasses 8000000;
                      GetCoupon 5 (js "WINTER");
                      PostCleanup None]
             sample_backend in
  flagged_are_past (clock (store b)) (coupons (store b)).
Proof.
  refine (flagged_coupons_have_expired
            [PostCoupon winter_request None; TimePasses 8000000;
             GetCoupon 5 (js "WINTER"); PostCleanup None]
            sample_backend _ sample_ids_unique _).
  - repeat constructor; simpl; discriminate.
  - intros c [<-|[]] _. exists 60000. split; [reflexivity|discriminate].
Defined.

Lemma created_coupon_expires_after_its_duration_witness :
  let id := js "WINTER" in
  let life := totalMinutes (js "2hrs") * 60000 in
  let b2 := after (TimePasses 1000)
              (after (PostCoupon winter_request None) sample_backend) in
  (forall r b3, get_active_coupons b2 = (Returned r, b3) -> reply_status r = 200 ->
     exists rows, payload r = CouponList rows
       /\ (1000 < life ->
           exists j, In j rows /\ Coupon.coupon_id (row j) = id
                     /\ computed_is_expired j = false)
       /\ (life <= 1000 ->
           forall j, In j rows -> Coupon.coupon_id (row j) <> id))
  /\ (forall r b3, get_all_coupons b2 = (Returned r, b3) -> reply_status r = 200 ->
        exists rows, payload r = CouponList rows
          /\ exists j, In j rows /\ Coupon.coupon_id (row j) = id
                       /\ computed_is_expired j = (life <=? 1000)).
Proof.
  refine (created_coupon_expires_after_its_duration winter_request None
            sample_backend 1000 eq_refl _ eq_refl _).
  - intros [H|[]]. discriminate H.
  - discriminate.
Defined.

(** ** Guards, signup and the routes behind the guard *)

Lemma checkVerification_passes_only_verified_users_witness :
  exists w',
    checkVerification (Some (mkIdentity 2 (js "bob@example.com"))) sample_world
    = (Ok Next, w')
    /\ same_tables sample_world w'
    /\ exists ident u,
         Some (mkIdentity 2 (js "bob@example.com")) = Some ident
         /\ In u (users sample_world)
         /\ User.id u = identity_id ident /\ User.is_verified u = true.
Proof.
  eexists. split; [vm_compute; reflexivity|].
  apply (checkVerification_passes_only_verified_users
           (Some (mkIdentity 2 (js "bob@example.com"))) sample_world).
  reflexivity.
Defined.

Lemma sample_accounts_unique : unique_accounts (users (store sample_backend)).
Proof.
  split; simpl; repeat constructor; simpl; intuition discriminate.
Defined.

Lemma signup_keeps_accounts_unique_witness :
  let b' := snd (signup (libs := demo_libraries) (SignupBody carol_signup)
                   sample_backend) in
  unique_accounts (users (store b'))
  /\ forall u, In u (users (store b')) ->
               In u (users (store sample_backend)) \/ User.is_verified u = false.
Proof.
  exact (signup_keeps_accounts_unique (libs := demo_libraries)
           (SignupBody carol_signup) sample_backend sample_accounts_unique).
Defined.

Lemma signup_verify_login_witness :
  let body := SignupBody carol_signup in
  let lbody := LoginBody carol_login in
  exists r1 b1 u,
    signup (libs := demo_libraries) body sample_backend = (Returned r1, b1)
    /\ reply_status r1 = 200
    /\ users (store b1) = users (store sample_backend) ++ [u]
    /\ User.is_verified u = false
    /\ (exists r, fst (login (caps := @libraries_capabilities demo_libraries) lbody (store b1)) = Ok r
                  /\ status r = 203 /\ token_of r = None)
    /\ exists w2 w3,
         storeOTP (caps := @libraries_capabilities demo_libraries) (User.id u) (js "777777")
           email_type (store b1) = (Ok true, w2)
         /\ verifyOTP (User.id u) (js "777777") email_type w2 = (Ok true, w3)
         /\ exists r t, fst (login (caps := @libraries_capabilities demo_libraries) lbody w3) = Ok r
                        /\ status r = 200 /\ token_of r = Some t.
Proof.
  refine (signup_verify_login (libs := demo_libraries) (SignupBody carol_signup)
            (LoginBody carol_login) carol_signup carol_login sample_backend
            (js "777777") eq_refl eq_refl eq_refl eq_refl _ eq_refl eq_refl eq_refl
            eq_refl).
  intros salt p. apply js_eqb_refl.
Defined.

Lemma resend_keeps_the_code_when_the_mail_fails_witness :
  let b := with_store (with_faults [false; false; false; false; true] sample_world)
             sample_backend in
  exists b',
    route_resend_otp (libs := demo_libraries)
      (Some (js "Bearer alice@example.com.1d")) (js "424242") b
    = (Returned (mkReply 500 (Plain (Message (js "Failed to send OTP")))), b')
    /\ outbox b' = outbox b
    /\ filter (otp_matches (User.id alice) email_type) (otp_codes (store b'))
       = [Otp.mk (otp_seq (store b)) (User.id alice) (js "424242") email_type
            (clock (store b) + 10 * 60000 + 0) (clock (store b))].
Proof.
  exact (resend_keeps_the_code_when_the_mail_fails (libs := demo_libraries)
           (Some (js "Bearer alice@example.com.1d")) (js "alice@example.com.1d")
           (mkIdentity 1 (js "alice@example.com")) alice (js "424242") []
           (with_store (with_faults [false; false; false; false; true] sample_world)
              sample_backend)
           eq_refl eq_refl eq_refl eq_refl eq_refl).
Defined.

Lemma verify_route_accepts_a_code_once_witness :
  let body := OtpBody (js "111111") in
  let authorization := Some (js "Bearer alice@example.com.1d") in
  exists b',
    route_verify_otp (libs := demo_libraries) body authorization sample_backend
    = (Returned
         (mkReply 200
            (MessageToken (js "OTP verified successfully")
               (jwt_sign (Capabilities := @libraries_capabilities demo_libraries)
                  1 (js "alice@example.com") (js "1d")
                  (clock (store sample_backend))))), b')
    /\ (forall x, In x (users (store b')) ->
          User.id x = 1 -> User.is_verified x = true)
    /\ forall b2 r2 b3,
         otp_codes (store b2) = otp_codes (store b') ->
         route_verify_otp (libs := demo_libraries) body authorization b2
         = (Returned r2, b3) ->
         reply_status r2 <> 200.
Proof.
  exact (verify_route_accepts_a_code_once (libs := demo_libraries)
           (OtpBody (js "111111")) (Some (js "Bearer alice@example.com.1d"))
           (js "alice@example.com.1d") (mkIdentity 1 (js "alice@example.com"))
           (js "111111") alice
           (Otp.mk 1 1 (js "111111") email_type 650000 50000) [] sample_backend
           eq_refl eq_refl eq_refl eq_refl eq_refl eq_refl eq_refl).
Defined.

(** ** Profiles *)

Lemma save_keeps_one_profile_per_user_witness :
  exists r b',
    saveUserProfile (libs := demo_libraries)
      (Some (mkIdentity 1 (js "alice@example.com"))) (ProfileBody alice_profile)
      sample_backend = (Returned r, b')
    /\ one_profile_per_user (users_profiles (store b'))
    /\ users (store b') = users (store sample_backend).
Proof.
  exact (save_keeps_one_profile_per_user (libs := demo_libraries)
           (mkIdentity 1 (js "alice@example.com")) (ProfileBody alice_profile)
           sample_backend (NoDup_nil Z)).
Defined.

Lemma save_twice_inserts_then_rewrites_witness :
  let ident := mkIdentity 1 (js "alice@example.com") in
  exists r1 b1 r2 b2,
    saveUserProfile (libs := demo_libraries) (Some ident)
      (ProfileBody alice_profile) sample_backend = (Returned r1, b1)
    /\ saveUserProfile (libs := demo_libraries) (Some ident)
         (ProfileBody alice_profile_moved) b1 = (Returned r2, b2)
    /\ reply_status r1 = 200 /\ reply_status r2 = 200
    /\ users_profiles (store b2)
       = users_profiles (store sample_backend)
         ++ [patched (clock (store sample_backend)) (as_patch alice_profile_moved)
               (inserted_profile (profiles_id_seq sample_backend)
                  (clock (store sample_backend)) 1 (User.email alice)
                  (User.phone alice) alice_profile)].
Proof.
  exact (save_twice_inserts_then_rewrites (libs := demo_libraries)
           (mkIdentity 1 (js "alice@example.com")) (ProfileBody alice_profile)
           (ProfileBody alice_profile_moved) alice_profile alice_profile_moved
           alice sample_backend eq_refl eq_refl eq_refl eq_refl eq_refl).
Defined.
